(** * Session reconciliation and session-log reading of claudecodeui

    A shallow embedding of the client-side session protection system
    (src/src/App.jsx, with the part of ChatInterface.handleSubmit that
    touches it) and of the server-side session log reader
    (src/server/projects.js), together with the properties of these
    functions that the specification states.

    Conventions of the embedding:
    - a JavaScript [Set] of strings is a [gset string];
    - a JavaScript object used as a dictionary is an association list in
      insertion order (the order [Object.entries] enumerates);
    - an optional field is an [option]; [undefined] is [None];
    - React state is passed explicitly: a handler maps the state it runs in
      to the state after all its updates are applied;
    - [Date.now()], [new Date()] and [Math.random()] are inputs of the
      function that reads them;
    - a timestamp is the number of milliseconds that [new Date(t).getTime()]
      yields, an integer; texts that do not parse as a date are not
      modelled. *)

From Stdlib Require Import ZArith List String Ascii Bool Lia Permutation Sorted.
From stdpp Require Import base decidable option list gmap strings sets.

Import ListNotations.
#[local] Open Scope string_scope.
#[local] Open Scope list_scope.

(** ** JavaScript helpers *)

(** [s.startsWith(pre)]. *)
Definition startsWith (s pre : string) : bool := String.prefix pre s.

(** Truthiness of a string: every string but the empty one. *)
Definition truthy (s : string) : bool :=
  match s with
  | EmptyString => false
  | String _ _ => true
  end.

(** [o || d] for an optional string. *)
Definition str_or (o : option string) (d : string) : string :=
  match o with
  | Some s => if truthy s then s else d
  | None => d
  end.

(** [o || d] for an optional number ([0], as [undefined], gives [d]). *)
Definition num_or (o : option Z) (d : Z) : Z :=
  match o with
  | Some z => if Z.eqb z 0 then d else z
  | None => d
  end.

(** ** Objects as dictionaries: association lists in insertion order *)

Section Obj.
Context {V : Type}.

(** [o[k]]. *)
Fixpoint obj_get (k : string) (o : list (string * V)) : option V :=
  match o with
  | [] => None
  | (k', v) :: o' => if String.eqb k k' then Some v else obj_get k o'
  end.

(** [o[k] = v]: an existing key keeps its place, a new one goes last. *)
Fixpoint obj_set (k : string) (v : V) (o : list (string * V)) : list (string * V) :=
  match o with
  | [] => [(k, v)]
  | (k', v') :: o' =>
      if String.eqb k k' then (k, v) :: o' else (k', v') :: obj_set k v o'
  end.

(** [delete o[k]]. *)
Definition obj_delete (k : string) (o : list (string * V)) : list (string * V) :=
  List.filter (fun kv => negb (String.eqb k (fst kv))) o.
End Obj.

(** [arr.find(p)]. *)
Definition js_find {A : Type} (p : A -> bool) (l : list A) : option A := List.find p l.

(** [arr.some(p)]. *)
Definition js_some {A : Type} (p : A -> bool) (l : list A) : bool := List.existsb p l.

Arguments js_find {A} p l : simpl never.
Arguments js_some {A} p l : simpl never.

(** * The client: src/src/App.jsx *)

Module App.

(** A session as the sidebar holds it.  The server sends [id], [summary],
    [messageCount], [lastActivity] and [cwd]; a placeholder created by the
    client carries [title], [created_at], [updated_at] and [isPlaceholder]. *)
Record Session := mkSession {
  id : string;
  title : option string;
  summary : option string;
  created_at : option string;
  updated_at : option string;
  lastActivity : option string;
  messageCount : option Z;
  cwd : option string;
  isPlaceholder : bool
}.

Record SessionMeta := mkSessionMeta {
  hasMore : option bool;
  total : option Z
}.

Record Project := mkProject {
  name : string;
  path : string;
  displayName : string;
  fullPath : string;
  isCustomName : bool;
  isManuallyAdded : bool;
  sessions : list Session;
  sessionMeta : option SessionMeta
}.

(** A record of the [placeholderSessions] registry in [localStorage]:
    the placeholder session itself, its project and the bookkeeping of
    [handleNewSession] and [handleSubmit]. *)
Record PlaceholderData := mkPlaceholderData {
  placeholder : Session;
  projectName : string;
  createdAt : Z;
  pendingConversion : bool;
  pendingConversionTime : option Z
}.

#[global] Instance Session_eq_dec : EqDecision Session.
Proof. solve_decision. Defined.
#[global] Instance SessionMeta_eq_dec : EqDecision SessionMeta.
Proof. solve_decision. Defined.
#[global] Instance Project_eq_dec : EqDecision Project.
Proof. solve_decision. Defined.
#[global] Instance PlaceholderData_eq_dec : EqDecision PlaceholderData.
Proof. solve_decision. Defined.

(** The state of [AppContent] that the session protection system reads and
    writes, with the registry it keeps in [localStorage]. *)
Record AppState := mkAppState {
  projects : list Project;
  selectedProject : option Project;
  selectedSession : option Session;
  activeSessions : gset string;
  processedMessageIds : gset string;
  placeholderSessions : list (string * PlaceholderData)
}.

Definition set_projects (v : list Project) (s : AppState) : AppState :=
  mkAppState v (selectedProject s) (selectedSession s) (activeSessions s)
             (processedMessageIds s) (placeholderSessions s).
Definition set_selectedProject (v : option Project) (s : AppState) : AppState :=
  mkAppState (projects s) v (selectedSession s) (activeSessions s)
             (processedMessageIds s) (placeholderSessions s).
Definition set_selectedSession (v : option Session) (s : AppState) : AppState :=
  mkAppState (projects s) (selectedProject s) v (activeSessions s)
             (processedMessageIds s) (placeholderSessions s).
Definition set_activeSessions (v : gset string) (s : AppState) : AppState :=
  mkAppState (projects s) (selectedProject s) (selectedSession s) v
             (processedMessageIds s) (placeholderSessions s).
Definition set_processedMessageIds (v : gset string) (s : AppState) : AppState :=
  mkAppState (projects s) (selectedProject s) (selectedSession s) (activeSessions s)
             v (placeholderSessions s).
Definition set_placeholderSessions (v : list (string * PlaceholderData)) (s : AppState) : AppState :=
  mkAppState (projects s) (selectedProject s) (selectedSession s) (activeSessions s)
             (processedMessageIds s) v.

(** [{...session, id: realSessionId, isPlaceholder: false}]. *)
Definition with_real_id (realSessionId : string) (ses : Session) : Session :=
  mkSession realSessionId (title ses) (summary ses) (created_at ses) (updated_at ses)
            (lastActivity ses) (messageCount ses) (cwd ses) false.

Definition with_sessions (l : list Session) (p : Project) : Project :=
  mkProject (name p) (path p) (displayName p) (fullPath p) (isCustomName p)
            (isManuallyAdded p) l (sessionMeta p).

Definition with_sessions_meta (l : list Session) (m : option SessionMeta) (p : Project) : Project :=
  mkProject (name p) (path p) (displayName p) (fullPath p) (isCustomName p)
            (isManuallyAdded p) l m.

(** [project.sessionMeta?.total || 0]. *)
Definition meta_total (p : Project) : Z :=
  match sessionMeta p with
  | Some m => num_or (total m) 0
  | None => 0
  end.

(** [{...project.sessionMeta, total: t}]. *)
Definition meta_with_total (p : Project) (t : Z) : option SessionMeta :=
  Some (mkSessionMeta (match sessionMeta p with Some m => hasMore m | None => None end)
                      (Some t)).

(** *** addPlaceholderSessions *)

Definition maxAge : Z := 24 * 60 * 60 * 1000.
Definition pendingConversionTimeout : Z := 5 * 60 * 1000.

(** The test of the [forEach] of [addPlaceholderSessions] that keeps a
    stored placeholder. *)
Definition placeholder_valid (now : Z) (projs : list Project) (d : PlaceholderData) : bool :=
  let isRecent := Z.ltb (now - createdAt d) maxAge in
  let projectExists := js_some (fun p => String.eqb (name p) (projectName d)) projs in
  let isPendingConversion := pendingConversion d in
  let pendingConversionExpired :=
    isPendingConversion && Z.ltb pendingConversionTimeout (now - num_or (pendingConversionTime d) 0) in
  isRecent && projectExists && negb isPendingConversion && negb pendingConversionExpired.

Definition validPlaceholders (now : Z) (projs : list Project)
    (stored : list (string * PlaceholderData)) : list (string * PlaceholderData) :=
  List.filter (fun kv => placeholder_valid now projs (snd kv)) stored.

(** The session that [addPlaceholderSessions] rebuilds from a record. *)
Definition session_of_placeholder (sessionId : string) (d : PlaceholderData) : Session :=
  mkSession sessionId (title (placeholder d)) (summary (placeholder d))
            (created_at (placeholder d)) (updated_at (placeholder d))
            (lastActivity (placeholder d)) None None true.

Definition projectPlaceholders (valid : list (string * PlaceholderData)) (p : Project) : list Session :=
  List.map (fun kv => session_of_placeholder (fst kv) (snd kv))
           (List.filter (fun kv => String.eqb (projectName (snd kv)) (name p)) valid).

(** [addPlaceholderSessions(projects)]: the projects with their valid
    placeholders in front, and the registry as it is left in [localStorage]. *)
Definition addPlaceholderSessions (now : Z) (stored : list (string * PlaceholderData))
    (projs : list Project) : list Project * list (string * PlaceholderData) :=
  let valid := validPlaceholders now projs stored in
  let stored' := if Nat.eqb (length valid) (length stored) then stored else valid in
  (List.map (fun p =>
       let ph := projectPlaceholders valid p in
       match ph with
       | [] => p
       | _ :: _ =>
           with_sessions_meta (ph ++ sessions p)
             (meta_with_total p (meta_total p + Z.of_nat (length ph))) p
       end) projs,
   stored').

(** *** isUpdateAdditive *)

Definition is_placeholder_session (ses : Session) : bool :=
  isPlaceholder ses || startsWith (id ses) "temp-".

Definition isUpdateAdditive (currentProjects updatedProjects : list Project)
    (selProject : option Project) (selSession : option Session) : bool :=
  match selProject, selSession with
  | Some sp, Some ss =>
      let currentSelectedProject := js_find (fun p => String.eqb (name p) (name sp)) currentProjects in
      let updatedSelectedProject := js_find (fun p => String.eqb (name p) (name sp)) updatedProjects in
      match currentSelectedProject, updatedSelectedProject with
      | Some cp, Some up =>
          let currentSelectedSession := js_find (fun x => String.eqb (id x) (id ss)) (sessions cp) in
          let updatedSelectedSession := js_find (fun x => String.eqb (id x) (id ss)) (sessions up) in
          if is_placeholder_session ss then true
          else
            match currentSelectedSession, updatedSelectedSession with
            | Some cs, Some us =>
                bool_decide (id cs = id us) && bool_decide (title cs = title us)
                && bool_decide (created_at cs = created_at us)
                && bool_decide (updated_at cs = updated_at us)
            | _, _ => false
            end
      | _, _ => false
      end
  | _, _ => true
  end.

(** *** The [projects_updated] branch of the WebSocket effect *)

(** [hasActiveSession]. *)
Definition hasActiveSession (selSession : option Session) (active : gset string) : bool :=
  match selSession with
  | Some ss => bool_decide (id ss ∈ active)
  | None => false
  end
  || js_some (fun i => startsWith i "new-session-") (elements active).

(** The effect, run for a message of type [projects_updated] with
    identifier [messageId] that carries [updatedProjects]. *)
Definition onProjectsUpdated (now : Z) (messageId : string) (updatedProjects : list Project)
    (s : AppState) : AppState :=
  if bool_decide (messageId ∈ processedMessageIds s) then s
  else
    let s1 := set_processedMessageIds (processedMessageIds s ∪ {[ messageId ]}) s in
    if hasActiveSession (selectedSession s) (activeSessions s)
       && negb (isUpdateAdditive (projects s) updatedProjects (selectedProject s) (selectedSession s))
    then s1
    else
      let '(withPlaceholders, stored') :=
        addPlaceholderSessions now (placeholderSessions s) updatedProjects in
      let s2 := set_placeholderSessions stored' s1 in
      let s3 :=
        set_projects (if bool_decide (projects s = withPlaceholders)
                      then projects s else withPlaceholders) s2 in
      match selectedProject s with
      | None => s3
      | Some sp =>
          match js_find (fun p => String.eqb (name p) (name sp)) withPlaceholders with
          | None => s3
          | Some up =>
              if bool_decide (up = sp) then s3
              else
                let s4 := set_selectedProject (Some up) s3 in
                match selectedSession s with
                | None => s4
                | Some ss =>
                    match js_find (fun x => String.eqb (id x) (id ss)) (sessions up) with
                    | Some _ => s4
                    | None => set_selectedSession None s4
                    end
                end
          end
      end.

(** *** The protection functions *)

Definition markSessionAsActive (sessionId : string) (s : AppState) : AppState :=
  if truthy sessionId then set_activeSessions (activeSessions s ∪ {[ sessionId ]}) s else s.

Definition markSessionAsInactive (sessionId : string) (s : AppState) : AppState :=
  if truthy sessionId then set_activeSessions (activeSessions s ∖ {[ sessionId ]}) s else s.

Definition replaceTemporarySession (realSessionId : string) (s : AppState) : AppState :=
  if truthy realSessionId then
    set_activeSessions
      (filter (fun i => startsWith i "new-session-" = false) (activeSessions s)
       ∪ {[ realSessionId ]}) s
  else s.

(** *** handleNewSession *)

(** [`temp-${Date.now()}-${Math.random().toString(36).substr(2, 9)}`]:
    [stamp] is the text of [Date.now()], [rnd] the random suffix. *)
Definition placeholderId (stamp rnd : string) : string :=
  "temp-" ++ stamp ++ "-" ++ rnd.

Definition handleNewSession (project : Project) (stamp rnd iso : string) (nowMs : Z)
    (s : AppState) : AppState :=
  let placeholderSessionId := placeholderId stamp rnd in
  let placeholderSession :=
    mkSession placeholderSessionId (Some "New Conversation") (Some "New Conversation")
              (Some iso) (Some iso) (Some iso) None None true in
  let existingPlaceholders :=
    obj_set placeholderSessionId
            (mkPlaceholderData placeholderSession (name project) nowMs false None)
            (placeholderSessions s) in
  let updatedProject :=
    with_sessions_meta (placeholderSession :: sessions project)
                       (meta_with_total project (meta_total project + 1)) project in
  let updatedProjects :=
    List.map (fun p => if String.eqb (name p) (name project) then updatedProject else p)
             (projects s) in
  markSessionAsActive placeholderSessionId
    (mkAppState updatedProjects (Some updatedProject) (Some placeholderSession)
                (activeSessions s) (processedMessageIds s) existingPlaceholders).

(** *** replacePlaceholderSession *)

(** The map over a session list that puts the real session in the place of
    the placeholder. *)
Definition replace_in_sessions (realSessionId placeholderSessionId : string)
    (l : list Session) : list Session :=
  List.map (fun x => if String.eqb (id x) placeholderSessionId
                     then with_real_id realSessionId x else x) l.

Definition has_session (sessionId : string) (p : Project) : bool :=
  js_some (fun x => String.eqb (id x) sessionId) (sessions p).

Definition replace_in_project (realSessionId placeholderSessionId : string)
    (p : Project) : Project :=
  if has_session placeholderSessionId p
  then with_sessions (replace_in_sessions realSessionId placeholderSessionId (sessions p)) p
  else p.

Definition replacePlaceholderSession (realSessionId placeholderSessionId : string)
    (s : AppState) : AppState :=
  if truthy realSessionId && truthy placeholderSessionId then
    let existingPlaceholders :=
      match obj_get placeholderSessionId (placeholderSessions s) with
      | Some _ => obj_delete placeholderSessionId (placeholderSessions s)
      | None => placeholderSessions s
      end in
    let active := (activeSessions s ∖ {[ placeholderSessionId ]}) ∪ {[ realSessionId ]} in
    let selSession :=
      match selectedSession s with
      | Some ss =>
          if String.eqb (id ss) placeholderSessionId
          then Some (with_real_id realSessionId ss) else Some ss
      | None => None
      end in
    let projs := List.map (replace_in_project realSessionId placeholderSessionId) (projects s) in
    let selProject :=
      match selectedProject s with
      | Some sp =>
          if has_session placeholderSessionId sp
          then Some (with_sessions
                       (replace_in_sessions realSessionId placeholderSessionId (sessions sp)) sp)
          else Some sp
      | None => None
      end in
    mkAppState projs selProject selSession active (processedMessageIds s) existingPlaceholders
  else s.

(** *** The part of ChatInterface.handleSubmit that protects the session

    [sessionToActivate] is the identity handed to [onSessionActive],
    [sessionIdToUse] the identity sent to the server
    ([sessionManager.getActiveSessionId()], possibly none). A placeholder
    that is sent is marked as pending conversion in the registry. *)
Definition mark_pending (nowMs : Z) (d : PlaceholderData) : PlaceholderData :=
  mkPlaceholderData (placeholder d) (projectName d) (createdAt d) true (Some nowMs).

Definition handleSubmit (sessionToActivate : string) (sessionIdToUse : option string)
    (nowMs : Z) (s : AppState) : AppState :=
  let s1 := markSessionAsActive sessionToActivate s in
  match sessionIdToUse with
  | Some sid =>
      if truthy sid && startsWith sid "temp-" then
        match obj_get sid (placeholderSessions s1) with
        | Some d => set_placeholderSessions
                      (obj_set sid (mark_pending nowMs d) (placeholderSessions s1)) s1
        | None => s1
        end
      else s1
  | None => s1
  end.

(** *** Selecting a project or a session *)

Definition handleProjectSelect (project : Project) (s : AppState) : AppState :=
  set_selectedSession None (set_selectedProject (Some project) s).

(** [handleSessionSelect(session)]; [None] is the [null] that clears the
    selection. *)
Definition handleSessionSelect (session : option Session) (s : AppState) : AppState :=
  let s1 := set_selectedSession session s in
  match session with
  | Some ses =>
      if isPlaceholder ses && truthy (id ses) then markSessionAsActive (id ses) s1 else s1
  | None => s1
  end.

(** The effect that loads the session named by the URL: the first
    project with a session of that identity, and that session. *)
Fixpoint findSession (sessionId : string) (projs : list Project) : option (Project * Session) :=
  match projs with
  | [] => None
  | project :: rest =>
      match js_find (fun x => String.eqb (id x) sessionId) (sessions project) with
      | Some session => Some (project, session)
      | None => findSession sessionId rest
      end
  end.

Definition onSessionRoute (sessionId : option string) (s : AppState) : AppState :=
  match sessionId, projects s with
  | Some i, _ :: _ =>
      if truthy i then
        match findSession i (projects s) with
        | Some (project, session) =>
            set_selectedSession (Some session) (set_selectedProject (Some project) s)
        | None => s
        end
      else s
  | _, _ => s
  end.

(** *** handleSessionDelete and handleProjectDelete *)

Definition handleSessionDelete (sessionId : string) (s : AppState) : AppState :=
  let storedPlaceholders :=
    match obj_get sessionId (placeholderSessions s) with
    | Some _ => obj_delete sessionId (placeholderSessions s)
    | None => placeholderSessions s
    end in
  let selSession :=
    match selectedSession s with
    | Some ss => if String.eqb (id ss) sessionId then None else Some ss
    | None => None
    end in
  let projs :=
    List.map (fun project =>
                with_sessions_meta
                  (List.filter (fun session => negb (String.eqb (id session) sessionId))
                               (sessions project))
                  (meta_with_total project (Z.max 0 (meta_total project - 1)))
                  project)
             (projects s) in
  mkAppState projs (selectedProject s) selSession (activeSessions s)
             (processedMessageIds s) storedPlaceholders.

Definition handleProjectDelete (projectName : string) (s : AppState) : AppState :=
  let s1 :=
    match selectedProject s with
    | Some sp =>
        if String.eqb (name sp) projectName
        then set_selectedSession None (set_selectedProject None s)
        else s
    | None => s
    end in
  set_projects (List.filter (fun project => negb (String.eqb (name project) projectName))
                            (projects s))
               s1.

(** *** fetchProjects and handleSidebarRefresh *)

(** The comparison of [fetchProjects] between a fetched project and the
    one at the same place of the state. *)
Definition projectDiffers (newProject prevProject : Project) : bool :=
  negb (String.eqb (name newProject) (name prevProject))
  || negb (String.eqb (displayName newProject) (displayName prevProject))
  || negb (String.eqb (fullPath newProject) (fullPath prevProject))
  || negb (bool_decide (sessionMeta newProject = sessionMeta prevProject))
  || negb (bool_decide (sessions newProject = sessions prevProject)).

(** [data.some((newProject, index) => ...)]. *)
Fixpoint someDiffers (data prevProjects : list Project) : bool :=
  match data, prevProjects with
  | [], _ => false
  | _ :: _, [] => true
  | newProject :: data', prevProject :: prev' =>
      projectDiffers newProject prevProject || someDiffers data' prev'
  end.

(** [fetchProjects()], when the server answers with [data]. *)
Definition fetchProjects (now : Z) (data : list Project) (s : AppState) : AppState :=
  let '(dataWithPlaceholders, stored') :=
    addPlaceholderSessions now (placeholderSessions s) data in
  let prevProjects := projects s in
  let projs :=
    match prevProjects with
    | [] => dataWithPlaceholders
    | _ :: _ =>
        let hasChanges :=
          someDiffers dataWithPlaceholders prevProjects
          || negb (Nat.eqb (length dataWithPlaceholders) (length prevProjects)) in
        if hasChanges then dataWithPlaceholders else prevProjects
    end in
  set_projects projs (set_placeholderSessions stored' s).

(** [handleSidebarRefresh()], when the server answers with
    [freshProjects]. *)
Definition handleSidebarRefresh (now : Z) (freshProjects : list Project) (s : AppState)
    : AppState :=
  let '(freshProjectsWithPlaceholders, stored') :=
    addPlaceholderSessions now (placeholderSessions s) freshProjects in
  let s1 := set_projects freshProjectsWithPlaceholders (set_placeholderSessions stored' s) in
  match selectedProject s with
  | Some sp =>
      if truthy (name sp) then
        match js_find (fun p => String.eqb (name p) (name sp)) freshProjectsWithPlaceholders with
        | Some refreshedProject =>
            let s2 := set_selectedProject (Some refreshedProject) s1 in
            match selectedSession s with
            | Some ss =>
                match js_find (fun x => String.eqb (id x) (id ss)) (sessions refreshedProject) with
                | Some refreshedSession => set_selectedSession (Some refreshedSession) s2
                | None => set_selectedSession None s2
                end
            | None => s2
            end
        | None => set_selectedSession None (set_selectedProject None s1)
        end
      else s1
  | None => s1
  end.

(** *** updateSessionActivity *)

Record ActivityData := mkActivityData {
  a_sessionId : option string;
  a_lastActivity : option string;
  a_messageContent : option string;
  a_increment : bool
}.

(** [messageContent.length > 50 ? messageContent.substring(0, 50) + '...'
    : messageContent]. *)
Definition activitySummary (messageContent : string) : string :=
  if (50 <? String.length messageContent)%nat
  then String.substring 0 50 messageContent ++ "..."
  else messageContent.

(** The [updates] object built for the session of the activity. *)
Definition withActivity (a : ActivityData) (session : Session) : Session :=
  let lastActivity' :=
    match a_lastActivity a with
    | Some t => if truthy t then Some t else lastActivity session
    | None => lastActivity session
    end in
  let messageCount' :=
    if a_increment a then Some (num_or (messageCount session) 0 + 1)%Z
    else messageCount session in
  let renamed :=
    match a_messageContent a with
    | Some m =>
        if truthy m
           && (negb (truthy (str_or (summary session) ""))
               || bool_decide (summary session = Some "New Conversation")
               || isPlaceholder session)
        then Some (activitySummary m) else None
    | None => None
    end in
  mkSession (id session)
            (match renamed with Some t => Some t | None => title session end)
            (match renamed with Some t => Some t | None => summary session end)
            (created_at session) (updated_at session) lastActivity' messageCount'
            (cwd session) (isPlaceholder session).

Definition activityInSessions (sessionId : string) (a : ActivityData) (l : list Session)
    : list Session :=
  List.map (fun session => if String.eqb (id session) sessionId
                           then withActivity a session else session) l.

Definition updateSessionActivity (a : ActivityData) (s : AppState) : AppState :=
  match a_sessionId a, selectedProject s with
  | Some sessionId, Some sp =>
      if truthy sessionId then
        let projs :=
          List.map (fun project =>
                      if String.eqb (name project) (name sp)
                      then with_sessions (activityInSessions sessionId a (sessions project))
                                         project
                      else project)
                   (projects s) in
        set_selectedProject
          (Some (with_sessions (activityInSessions sessionId a (sessions sp)) sp))
          (set_projects projs s)
      else s
  | _, _ => s
  end.

End App.

(** * The server: src/server/projects.js *)

(** ** More JavaScript helpers *)

(** [s.endsWith(suf)]. *)
Fixpoint endsWith (s suf : string) : bool :=
  String.eqb s suf ||
  match s with
  | EmptyString => false
  | String _ s' => endsWith s' suf
  end.

(** The characters [trim] strips and [\s] matches, among the first 256
    code units. *)
Definition is_space (c : ascii) : bool :=
  let n := nat_of_ascii c in
  ((9 <=? n) && (n <=? 13))%nat || (n =? 32)%nat || (n =? 160)%nat.

(** [!s.trim()]: the string holds white space only. *)
Fixpoint is_blank (s : string) : bool :=
  match s with
  | EmptyString => true
  | String c s' => is_space c && is_blank s'
  end.

(** [s.split(sep)] for a separator of one character. *)
Fixpoint split_on (sep : ascii) (s : string) : list string :=
  match s with
  | EmptyString => [EmptyString]
  | String c s' =>
      if Ascii.eqb c sep then EmptyString :: split_on sep s'
      else match split_on sep s' with
           | [] => [String c EmptyString]
           | x :: xs => String c x :: xs
           end
  end.

(** [l.join(sep)]. *)
Definition join (sep : string) (l : list string) : string := String.concat sep l.

(** [arr.sort(cmp)].  The sort of JavaScript is stable, and the stable
    sort of a list under a comparison is unique: insertion from the right,
    each element going in front of the first one it does not come after. *)
Fixpoint sort_insert {A : Type} (cmp : A -> A -> Z) (x : A) (l : list A) : list A :=
  match l with
  | [] => [x]
  | y :: l' => if Z.leb (cmp x y) 0 then x :: y :: l' else y :: sort_insert cmp x l'
  end.

Fixpoint js_sort {A : Type} (cmp : A -> A -> Z) (l : list A) : list A :=
  match l with
  | [] => []
  | x :: l' => sort_insert cmp x (js_sort cmp l')
  end.

(** [arr.slice(start, end)], with the negative indices of JavaScript. *)
Definition slice_index (len i : Z) : Z :=
  if Z.ltb i 0 then Z.max (len + i) 0 else Z.min i len.

Definition js_slice {A : Type} (start stop : Z) (l : list A) : list A :=
  let len := Z.of_nat (length l) in
  let from := slice_index len start in
  let to := slice_index len stop in
  List.firstn (Z.to_nat (to - from)) (List.skipn (Z.to_nat from) l).

(** [arr.filter((x, i, self) => i === self.findIndex(y => key(y) === key(x)))]:
    the first element of each key. *)
Fixpoint uniqueBy {A : Type} (key : A -> string) (seen : list string) (l : list A) : list A :=
  match l with
  | [] => []
  | x :: l' =>
      if List.existsb (String.eqb (key x)) seen then uniqueBy key seen l'
      else x :: uniqueBy key (key x :: seen) l'
  end.

Module Projects.

(** ** The session logs *)

(** [entry.message.content]: a text, or the array of blocks of a tool
    message. *)
Inductive Content :=
| TextContent (text : string)
| BlockContent.

(** A log entry: the fields of the parsed object that the reader looks at,
    and the text of the others. [e_timestamp] is [Some] for a truthy
    [timestamp] field, with the milliseconds of [new Date(timestamp)];
    [e_role] and [e_content] are those of [entry.message]. *)
Record Entry := mkEntry {
  e_sessionId : option string;
  e_cwd : option string;
  e_timestamp : option Z;
  e_type : option string;
  e_summary : option string;
  e_role : option string;
  e_content : option Content;
  e_rest : string
}.

(** A line of a log file: its text, and what [JSON.parse] makes of it
    ([None] when it throws, or yields [null], whose fields cannot be
    read). *)
Record Line := mkLine {
  raw : string;
  json : option Entry
}.

(** A file of a project directory: its lines are the pieces of its
    content between line feeds. *)
Record File := mkFile {
  fileName : string;
  mtime : Z;
  lines : list Line
}.

#[global] Instance Content_eq_dec : EqDecision Content.
Proof. solve_decision. Defined.
#[global] Instance Entry_eq_dec : EqDecision Entry.
Proof. solve_decision. Defined.
#[global] Instance Line_eq_dec : EqDecision Line.
Proof. solve_decision. Defined.
#[global] Instance File_eq_dec : EqDecision File.
Proof. solve_decision. Defined.

(** The lines a reader keeps: [if (line.trim())]. *)
Definition nonblank (l : list Line) : list Line :=
  List.filter (fun ln => negb (is_blank (raw ln))) l.

(** [files.filter(file => file.endsWith('.jsonl'))]. *)
Definition jsonlFiles (files : list File) : list File :=
  List.filter (fun f => endsWith (fileName f) ".jsonl") files.

(** ** parseJsonlSessions *)

Record Session := mkSession {
  id : string;
  summary : string;
  messageCount : Z;
  lastActivity : Z;
  cwd : string
}.

#[global] Instance Session_eq_dec : EqDecision Session.
Proof. solve_decision. Defined.

(** The summary taken from the first user message. *)
Definition content_summary (content : string) : string :=
  if (50 <? String.length content)%nat then String.substring 0 50 content ++ "..." else content.

Definition update_summary (e : Entry) (ses : Session) : string :=
  if bool_decide (e_type e = Some "summary") && truthy (str_or (e_summary e) "")
  then str_or (e_summary e) ""
  else
    if bool_decide (e_role e = Some "user") && String.eqb (summary ses) "New Session"
    then match e_content e with
         | Some (TextContent content) =>
             if truthy content && negb (startsWith content "<command-name>")
             then content_summary content else summary ses
         | _ => summary ses
         end
    else summary ses.

(** One entry with a truthy [sessionId], read at the time [now]. *)
Definition parse_entry (now : Z) (sid : string) (e : Entry)
    (sessions : list (string * Session)) : list (string * Session) :=
  let sessions1 :=
    match obj_get sid sessions with
    | Some _ => sessions
    | None => obj_set sid (mkSession sid "New Session" 0 now (str_or (e_cwd e) "")) sessions
    end in
  match obj_get sid sessions1 with
  | Some ses =>
      obj_set sid
        (mkSession (id ses) (update_summary e ses) (messageCount ses + 1)
                   (match e_timestamp e with Some t => t | None => lastActivity ses end)
                   (cwd ses))
        sessions1
  | None => sessions1
  end.

Definition parse_line (now : Z) (ln : Line)
    (sessions : list (string * Session)) : list (string * Session) :=
  if is_blank (raw ln) then sessions
  else match json ln with
       | Some e =>
           match e_sessionId e with
           | Some sid => if truthy sid then parse_entry now sid e sessions else sessions
           | None => sessions
           end
       | None => sessions
       end.

(** The loop over the lines; [clock i] is the time [new Date()] gives while
    line [i] is read. *)
Fixpoint parse_lines (clock : nat -> Z) (i : nat) (l : list Line)
    (sessions : list (string * Session)) : list (string * Session) :=
  match l with
  | [] => sessions
  | ln :: l' => parse_lines clock (S i) l' (parse_line (clock i) ln sessions)
  end.

(** [(a, b) => new Date(b.lastActivity) - new Date(a.lastActivity)]. *)
Definition byLastActivity (a b : Session) : Z := lastActivity b - lastActivity a.

Definition parseJsonlSessions (clock : nat -> Z) (f : File) : list Session :=
  js_sort byLastActivity (List.map snd (parse_lines clock 0 (lines f) [])).

(** ** getSessions *)

Record SessionsResult := mkSessionsResult {
  sessions : list Session;
  hasMore : bool;
  total : Z
}.

#[global] Instance SessionsResult_eq_dec : EqDecision SessionsResult.
Proof. solve_decision. Defined.

Definition noSessions : SessionsResult := mkSessionsResult [] false 0.

(** [(a, b) => b.mtime - a.mtime]. *)
Definition byMtime (a b : File) : Z := mtime b - mtime a.

(** [sessions.forEach(session => { if (!allSessions.has(session.id)) ... })]. *)
Definition merge_sessions (allSessions : list (string * Session)) (found : list Session)
    : list (string * Session) :=
  List.fold_left
    (fun acc ses => match obj_get (id ses) acc with
                    | Some _ => acc
                    | None => obj_set (id ses) ses acc
                    end)
    found allSessions.

(** The loop over the files, newest first, with its early exit. [clock f i]
    is the time while line [i] of the file named [f] is read. *)
Fixpoint scan_files (clock : string -> nat -> Z) (limit offset : Z) (nfiles : nat)
    (files : list File) (allSessions : list (string * Session)) (processedCount : nat)
    : list (string * Session) :=
  match files with
  | [] => allSessions
  | f :: rest =>
      let allSessions' :=
        merge_sessions allSessions (parseJsonlSessions (clock (fileName f)) f) in
      let processedCount' := S processedCount in
      if Z.leb ((limit + offset) * 2) (Z.of_nat (length allSessions'))
         && (Nat.min 3 nfiles <=? processedCount')%nat
      then allSessions'
      else scan_files clock limit offset nfiles rest allSessions' processedCount'
  end.

(** [getSessions(projectName, limit, offset)] on the directory of the
    project: [None] when it does not exist. *)
Definition getSessions (clock : string -> nat -> Z) (dir : option (list File))
    (limit offset : Z) : SessionsResult :=
  match dir with
  | None => noSessions
  | Some files =>
      match jsonlFiles files with
      | [] => noSessions
      | _ :: _ =>
          let filesWithStats := js_sort byMtime (jsonlFiles files) in
          let allSessions :=
            scan_files clock limit offset (length filesWithStats) filesWithStats [] 0 in
          let sortedSessions := js_sort byLastActivity (List.map snd allSessions) in
          let total := Z.of_nat (length sortedSessions) in
          mkSessionsResult (js_slice offset (offset + limit) sortedSessions)
                           (Z.ltb (offset + limit) total) total
      end
  end.

(** ** getSessionMessages *)

(** The entries of a file that belong to the session. *)
Definition session_entries (sessionId : string) (f : File) : list Entry :=
  List.flat_map
    (fun ln => match json ln with
               | Some e => if bool_decide (e_sessionId e = Some sessionId) then [e] else []
               | None => []
               end)
    (nonblank (lines f)).

(** [entry.timestamp || 0], as a date. *)
Definition entry_time (e : Entry) : Z :=
  match e_timestamp e with Some t => t | None => 0 end.

(** [(a, b) => new Date(a.timestamp || 0) - new Date(b.timestamp || 0)]. *)
Definition byTimestamp (a b : Entry) : Z := entry_time a - entry_time b.

Definition getSessionMessages (dir : option (list File)) (sessionId : string) : list Entry :=
  if startsWith sessionId "temp-" then []
  else
    match dir with
    | None => js_sort byTimestamp []
    | Some files =>
        match jsonlFiles files with
        | [] => []
        | _ :: _ =>
            js_sort byTimestamp (List.flat_map (session_entries sessionId) (jsonlFiles files))
        end
    end.

(** ** deleteSession *)

Inductive DeleteError :=
| NoSessionFiles
| NotFoundInAnyFile
| DirectoryMissing.

Inductive Outcome :=
| Returned (b : bool)
| Threw (e : DeleteError).

(** [JSON.parse(line).sessionId === sessionId], [false] when it throws. *)
Definition line_of_session (sessionId : string) (ln : Line) : bool :=
  match json ln with
  | Some e => bool_decide (e_sessionId e = Some sessionId)
  | None => false
  end.

(** [content.split('\n').filter(line => line.trim())]. *)
Definition fileLines (f : File) : list Line := nonblank (lines f).

Definition hasSession (sessionId : string) (f : File) : bool :=
  js_some (line_of_session sessionId) (fileLines f).

Definition filteredLines (sessionId : string) (f : File) : list Line :=
  List.filter (fun ln => negb (line_of_session sessionId ln)) (fileLines f).

Definition emptyLine : Line := mkLine "" None.

(** The lines of the content
    [filteredLines.join('\n') + (filteredLines.length > 0 ? '\n' : '')]. *)
Definition written_lines (kept : list Line) : list Line := kept ++ [emptyLine].

(** [fs.writeFile(path, content)] at the time [now]: the file of that name
    gets the content. *)
Definition writeFile (now : Z) (name : string) (content : list Line)
    (files : list File) : list File :=
  List.map (fun f => if String.eqb (fileName f) name then mkFile name now content else f)
           files.

(** [deleteSession(projectName, sessionId)] at the time [now]: what the
    call does, and the directory it leaves. *)
Definition deleteSession (now : Z) (dir : option (list File)) (sessionId : string)
    : Outcome * option (list File) :=
  if startsWith sessionId "temp-" then (Returned true, dir)
  else
    match dir with
    | None => (Threw DirectoryMissing, dir)
    | Some files =>
        match jsonlFiles files with
        | [] => (Threw NoSessionFiles, dir)
        | _ :: _ =>
            match js_find (hasSession sessionId) (jsonlFiles files) with
            | Some f =>
                (Returned true,
                 Some (writeFile now (fileName f)
                                 (written_lines (filteredLines sessionId f)) files))
            | None => (Threw NotFoundInAnyFile, dir)
            end
        end
    end.

(** ** smartDecodeProjectName *)

(** [s.length > 1 && s[0] >= lo && s[0] <= hi]. *)
Definition word_from (lo hi : nat) (s : string) : bool :=
  match s with
  | String c (String _ _) => ((lo <=? nat_of_ascii c) && (nat_of_ascii c <=? hi))%nat
  | _ => false
  end.

(** A part of several characters that starts with a capital letter. *)
Definition capitalized (s : string) : bool := word_from 65 90 s.

(** A part of several characters that starts with a small letter. *)
Definition lowercase (s : string) : bool := word_from 97 122 s.

Fixpoint take_while {A : Type} (p : A -> bool) (l : list A) : list A :=
  match l with
  | [] => []
  | x :: l' => if p x then x :: take_while p l' else []
  end.

Fixpoint drop_while {A : Type} (p : A -> bool) (l : list A) : list A :=
  match l with
  | [] => []
  | x :: l' => if p x then drop_while p l' else l
  end.

(** What a run of capitalized parts adds to [result]: a single part as it
    is; otherwise all but the last two parts on their own, then the last
    two joined by a space. *)
Definition capitalized_result (capitalizedGroup : list string) : list string :=
  match capitalizedGroup with
  | [single] => [single]
  | _ =>
      let n := length capitalizedGroup in
      List.firstn (n - 2) capitalizedGroup ++ [join " " (List.skipn (n - 2) capitalizedGroup)]
  end.

(** The [while (i < segments.length)] loop, on the parts from [i] on; one
    unit of [fuel] for each turn. *)
Fixpoint decode_segments (fuel : nat) (segments : list string) : list string :=
  match fuel with
  | O => []
  | S fuel' =>
      match segments with
      | [] => []
      | segment :: rest =>
          if (String.length segment =? 1)%nat then
            segment :: decode_segments fuel' rest
          else if capitalized segment then
            capitalized_result (segment :: take_while capitalized rest)
            ++ decode_segments fuel' (drop_while capitalized rest)
          else
            join "-" (segment :: take_while lowercase rest)
            :: decode_segments fuel' (drop_while lowercase rest)
      end
  end.

Definition smartDecodeProjectName (projectName : string) : string :=
  let workingName :=
    if startsWith projectName "-"
    then String.substring 1 (String.length projectName - 1) projectName
    else projectName in
  let segments := split_on "-" workingName in
  "/" ++ join "/" (decode_segments (length segments) segments).

(** ** The project name that addProjectManually gives to a path *)

(** [s.replace(/\//g, '-')], for any two characters. *)
Fixpoint replace_char (from to : ascii) (s : string) : string :=
  match s with
  | EmptyString => EmptyString
  | String c s' => String (if Ascii.eqb c from then to else c) (replace_char from to s')
  end.

(** [s.replace(/\s+/g, '-')]; [inRun] tells that the character before was
    white space. *)
Fixpoint replace_space_runs (inRun : bool) (s : string) : string :=
  match s with
  | EmptyString => EmptyString
  | String c s' =>
      if is_space c then
        if inRun then replace_space_runs true s'
        else String "-" (replace_space_runs true s')
      else String c (replace_space_runs false s')
  end.

(** The lines of [addProjectManually] that make the name from
    [absolutePath]. *)
Definition encodeProjectName (absolutePath : string) : string :=
  let projectName :=
    if startsWith absolutePath "/"
    then String.substring 1 (String.length absolutePath - 1) absolutePath
    else absolutePath in
  "-" ++ replace_space_runs false (replace_char "/" "-" projectName).

(** ** extractProjectDirectory *)

(** An entry of [project-config.json]. *)
Record ProjectConfig := mkProjectConfig {
  cfg_displayName : option string;
  cfg_manuallyAdded : bool;
  cfg_originalPath : option string
}.

(** What the loop over the log entries keeps. *)
Record CwdScan := mkCwdScan {
  cwdCounts : list (string * Z);
  latestTimestamp : Z;
  latestCwd : option string
}.

(** One observation of a working directory [c] at the time [t]
    ([new Date(entry.timestamp || 0).getTime()]). *)
Definition observe (st : CwdScan) (ct : string * Z) : CwdScan :=
  let counts := obj_set (fst ct) (num_or (obj_get (fst ct) (cwdCounts st)) 0 + 1)%Z (cwdCounts st) in
  if Z.ltb (latestTimestamp st) (snd ct)
  then mkCwdScan counts (snd ct) (Some (fst ct))
  else mkCwdScan counts (latestTimestamp st) (latestCwd st).

(** The observations of a file: the entries with a truthy [cwd]. *)
Definition file_observations (f : File) : list (string * Z) :=
  List.flat_map
    (fun ln => match json ln with
               | Some e => match e_cwd e with
                           | Some c => if truthy c then [(c, entry_time e)] else []
                           | None => []
                           end
               | None => []
               end)
    (nonblank (lines f)).

Definition observations (files : list File) : list (string * Z) :=
  List.flat_map file_observations (jsonlFiles files).

Definition scan_cwds (files : list File) : CwdScan :=
  List.fold_left observe (observations files) (mkCwdScan [] 0 None).

(** [Math.max(...values)]. *)
Definition maxOf (values : list Z) : Z :=
  match values with
  | [] => 0%Z
  | v :: vs => List.fold_left Z.max vs v
  end.

(** The choice among the observed directories.  The count of the latest
    one is compared with a quarter of the greatest count; on integers
    [r >= m * 0.25] is [m <= 4 * r]. *)
Definition choose_cwd (projectName : string) (st : CwdScan) : string :=
  match cwdCounts st with
  | [] => smartDecodeProjectName projectName
  | [(c, _)] => c
  | _ :: _ :: _ =>
      let mostRecentCount :=
        match latestCwd st with
        | Some c => num_or (obj_get c (cwdCounts st)) 0
        | None => 0%Z
        end in
      let maxCount := maxOf (List.map snd (cwdCounts st)) in
      let extractedPath :=
        if Z.leb maxCount (4 * mostRecentCount) then latestCwd st
        else option_map fst (js_find (fun kv => Z.eqb (snd kv) maxCount) (cwdCounts st)) in
      match extractedPath with
      | Some p => p
      | None => match latestCwd st with
                | Some c => c
                | None => smartDecodeProjectName projectName
                end
      end
  end.

(** [config[projectName] && config[projectName].originalPath], when
    truthy. *)
Definition originalPathOf (config : list (string * ProjectConfig)) (projectName : string)
    : option string :=
  match obj_get projectName config with
  | Some c => match cfg_originalPath c with
              | Some p => if truthy p then Some p else None
              | None => None
              end
  | None => None
  end.

(** [extractProjectDirectory(projectName)]: the path, and the cache after
    the call.  [dir] is the directory of the project, [None] when it cannot
    be read. *)
Definition extractProjectDirectory (cache : list (string * string))
    (config : list (string * ProjectConfig)) (dir : option (list File))
    (projectName : string) : string * list (string * string) :=
  match obj_get projectName cache with
  | Some p => (p, cache)
  | None =>
      match originalPathOf config projectName with
      | Some p => (p, obj_set projectName p cache)
      | None =>
          let extractedPath :=
            match dir with
            | None => smartDecodeProjectName projectName
            | Some files =>
                match jsonlFiles files with
                | [] => smartDecodeProjectName projectName
                | _ :: _ => choose_cwd projectName (scan_cwds files)
                end
            end in
          (extractedPath, obj_set projectName extractedPath cache)
      end
  end.

(** ** getProjects *)

Record SessionMeta := mkSessionMeta {
  meta_hasMore : bool;
  meta_total : Z
}.

Record Project := mkProject {
  name : string;
  path : string;
  displayName : string;
  fullPath : string;
  isCustomName : bool;
  isManuallyAdded : bool;
  projectSessions : list Session;
  sessionMeta : option SessionMeta
}.

#[global] Instance SessionMeta_eq_dec : EqDecision SessionMeta.
Proof. solve_decision. Defined.
#[global] Instance Project_eq_dec : EqDecision Project.
Proof. solve_decision. Defined.

Definition with_sessions (l : list Session) (n : Z) (p : Project) : Project :=
  mkProject (name p) (path p) (displayName p) (fullPath p) (isCustomName p)
            (isManuallyAdded p) l (Some (mkSessionMeta false n)).

(** Project objects are shared between the list [projects] and the map
    [duplicateDetection], and a merge assigns to the [sessions] of the
    shared object: the objects live in a store, and the list and the map
    hold their addresses. *)
Record Listing := mkListing {
  store : list Project;
  projects : list nat;
  duplicateDetection : list (string * nat)
}.

Definition emptyListing : Listing := mkListing [] [] [].

(** The project objects of the list, in its order. *)
Definition listed (st : Listing) : list Project :=
  List.flat_map (fun r => match List.nth_error (store st) r with
                          | Some p => [p]
                          | None => []
                          end) (projects st).

Definition name_at (st : Listing) (n : string) (r : nat) : bool :=
  match List.nth_error (store st) r with
  | Some p => String.eqb (name p) n
  | None => false
  end.

(** [const i = projects.findIndex(p => p.name === n);
     if (i !== -1) projects.splice(i, 1)]. *)
Fixpoint remove_first (p : nat -> bool) (l : list nat) : list nat :=
  match l with
  | [] => []
  | r :: l' => if p r then l' else r :: remove_first p l'
  end.

(** [store[r] = p]. *)
Fixpoint store_set (r : nat) (p : Project) (s : list Project) : list Project :=
  match s, r with
  | [], _ => []
  | _ :: s', O => p :: s'
  | q :: s', S r' => q :: store_set r' p s'
  end.

Definition uniqueSessions (l : list Session) : list Session := uniqueBy id [] l.

Section GetProjects.
(** The calls of [getProjects] to the other functions of the module, for
    the state of the disk during the call: the path
    [extractProjectDirectory] resolves a name to, the result of
    [getSessions] with its default page, and the display name
    [generateDisplayName] derives from a name and a path. *)
Variable extracted : string -> string.
Variable sessionsOf : string -> SessionsResult.
Variable generatedName : string -> string -> string.
Variable config : list (string * ProjectConfig).

Definition manuallyAdded (n : string) : bool :=
  match obj_get n config with
  | Some c => cfg_manuallyAdded c
  | None => false
  end.

(** [config[n]?.displayName], when truthy. *)
Definition customName (n : string) : option string :=
  match obj_get n config with
  | Some c => match cfg_displayName c with
              | Some d => if truthy d then Some d else None
              | None => None
              end
  | None => None
  end.

(** The project object built for a name and its resolved directory. *)
Definition newProject (n actualProjectDir : string) (manual : bool) : Project :=
  mkProject n actualProjectDir
            (match customName n with
             | Some d => d
             | None => generatedName n actualProjectDir
             end)
            actualProjectDir
            (match customName n with Some _ => true | None => false end)
            manual [] None.

(** The duplicate detection, as both loops of [getProjects] run it on a
    project they have built. *)
Definition addProject (project : Project) (st : Listing) : Listing :=
  match obj_get (fullPath project) (duplicateDetection st) with
  | Some r =>
      match List.nth_error (store st) r with
      | Some existingProject =>
          if isManuallyAdded project && negb (isManuallyAdded existingProject) then
            let merged :=
              uniqueSessions (sessions (sessionsOf (name existingProject))
                              ++ sessions (sessionsOf (name project))) in
            let r' := length (store st) in
            mkListing
              (store st ++ [with_sessions merged (Z.of_nat (length merged)) project])
              (remove_first (name_at st (name existingProject)) (projects st) ++ [r'])
              (obj_set (fullPath project) r' (duplicateDetection st))
          else if negb (isManuallyAdded project) && isManuallyAdded existingProject then
            st
          else
            let merged :=
              uniqueSessions (projectSessions existingProject
                              ++ sessions (sessionsOf (name project))) in
            mkListing
              (store_set r (with_sessions merged (Z.of_nat (length merged)) existingProject)
                         (store st))
              (projects st) (duplicateDetection st)
      | None => st
      end
  | None =>
      let r' := length (store st) in
      let found := sessionsOf (name project) in
      mkListing
        (store st ++ [with_sessions (sessions found) (total found) project])
        (projects st ++ [r'])
        (obj_set (fullPath project) r' (duplicateDetection st))
  end.

(** The first loop: the directories of [~/.claude/projects], in the
    order of the listing ([isDirectory] with each name). *)
Definition addDirectory (st : Listing) (entry : string * bool) : Listing :=
  if snd entry
  then addProject (newProject (fst entry) (extracted (fst entry)) (manuallyAdded (fst entry))) st
  else st.

(** The second loop: the manually added projects of the configuration
    that have no directory. *)
Definition configuredPath (n : string) (c : ProjectConfig) : string :=
  match cfg_originalPath c with
  | Some p => if truthy p then p else extracted n
  | None => extracted n
  end.

Definition addConfigured (existingProjects : list string) (st : Listing)
    (kc : string * ProjectConfig) : Listing :=
  if negb (List.existsb (String.eqb (fst kc)) existingProjects) && cfg_manuallyAdded (snd kc)
  then addProject (newProject (fst kc) (configuredPath (fst kc) (snd kc)) true) st
  else st.

(** The last loop, the safeguard: a manually added project whose name is
    not in the list is pushed as it is. *)
Definition safeguardPath (n : string) (c : ProjectConfig) : string :=
  match cfg_originalPath c with
  | Some p => if truthy p then p else smartDecodeProjectName n
  | None => smartDecodeProjectName n
  end.

Definition addMissing (st : Listing) (kc : string * ProjectConfig) : Listing :=
  if cfg_manuallyAdded (snd kc)
     && negb (List.existsb (fun p => String.eqb (name p) (fst kc)) (listed st))
  then
    mkListing
      (store st ++ [with_sessions [] 0 (newProject (fst kc) (safeguardPath (fst kc) (snd kc)) true)])
      (projects st ++ [length (store st)])
      (duplicateDetection st)
  else st.

(** [getProjects()], for the listing [entries] of [~/.claude/projects]
    (empty when it cannot be read). *)
Definition getProjects (entries : list (string * bool)) : list Project :=
  let existingProjects := List.map fst (List.filter snd entries) in
  let st1 := List.fold_left addDirectory entries emptyListing in
  let st2 := List.fold_left (addConfigured existingProjects) config st1 in
  listed (List.fold_left addMissing config st2).
End GetProjects.

(** ** generateDisplayName *)

(** [packageName] gives the [name] of the [package.json] under a path,
    when there is one and it has a truthy name. *)
Definition generateDisplayName (packageName : string -> option string)
    (projectName actualProjectDir : string) : string :=
  let projectPath :=
    if truthy actualProjectDir then actualProjectDir
    else replace_char "-" "/" projectName in
  match packageName projectPath with
  | Some n => n
  | None =>
      if startsWith projectPath "/" then
        let parts := List.filter truthy (split_on "/" projectPath) in
        if (3 <? length parts)%nat
        then ".../" ++ join "/" (List.skipn (length parts - 2) parts)
        else projectPath
      else projectPath
  end.

(** ** getProjects on a disk

    The directory [~/.claude/projects]: each entry is a directory with its
    files, or something else ([None]).  The calls of [getProjects] are
    those of the functions above, [getSessions] with its default page of
    five sessions and [extractProjectDirectory] with an empty cache.  The
    removal of empty directories between the first two loops is left out:
    a directory it removes has no session, before and after. *)
Definition projectDir (disk : list (string * option (list File))) (projectName : string)
    : option (list File) :=
  match obj_get projectName disk with
  | Some (Some files) => Some files
  | _ => None
  end.

Definition getProjectsOnDisk (clock : string -> string -> nat -> Z)
    (packageName : string -> option string)
    (config : list (string * ProjectConfig))
    (disk : list (string * option (list File))) : list Project :=
  getProjects
    (fun n => fst (extractProjectDirectory [] config (projectDir disk n) n))
    (fun n => getSessions (clock n) (projectDir disk n) 5 0)
    (generateDisplayName packageName)
    config
    (List.map (fun e => (fst e, match snd e with Some _ => true | None => false end)) disk).

(** ** clearProjectDirectoryCache *)

Definition clearProjectDirectoryCache (cache : list (string * string)) : list (string * string) :=
  [].

(** ** isProjectEmpty *)

(** The loop over the log files that [isProjectEmpty] and
    [cleanupEmptyProjectDirectories] both run: it stops at the first file
    with a line that is not blank. *)
Fixpoint noContent (jsonl : list File) : bool :=
  match jsonl with
  | [] => true
  | f :: rest =>
      match fileLines f with
      | [] => noContent rest
      | _ :: _ => false
      end
  end.

(** [isProjectEmpty(projectName)] on the directory of the project, [None]
    when it does not exist. *)
Definition isProjectEmpty (dir : option (list File)) : bool :=
  match dir with
  | None => true
  | Some files => noContent (jsonlFiles files)
  end.

(** ** deleteAllSessions *)

Record DeleteAllResult := mkDeleteAllResult {
  success : bool;
  deletedCount : Z
}.

(** [fs.unlink(path)]: the file of that name goes; [None] when there is
    none, and the call throws. *)
Definition unlink (n : string) (files : list File) : option (list File) :=
  if js_some (fun g => String.eqb (fileName g) n) files
  then Some (List.filter (fun g => negb (String.eqb (fileName g) n)) files)
  else None.

(** One turn of the loop: [deletedCount] grows when the file is
    removed; a failure is logged and the loop goes on. *)
Definition unlinkNext (st : list File * Z) (file : File) : list File * Z :=
  match unlink (fileName file) (fst st) with
  | Some files' => (files', (snd st + 1)%Z)
  | None => st
  end.

(** [deleteAllSessions(projectName)]: the result, and the directory it
    leaves. *)
Definition deleteAllSessions (dir : option (list File))
    : DeleteAllResult * option (list File) :=
  match dir with
  | None => (mkDeleteAllResult true 0%Z, None)
  | Some files =>
      match jsonlFiles files with
      | [] => (mkDeleteAllResult true 0%Z, dir)
      | _ :: _ =>
          let st := List.fold_left unlinkNext (jsonlFiles files) (files, 0%Z) in
          (mkDeleteAllResult true (snd st), Some (fst st))
      end
  end.

(** ** truncateSessionMessages *)

(** [sessionLines.map(item => item.index)]: the places, among the lines
    kept in [allLines], of the parsed entries of the session. *)
Fixpoint sessionIndices (sessionId : string) (i : nat) (allLines : list Line) : list nat :=
  match allLines with
  | [] => []
  | ln :: rest =>
      if line_of_session sessionId ln
      then i :: sessionIndices sessionId (S i) rest
      else sessionIndices sessionId (S i) rest
  end.

(** [allLines.filter((_, index) => !indicesToRemove.includes(index))],
    from the place [i] on. *)
Fixpoint withoutIndices (indicesToRemove : list nat) (i : nat) (allLines : list Line)
    : list Line :=
  match allLines with
  | [] => []
  | ln :: rest =>
      if List.existsb (Nat.eqb i) indicesToRemove
      then withoutIndices indicesToRemove (S i) rest
      else ln :: withoutIndices indicesToRemove (S i) rest
  end.

(** What the loop does with one file: [None] when it leaves the file
    alone, otherwise the lines it writes and the number of entries it
    removes. *)
Definition truncateFile (sessionId : string) (targetMessageCount : Z) (f : File)
    : option (list Line * Z) :=
  let allLines := nonblank (lines f) in
  let sessionLines := sessionIndices sessionId 0 allLines in
  let sessionMessageCount := Z.of_nat (length sessionLines) in
  if (0 <? length sessionLines)%nat && Z.ltb targetMessageCount sessionMessageCount then
    let indicesToRemove :=
      js_slice targetMessageCount sessionMessageCount sessionLines in
    Some (withoutIndices indicesToRemove 0 allLines, Z.of_nat (length indicesToRemove))
  else None.

(** [fs.writeFile(tempFile, content)] and [fs.rename(tempFile, jsonlFile)]:
    the file gets the content, and nothing is left under the name of the
    temporary file. *)
Definition replaceFile (now : Z) (n : string) (content : list Line) (files : list File)
    : list File :=
  writeFile now n content
            (List.filter (fun g => negb (String.eqb (fileName g) (n ++ ".tmp"))) files).

Record TruncateResult := mkTruncateResult {
  truncated : Z;
  filesModified : Z;
  remainingMessages : option Z
}.

Record TruncateState := mkTruncateState {
  t_files : list File;
  totalTruncated : Z;
  t_filesModified : Z
}.

(** One turn of the loop over the log files, for the file of the name
    [n] as it is at that time; [clock n] is the time of the writing. *)
Definition truncateNext (clock : string -> Z) (sessionId : string) (targetMessageCount : Z)
    (st : TruncateState) (n : string) : TruncateState :=
  match js_find (fun g => String.eqb (fileName g) n) (t_files st) with
  | Some f =>
      match truncateFile sessionId targetMessageCount f with
      | Some (newLines, removedCount) =>
          mkTruncateState (replaceFile (clock n) n (written_lines newLines) (t_files st))
                          (totalTruncated st + removedCount)%Z
                          (t_filesModified st + 1)%Z
      | None => st
      end
  | None => st
  end.

(** [truncateSessionMessages(projectName, sessionId, checkpointId,
    targetMessageCount)]: the result, [None] when it throws for a missing
    directory, and the directory it leaves. *)
Definition truncateSessionMessages (clock : string -> Z) (dir : option (list File))
    (sessionId : string) (targetMessageCount : Z)
    : option TruncateResult * option (list File) :=
  match dir with
  | None => (None, None)
  | Some files =>
      match jsonlFiles files with
      | [] => (Some (mkTruncateResult 0%Z 0%Z None), dir)
      | _ :: _ =>
          let st :=
            List.fold_left (truncateNext clock sessionId targetMessageCount)
                           (List.map fileName (jsonlFiles files))
                           (mkTruncateState files 0%Z 0%Z) in
          (Some (mkTruncateResult (totalTruncated st) (t_filesModified st)
                                  (Some targetMessageCount)),
           Some (t_files st))
      end
  end.

(** ** cleanupEmptyProjectDirectories *)

(** The directory [~/.claude/projects]: the entries of its listing, each
    a directory with its files or something else ([None]). *)
Definition Disk : Type := list (string * option (list File)).

(** [fs.rm(projectDir, { recursive: true, force: true })]. *)
Definition rm (n : string) (disk : Disk) : Disk :=
  List.filter (fun e => negb (String.eqb (fst e) n)) disk.

(** The loop over the configuration that sets [shouldKeep]. *)
Definition shouldKeep (config : list (string * ProjectConfig)) (entryName : string) : bool :=
  js_some (fun kc => cfg_manuallyAdded (snd kc) && String.eqb (fst kc) entryName) config.

(** One turn of the loop over the entries; the directory is read as it is
    at that time, and a directory that cannot be read is skipped. *)
Definition cleanupNext (config : list (string * ProjectConfig)) (disk : Disk)
    (entry : string * option (list File)) : Disk :=
  match snd entry with
  | Some _ =>
      match projectDir disk (fst entry) with
      | Some files =>
          let isEmpty := noContent (jsonlFiles files) in
          if isEmpty && startsWith (fst entry) "-" then
            if shouldKeep config (fst entry) then disk else rm (fst entry) disk
          else disk
      | None => disk
      end
  | None => disk
  end.

Definition cleanupEmptyProjectDirectories (config : list (string * ProjectConfig))
    (disk : Disk) : Disk :=
  List.fold_left (cleanupNext config) disk disk.

(** ** renameProject *)

(** [s.trim()]. *)
Fixpoint trimStart (s : string) : string :=
  match s with
  | EmptyString => EmptyString
  | String c s' => if is_space c then trimStart s' else s
  end.

Fixpoint trimEnd (s : string) : string :=
  match s with
  | EmptyString => EmptyString
  | String c s' =>
      match trimEnd s' with
      | EmptyString => if is_space c then EmptyString else String c EmptyString
      | String c' t => String c (String c' t)
      end
  end.

Definition trim (s : string) : string := trimEnd (trimStart s).

(** An entry of [project-config.json] as the object it is: each of the
    fields that this module reads and writes, there or not, and the names
    of its other keys. *)
Record ConfigObject := mkConfigObject {
  co_displayName : option string;
  co_manuallyAdded : option bool;
  co_originalPath : option string;
  co_otherKeys : list string
}.

(** What the readers of the configuration see of an entry. *)
Definition readConfig (c : ConfigObject) : ProjectConfig :=
  mkProjectConfig (co_displayName c)
                  (match co_manuallyAdded c with Some b => b | None => false end)
                  (co_originalPath c).

Definition readAll (config : list (string * ConfigObject)) : list (string * ProjectConfig) :=
  List.map (fun kc => (fst kc, readConfig (snd kc))) config.

(** [Object.keys(c).length === 0]. *)
Definition noKeys (c : ConfigObject) : bool :=
  match co_displayName c, co_manuallyAdded c, co_originalPath c, co_otherKeys c with
  | None, None, None, [] => true
  | _, _, _, _ => false
  end.

Definition withDisplayName (d : option string) (c : ConfigObject) : ConfigObject :=
  mkConfigObject d (co_manuallyAdded c) (co_originalPath c) (co_otherKeys c).

(** [renameProject(projectName, newDisplayName)]: the configuration it
    saves.  It returns [true] in every case. *)
Definition renameProject (config : list (string * ConfigObject)) (projectName : string)
    (newDisplayName : option string) : list (string * ConfigObject) :=
  let blank :=
    match newDisplayName with
    | Some d => negb (truthy d) || String.eqb (trim d) ""
    | None => true
    end in
  if blank then
    match obj_get projectName config with
    | Some c =>
        let c' := withDisplayName None c in
        if noKeys c' then obj_delete projectName config
        else obj_set projectName c' config
    | None => config
    end
  else
    let c :=
      match obj_get projectName config with
      | Some c => c
      | None => mkConfigObject None None None []
      end in
    obj_set projectName
            (withDisplayName (Some (trim (match newDisplayName with
                                          | Some d => d
                                          | None => ""
                                          end))) c)
            config.

(** ** getProjects, with the directories it removes

    [getProjects()] as it runs: the first loop on the disk as it finds
    it, then [cleanupEmptyProjectDirectories()], then the other two loops
    on the disk that is left. *)
Definition extractedOn (config : list (string * ProjectConfig)) (disk : Disk) (n : string)
    : string :=
  fst (extractProjectDirectory [] config (projectDir disk n) n).

Definition sessionsOn (clock : string -> string -> nat -> Z) (disk : Disk) (n : string)
    : SessionsResult :=
  getSessions (clock n) (projectDir disk n) 5 0.

Definition directoryEntries (disk : Disk) : list (string * bool) :=
  List.map (fun e => (fst e, match snd e with Some _ => true | None => false end)) disk.

Definition getProjectsCleaning (clock : string -> string -> nat -> Z)
    (packageName : string -> option string)
    (config : list (string * ProjectConfig)) (disk : Disk) : list Project * Disk :=
  let entries := directoryEntries disk in
  let existingProjects := List.map fst (List.filter snd entries) in
  let generatedName := generateDisplayName packageName in
  let st1 :=
    List.fold_left
      (addDirectory (extractedOn config disk) (sessionsOn clock disk) generatedName config)
      entries emptyListing in
  let disk' := cleanupEmptyProjectDirectories config disk in
  let st2 :=
    List.fold_left
      (addConfigured (extractedOn config disk') (sessionsOn clock disk') generatedName config
                     existingProjects)
      config st1 in
  (listed (List.fold_left (addMissing generatedName config) config st2), disk').

(** ** addProjectManually *)

Inductive AddError :=
| PathDoesNotExist
| ProjectAlreadyExists
| AlreadyConfiguredAs (existing : string)
| AlreadyConfigured
| ProjectNameConflict.

(** [fs.mkdir(projectDir, { recursive: true })]: nothing happens when the
    name is taken; a new directory shows at some place [pos] of the
    listing. *)
Definition mkdir (pos : nat) (n : string) (disk : Disk) : Disk :=
  match obj_get n disk with
  | Some _ => disk
  | None => List.firstn pos disk ++ (n, Some []) :: List.skipn pos disk
  end.

(** The end of [addProjectManually], from the check of the configuration
    on. *)
Definition addToConfig (packageName : string -> option string) (pos : nat)
    (config : list (string * ConfigObject)) (disk : Disk)
    (projectName absolutePath : string) (customDisplayName : option string)
    : (AddError + Project) * list (string * ConfigObject) * Disk :=
  match obj_get projectName config with
  | Some c =>
      if bool_decide (co_originalPath c = Some absolutePath)
      then (inl AlreadyConfigured, config, disk)
      else (inl ProjectNameConflict, config, disk)
  | None =>
      let shown :=
        match customDisplayName with
        | Some d => if truthy d then Some d else None
        | None => None
        end in
      (inr (mkProject projectName absolutePath
              (match shown with
               | Some d => d
               | None => generateDisplayName packageName projectName absolutePath
               end)
              absolutePath false true [] None),
       obj_set projectName (mkConfigObject shown (Some true) (Some absolutePath) []) config,
       mkdir pos projectName disk)
  end.

(** [addProjectManually(projectPath, displayName)] for the resolved path
    [absolutePath]: what it returns or throws, and the configuration and
    the disk it leaves.  [pathExists] tells which paths [fs.access]
    finds. *)
Definition addProjectManually (clock : string -> string -> nat -> Z)
    (packageName : string -> option string) (pathExists : string -> bool) (pos : nat)
    (config : list (string * ConfigObject)) (disk : Disk)
    (absolutePath : string) (customDisplayName : option string)
    : (AddError + Project) * list (string * ConfigObject) * Disk :=
  if negb (pathExists absolutePath) then (inl PathDoesNotExist, config, disk)
  else
    let projectName := encodeProjectName absolutePath in
    match obj_get projectName disk with
    | Some _ => (inl ProjectAlreadyExists, config, disk)
    | None =>
        let listing := getProjectsCleaning clock packageName (readAll config) disk in
        let existingProjects := fst listing in
        let duplicateProject :=
          js_find (fun project => String.eqb (path project) absolutePath
                                  || String.eqb (fullPath project) absolutePath)
                  existingProjects in
        match duplicateProject with
        | Some d =>
            if isManuallyAdded d
            then (inl (AlreadyConfiguredAs (displayName d)), config, snd listing)
            else addToConfig packageName pos config (snd listing)
                             projectName absolutePath customDisplayName
        | None =>
            addToConfig packageName pos config (snd listing)
                        projectName absolutePath customDisplayName
        end
    end.

(** ** deleteProject *)

Inductive Thrown :=
| ReferenceError (identifier : string).

(** The files of a directory become [files]. *)
Definition setDir (n : string) (files : option (list File)) (disk : Disk) : Disk :=
  List.map (fun e => if String.eqb (fst e) n then (n, files) else e) disk.

(** [deleteProject(projectName)]: the session files are deleted and the
    directory is removed; then [delete config[projectName]] is evaluated,
    in a function and a module that declare no [config], which throws
    before the configuration is loaded or saved; the error is logged and
    thrown again.  The checkpoints that [clearProjectCheckpoints] clears
    are kept elsewhere. *)
Definition deleteProject (disk : Disk) (projectName : string) : (Thrown + bool) * Disk :=
  let disk1 :=
    match projectDir disk projectName with
    | Some files => setDir projectName (snd (deleteAllSessions (Some files))) disk
    | None => disk
    end in
  (inl (ReferenceError "config"), rm projectName disk1).

End Projects.

(** * The vocabulary of the properties *)

Section ClientVocabulary.
Import App.

(** A project without sessions, and the state in which it is selected
    and nothing else has happened. *)
Definition demo : Project :=
  mkProject "demo" "/work/demo" "demo" "/work/demo" false false [] None.

Definition state0 : AppState :=
  mkAppState [demo] (Some demo) None ∅ ∅ [].

(** A placeholder session as [handleNewSession] builds it. *)
Definition tempSession : Session :=
  mkSession "temp-1700000000000-k3j9x0q1z" (Some "New Conversation")
            (Some "New Conversation") None None None None None true.

(** The entries of a session list that stand for the conversation: those
    under the real or under the placeholder identity. *)
Definition conversation_entries (R P : string) (l : list Session) : nat :=
  length (List.filter (fun x => String.eqb (id x) R || String.eqb (id x) P) l).

Definition realSession (t : string) : Session :=
  mkSession "abc-real" (Some t) (Some t) None None None None None false.

Definition demoWith (l : list Session) : Project := with_sessions l demo.

(** [demo] holds the session [abc-real], selected, titled "fix bug"; the
    snapshot holds it under the title "fix the bug". *)
Definition protectedState (selProject : option Project) (active : gset string) : AppState :=
  mkAppState [demoWith [realSession "fix bug"]] selProject
             (Some (realSession "fix bug")) active ∅ [].

Definition snapshot : list Project := [demoWith [realSession "fix the bug"]].

(** What [addPlaceholderSessions] does to one project. *)
Definition with_placeholders (valid : list (string * PlaceholderData)) (p : Project) : Project :=
  match projectPlaceholders valid p with
  | [] => p
  | ph =>
      with_sessions_meta (ph ++ sessions p)
        (meta_with_total p (meta_total p + Z.of_nat (length ph))) p
  end.

End ClientVocabulary.

Section ServerVocabulary.
Import Projects.

(** Every binding of a session map is filed under the identity of its
    session. *)
Definition keyed (o : list (string * Session)) : Prop :=
  forall k s, In (k, s) o -> id s = k.

(** One step of the merge of [getSessions]: the first record of an
    identity stays. *)
Definition merge_step (acc : list (string * Session)) (ses : Session) :=
  match obj_get (id ses) acc with
  | Some _ => acc
  | None => obj_set (id ses) ses acc
  end.

(** The files of a directory in the order [getSessions] scans them. *)
Definition scan_order (dir : option (list File)) : list File :=
  match dir with
  | Some files => js_sort byMtime (jsonlFiles files)
  | None => []
  end.

(** A user entry of a session, and the line of a log that holds it. *)
Definition entryOf (sid : string) (t : Z) (text : string) : Entry :=
  mkEntry (Some sid) (Some "/work/demo") (Some t) (Some "user") None (Some "user")
          (Some (TextContent text)) "".

Definition lineOf (sid : string) (t : Z) (text : string) : Line :=
  mkLine ("{entry " ++ sid ++ " " ++ text ++ "}") (Some (entryOf sid t text)).

(** Two log files of a project; both hold entries of the session [s1]. *)
Definition logA : File :=
  mkFile "a.jsonl" 100
         [lineOf "s2" 10 "other"; mkLine "  " None; mkLine "{broken" None;
          lineOf "s1" 30 "hello"; emptyLine].

Definition logB : File :=
  mkFile "b.jsonl" 200 [lineOf "s1" 20 "again"; emptyLine].

Definition demoDir : list File := [logA; mkFile "notes.txt" 5 [emptyLine]; logB].

(** The lines of a file that [deleteSession] writes back: those that are
    not blank and are not parsed entries of the session, in their
    order. *)
Definition kept_lines (sessionId : string) (f : File) : list Line :=
  List.filter (fun ln => negb (is_blank (raw ln)) && negb (line_of_session sessionId ln))
              (lines f).

(** The project that the store of a listing holds at an address. *)
Definition at_ref (st : Listing) (r : nat) : option Project := List.nth_error (store st) r.

(** The project [q] kept for the path [X] has the name and the kind of a
    candidate [c] of that path; the candidates of the path before [c] are
    auto-discovered and [c] is manually added, or there is none; and if a
    candidate of the path after [c] is manually added, so is [c]. *)
Definition from_candidate (X : string) (cands : list Project) (q : Project) : Prop :=
  exists pre c post,
    cands = pre ++ c :: post
    /\ fullPath c = X /\ fullPath q = X /\ name q = name c
    /\ isManuallyAdded q = isManuallyAdded c
    /\ (forall c', In c' pre -> fullPath c' = X ->
          isManuallyAdded c' = false /\ isManuallyAdded c = true)
    /\ (forall c', In c' post -> fullPath c' = X ->
          isManuallyAdded c' = true -> isManuallyAdded c = true).

(** No two manually added candidates resolve to the same path. *)
Definition manual_paths_distinct (cands : list Project) : Prop :=
  forall p q, In p cands -> In q cands ->
              isManuallyAdded p = true -> isManuallyAdded q = true ->
              fullPath p = fullPath q -> name p = name q.

Definition noClock : string -> string -> nat -> Z := fun _ _ _ => 0%Z.

Definition noPackage : string -> option string := fun _ => None.

(** The directory that the assistant made for [/srv/c++], with one
    session, and the project added by hand for the same path, whose name
    keeps the plus signs. *)
Definition autoLog : File :=
  mkFile "s1.jsonl" 100%Z
         [mkLine "{entry s1}"
                 (Some (mkEntry (Some "s1") (Some "/srv/c++") (Some 1000%Z) (Some "user") None
                                (Some "user") (Some (TextContent "build it")) ""));
          emptyLine].

Definition handConfig : list (string * ProjectConfig) :=
  [("-srv-c++", mkProjectConfig None true (Some "/srv/c++"))].

Definition handFirst : list (string * option (list File)) :=
  [("-srv-c++", Some []); ("-srv-c--", Some [autoLog])].

Definition autoFirst : list (string * option (list File)) :=
  [("-srv-c--", Some [autoLog]); ("-srv-c++", Some [])].

(** Two entries added by hand that name the same path. *)
Definition twiceConfig : list (string * ProjectConfig) :=
  [("-srv-app", mkProjectConfig None true (Some "/srv/app"));
   ("srv-app", mkProjectConfig None true (Some "/srv/app"))].

Definition outline (p : Project) : string * string * bool * list string :=
  (name p, fullPath p, isManuallyAdded p, List.map id (projectSessions p)).

End ServerVocabulary.

Section NameVocabulary.
Import Projects.
#[local] Open Scope string_scope.

(** A text without a slash and without white space. *)
Fixpoint clean (s : string) : bool :=
  match s with
  | EmptyString => true
  | String c s' => negb (is_space c) && negb (Ascii.eqb c "/") && clean s'
  end.

(** Each element behind a separator: [sep ++ x1 ++ sep ++ x2 ++ ...]. *)
Fixpoint prefixed (sep : string) (l : list string) : string :=
  match l with
  | [] => ""
  | x :: l' => sep ++ x ++ prefixed sep l'
  end.

(** The normal form that the encoding gives a decoded path: slashes to
    hyphens, then runs of white space to hyphens. *)
Definition hyphenated (s : string) : string :=
  replace_space_runs false (replace_char "/" "-" s).

End NameVocabulary.

Section DirectoryVocabulary.
Import Projects.
#[local] Open Scope Z_scope.

(** A log in which [/srv/old] is observed seven times and [/srv/new],
    the latest, twice. *)
Definition cwdLine (c : string) (t : Z) : Line :=
  mkLine ("{cwd " ++ c ++ "}")%string
         (Some (mkEntry (Some "s1") (Some c) (Some t) (Some "user") None None None "")).

Definition cwdLog : File :=
  mkFile "s1.jsonl" 100
         [cwdLine "/srv/old" 1; cwdLine "/srv/old" 2; cwdLine "/srv/old" 3;
          cwdLine "/srv/old" 4; cwdLine "/srv/old" 5; cwdLine "/srv/old" 6;
          cwdLine "/srv/old" 7; cwdLine "/srv/new" 8; cwdLine "/srv/new" 9; emptyLine].

(** The number of observations of a directory. *)
Definition occurrences (obs : list (string * Z)) (c : string) : Z :=
  Z.of_nat (count_occ string_dec (List.map fst obs) c).

(** The latest observation: the first one with the greatest time, when
    that is after time 0; none when no time is. *)
Definition latest_observed (obs : list (string * Z)) (lc : option string) : Prop :=
  match lc with
  | Some c =>
      exists pre t post,
        obs = (pre ++ (c, t) :: post)%list /\ 0 < t
        /\ Forall (fun o => snd o < t) pre /\ Forall (fun o => snd o <= t) post
  | None => Forall (fun o => snd o <= 0) obs
  end.

(** What the scan keeps true of the observations seen so far. *)
Definition scan_ok (st : CwdScan) (seen : list (string * Z)) : Prop :=
  List.NoDup (List.map fst (cwdCounts st))
  /\ (forall c, obj_get c (cwdCounts st) =
                if occurrences seen c =? 0 then None else Some (occurrences seen c))
  /\ 0 <= latestTimestamp st
  /\ Forall (fun o => snd o <= latestTimestamp st) seen
  /\ match latestCwd st with
     | Some c =>
         exists pre post,
           seen = (pre ++ (c, latestTimestamp st) :: post)%list
           /\ 0 < latestTimestamp st
           /\ Forall (fun o => snd o < latestTimestamp st) pre
     | None => latestTimestamp st = 0
     end.

End DirectoryVocabulary.

Section ScanVocabulary.
Import Projects.

Variable clock : string -> nat -> Z.

(** The sessions that [getSessions] reads from one file. *)
Definition parsed (f : File) : list Session := parseJsonlSessions (clock (fileName f)) f.

(** [s] is the record of its identity in the first file of [L] that has
    one. *)
Definition first_record (L : list File) (s : Session) : Prop :=
  exists pre f post,
    L = pre ++ f :: post /\ In s (parsed f)
    /\ forall g, In g pre -> ~ In (id s) (List.map id (parsed g)).

(** What the loop over the files keeps true: one binding for each
    identity, each the first record of its identity among the files
    scanned, and no identity of a scanned file left out. *)
Definition scan_inv (allS : list (string * Session)) (scanned : list File) : Prop :=
  List.NoDup (List.map fst allS) /\ keyed allS
  /\ (forall k s, In (k, s) allS -> first_record scanned s)
  /\ (forall g s, In g scanned -> In s (parsed g) -> In (id s) (List.map fst allS)).

End ScanVocabulary.

Section ListingVocabulary.
Import Projects.

Variable extracted : string -> string.
Variable sessionsOf : string -> SessionsResult.
Variable generatedName : string -> string -> string.
Variable config : list (string * ProjectConfig).

(** The projects that the first two loops of [getProjects] build, in the
    order in which they meet the duplicate detection: one for each
    directory, then one for each manually added entry of the configuration
    without a directory. *)
Definition dirCandidates (entries : list (string * bool)) : list Project :=
  List.map (fun e => newProject generatedName config (fst e) (extracted (fst e))
                                (manuallyAdded config (fst e)))
           (List.filter snd entries).

Definition cfgCandidates (entries : list (string * bool)) : list Project :=
  List.map (fun kc => newProject generatedName config (fst kc)
                                 (configuredPath extracted (fst kc) (snd kc)) true)
           (List.filter
              (fun kc => negb (List.existsb (String.eqb (fst kc))
                                            (List.map fst (List.filter snd entries)))
                         && cfg_manuallyAdded (snd kc))
              config).

Definition candidates (entries : list (string * bool)) : list Project :=
  dirCandidates entries ++ cfgCandidates entries.

Definition addAll (cands : list Project) (st : Listing) : Listing :=
  List.fold_left (fun st p => addProject sessionsOf p st) cands st.

(** ** The project kept for a path

    What the duplicate detection makes of the candidates of one path,
    taken in their order. *)
Definition keep (rep : option Project) (project : Project) : option Project :=
  match rep with
  | None =>
      Some (with_sessions (sessions (sessionsOf (name project)))
                          (total (sessionsOf (name project))) project)
  | Some existingProject =>
      if isManuallyAdded project && negb (isManuallyAdded existingProject) then
        let merged := uniqueSessions (sessions (sessionsOf (name existingProject))
                                      ++ sessions (sessionsOf (name project))) in
        Some (with_sessions merged (Z.of_nat (length merged)) project)
      else if negb (isManuallyAdded project) && isManuallyAdded existingProject then
        Some existingProject
      else
        let merged := uniqueSessions (projectSessions existingProject
                                      ++ sessions (sessionsOf (name project))) in
        Some (with_sessions merged (Z.of_nat (length merged)) existingProject)
  end.

Definition keep_at (X : string) (rep : option Project) (p : Project) : option Project :=
  if String.eqb (fullPath p) X then keep rep p else rep.

Definition kept (X : string) (cands : list Project) : option Project :=
  List.fold_left (keep_at X) cands None.

(** ** What the duplicate detection keeps true

    After the candidates [done]: the list holds each address once; each
    listed project is the one that the map holds for its path, and bears
    the name of a candidate; the map holds, for each path, the address of
    the project kept for it, listed; and no two listed projects bear the
    same name. *)
Definition listing_ok (st : Listing) (done : list Project) : Prop :=
  List.NoDup (projects st)
  /\ (forall r, In r (projects st) ->
        exists p, at_ref st r = Some p
                  /\ obj_get (fullPath p) (duplicateDetection st) = Some r
                  /\ In (name p) (List.map name done))
  /\ (forall X r, obj_get X (duplicateDetection st) = Some r ->
        In r (projects st)
        /\ exists p, at_ref st r = Some p /\ fullPath p = X /\ kept X done = Some p)
  /\ (forall X, obj_get X (duplicateDetection st) = None -> kept X done = None)
  /\ (forall r1 r2 p1 p2,
        In r1 (projects st) -> In r2 (projects st) ->
        at_ref st r1 = Some p1 -> at_ref st r2 = Some p2 ->
        name p1 = name p2 -> r1 = r2).

End ListingVocabulary.

Section ServerExamples.
Import Projects.

(** A directory whose only log file holds blank lines. *)
Definition blankLog : File := mkFile "old.jsonl" 7 [mkLine "  " None; emptyLine].

Definition blankDir : list File := [blankLog; mkFile "notes.txt" 5 [emptyLine]].

(** What [cleanupEmptyProjectDirectories] removes: a directory without a
    non-blank line in a log file, whose name starts with a hyphen and is
    not that of a manually added project of the configuration. *)
Definition removable (config : list (string * ProjectConfig))
    (entry : string * option (list File)) : bool :=
  match snd entry with
  | Some files =>
      noContent (jsonlFiles files) && startsWith (fst entry) "-"
      && negb (shouldKeep config (fst entry))
  | None => false
  end.

(** A disk with the directory of a conversation, two empty directories,
    one of them of a project added by hand, and a plain file. *)
Definition smallDisk : Disk :=
  [("-work-demo", Some demoDir); ("-work-old", Some blankDir);
   ("-work-kept", Some []); ("README", None)].

Definition keptConfig : list (string * ProjectConfig) :=
  [("-work-kept", mkProjectConfig None true (Some "/work/kept"))].

(** The path of a project to add by hand, found on the machine. *)
Definition onlyDemoPath (p : string) : bool := String.eqb p "/work/demo app".



(** The project [/work/demo app], added by hand on [smallDisk] with an
    empty configuration. *)
Definition demoApp : Project :=
  mkProject "-work-demo-app" "/work/demo app" "/work/demo app" "/work/demo app"
            false true [] None.

Definition demoAppConfig : list (string * ConfigObject) :=
  [("-work-demo-app", mkConfigObject None (Some true) (Some "/work/demo app") [])].

Definition demoAppDisk : Disk :=
  [("-work-demo-app", Some []); ("-work-demo", Some demoDir); ("README", None)].

(** The lines of a log without the entries of a session after its first
    [k] ones. *)
Fixpoint keepFirst (sessionId : string) (k : nat) (l : list Line) : list Line :=
  match l with
  | [] => []
  | ln :: rest =>
      if line_of_session sessionId ln then
        match k with
        | O => keepFirst sessionId O rest
        | S k' => ln :: keepFirst sessionId k' rest
        end
      else ln :: keepFirst sessionId k rest
  end.

(** The number of entries of a session in a file. *)
Definition sessionCount (sessionId : string) (f : File) : Z :=
  Z.of_nat (length (session_entries sessionId f)).

(** A log file after the truncation of a session to [target] messages:
    as it was when it holds no more than that, otherwise rewritten
    without its blank lines and without the later entries of the
    session. *)
Definition truncatedFile (clock : string -> Z) (sessionId : string) (target : Z) (f : File)
    : File :=
  if Z.ltb target (sessionCount sessionId f)
  then mkFile (fileName f) (clock (fileName f))
              (written_lines (keepFirst sessionId (Z.to_nat target) (nonblank (lines f))))
  else f.

(** The number of entries that the truncation takes from a file. *)
Definition removedCount (sessionId : string) (target : Z) (f : File) : Z :=
  Z.max 0 (sessionCount sessionId f - target).

Definition sumZ (l : list Z) : Z := List.fold_right Z.add 0%Z l.

(** The number of entries of a session among some lines of a log. *)
Definition entryCount (sessionId : string) (l : list Line) : Z :=
  sessionCount sessionId (mkFile "" 0 l).

(** What the loop of [parseJsonlSessions] keeps true of the sessions it
    holds after the lines [seen]: a session is held for its identity,
    which is not empty, as soon as an entry bears it, and counts the
    entries that do. *)
Definition counted (o : list (string * Session)) (seen : list Line) : Prop :=
  forall sid,
    match obj_get sid o with
    | Some ses => messageCount ses = entryCount sid seen /\ truthy sid = true
                  /\ (1 <= messageCount ses)%Z
    | None => truthy sid = true -> entryCount sid seen = 0%Z
    end.

Definition noSession : Session := mkSession "" "" 0 0 "".

(** The first session read from [logA], and the first one of the first
    page of [demoDir]. *)
Definition parsedFirst : Session :=
  List.hd noSession (parseJsonlSessions (noClock "" "") logA).

Definition listedFirst : Session :=
  List.hd noSession (sessions (getSessions (noClock "") (Some demoDir) 5 0)).

End ServerExamples.

Section ClientExamples.
Import App.

(** A state in which the placeholder [tempSession] of [demo] is shown
    and recorded in the registry. *)
Definition tempRecord : PlaceholderData :=
  mkPlaceholderData tempSession "demo" 1700000000000 false None.

Definition tempState : AppState :=
  mkAppState [demoWith [tempSession]] (Some (demoWith [tempSession])) (Some tempSession)
             {[ id tempSession ]} ∅ [(id tempSession, tempRecord)].


(** Two session lists that agree but for the sessions of the activity:
    the same identities in the same order, and every session of another
    identity as it was. *)
Definition sameButFor (a : ActivityData) (l' l : list Session) : Prop :=
  Forall2 (fun x' x => id x' = id x /\ (a_sessionId a <> Some (id x) -> x' = x)) l' l.

(** The marker of a conversation that has no session yet. *)
Definition newMarker : string := "new-session-1700000000000".

End ClientExamples.

(** * Properties of the client *)

Section ObjFacts.
Context {V : Type}.

Lemma obj_get_delete (k : string) (o : list (string * V)) :
  obj_get k (obj_delete k o) = None.
Proof.
  induction o as [|[k' v] o IH]; simpl; [reflexivity|].
  destruct (String.eqb k k') eqn:E; simpl; [exact IH|].
  rewrite E. exact IH.
Qed.

Lemma obj_delete_absent (k : string) (o : list (string * V)) :
  obj_get k o = None -> obj_delete k o = o.
Proof.
  unfold obj_delete. induction o as [|[k' v] o IH]; simpl; [reflexivity|].
  destruct (String.eqb k k') eqn:E; simpl; [discriminate|].
  intros H. now rewrite IH.
Qed.

(** The registry after [replacePlaceholderSession] cleaned it. *)
Lemma obj_get_cleaned (k : string) (o : list (string * V)) :
  obj_get k (match obj_get k o with Some _ => obj_delete k o | None => o end) = None.
Proof.
  destruct (obj_get k o) eqn:E; [apply obj_get_delete | exact E].
Qed.
End ObjFacts.

Lemma startsWith_app (pre rest : string) : startsWith (pre ++ rest) pre = true.
Proof.
  unfold startsWith. induction pre as [|c pre IH]; simpl.
  - now destruct rest.
  - rewrite IH. now destruct (ascii_dec c c).
Qed.

Section AppFacts.
Import App.

Lemma placeholderId_temp (stamp rnd : string) :
  startsWith (placeholderId stamp rnd) "temp-" = true.
Proof. unfold placeholderId. apply startsWith_app. Qed.

Lemma placeholderId_truthy (stamp rnd : string) :
  truthy (placeholderId stamp rnd) = true.
Proof. reflexivity. Qed.

Lemma eqb_id_false (a b : string) : a <> b -> String.eqb a b = false.
Proof. intros H. now apply String.eqb_neq. Qed.

(** After the substitution no entry of the list carries the placeholder
    identity. *)
Lemma replace_in_sessions_no_placeholder (R P : string) (l : list Session) :
  R <> P -> Forall (fun x => id x <> P) (replace_in_sessions R P l).
Proof.
  intros HRP. unfold replace_in_sessions. apply List.Forall_forall.
  intros x Hx. apply in_map_iff in Hx as (y & <- & _).
  destruct (String.eqb (id y) P) eqn:E; simpl; [exact HRP|].
  now apply String.eqb_neq.
Qed.

Lemma has_session_false (P : string) (p : Project) :
  has_session P p = false -> Forall (fun x => id x <> P) (sessions p).
Proof.
  unfold has_session, js_some. intros H. apply List.Forall_forall. intros x Hx Hid.
  assert (existsb (fun x => String.eqb (id x) P) (sessions p) = true) as Ht.
  { apply existsb_exists. exists x. split; [exact Hx|]. now apply String.eqb_eq. }
  congruence.
Qed.

Lemma replace_in_project_no_placeholder (R P : string) (p : Project) :
  R <> P -> Forall (fun x => id x <> P) (sessions (replace_in_project R P p)).
Proof.
  intros HRP. unfold replace_in_project.
  destruct (has_session P p) eqn:E; simpl.
  - now apply replace_in_sessions_no_placeholder.
  - now apply has_session_false.
Qed.

(** The substitution neither adds nor drops an entry. *)
Lemma replace_in_sessions_length (R P : string) (l : list Session) :
  length (replace_in_sessions R P l) = length l.
Proof. unfold replace_in_sessions. apply length_map. Qed.

Lemma with_real_id_idem (R : string) (x : Session) :
  with_real_id R (with_real_id R x) = with_real_id R x.
Proof. reflexivity. Qed.

Lemma replace_in_sessions_idem (R P : string) (l : list Session) :
  replace_in_sessions R P (replace_in_sessions R P l) = replace_in_sessions R P l.
Proof.
  unfold replace_in_sessions. rewrite List.map_map. apply map_ext. intros x.
  destruct (String.eqb (id x) P) eqn:E; simpl.
  - now destruct (String.eqb R P).
  - now rewrite E.
Qed.

Lemma replace_in_project_idem (R P : string) (p : Project) :
  replace_in_project R P (replace_in_project R P p) = replace_in_project R P p.
Proof.
  unfold replace_in_project at 2 3. destruct (has_session P p) eqn:E.
  - unfold replace_in_project.
    destruct (has_session P (with_sessions _ p)); [|reflexivity].
    unfold with_sessions; simpl. now rewrite replace_in_sessions_idem.
  - unfold replace_in_project. now rewrite E.
Qed.

(** What one call of [replacePlaceholderSession] establishes in any state. *)
Lemma replacePlaceholderSession_post (R P : string) (s : AppState) :
  truthy R = true -> truthy P = true -> R <> P ->
  let s' := replacePlaceholderSession R P s in
  (R ∈ activeSessions s') /\ (P ∉ activeSessions s')
  /\ Forall (fun p => Forall (fun x => id x <> P) (sessions p)) (projects s')
  /\ (forall ses, selectedSession s' = Some ses -> id ses <> P)
  /\ (forall p, selectedProject s' = Some p -> Forall (fun x => id x <> P) (sessions p))
  /\ obj_get P (placeholderSessions s') = None.
Proof.
  intros HR HP HRP. unfold replacePlaceholderSession. rewrite HR, HP. simpl.
  repeat split.
  - apply elem_of_union. right. now apply elem_of_singleton.
  - intros [Hin | Hin]%elem_of_union.
    + apply elem_of_difference in Hin as [_ Hin]. apply Hin. now apply elem_of_singleton.
    + apply elem_of_singleton in Hin. congruence.
  - apply List.Forall_forall. intros p Hp. apply in_map_iff in Hp as (q & <- & _).
    now apply replace_in_project_no_placeholder.
  - intros ses. destruct (selectedSession s) as [ss|]; [|discriminate].
    destruct (String.eqb (id ss) P) eqn:E; intros Heq; injection Heq as <-; simpl;
      [exact HRP|].
    now apply String.eqb_neq.
  - intros p. destruct (selectedProject s) as [sp|]; [|discriminate].
    destruct (has_session P sp) eqn:E; intros Heq; injection Heq as <-; simpl.
    + now apply replace_in_sessions_no_placeholder.
    + now apply has_session_false.
  - apply obj_get_cleaned.
Qed.

Lemma markSessionAsActive_selectedSession (i : string) (s : AppState) :
  selectedSession (markSessionAsActive i s) = selectedSession s.
Proof. unfold markSessionAsActive. now destruct (truthy i). Qed.

Lemma handleSubmit_selectedSession (a : string) (b : option string) (t : Z) (s : AppState) :
  selectedSession (handleSubmit a b t s) = selectedSession s.
Proof.
  unfold handleSubmit. destruct b as [sid|]; [|apply markSessionAsActive_selectedSession].
  destruct (truthy sid && startsWith sid "temp-");
    [|apply markSessionAsActive_selectedSession].
  destruct (obj_get sid _); simpl; apply markSessionAsActive_selectedSession.
Qed.

Lemma handleNewSession_selectedSession (project : Project) (stamp rnd iso : string)
    (t : Z) (s : AppState) :
  selectedSession (handleNewSession project stamp rnd iso t s) =
  Some (mkSession (placeholderId stamp rnd) (Some "New Conversation")
                  (Some "New Conversation") (Some iso) (Some iso) (Some iso)
                  None None true).
Proof. unfold handleNewSession. now rewrite markSessionAsActive_selectedSession. Qed.

(** ** The placeholder and its real counterpart never coexist *)

(** C1. Start a new conversation (which mints the placeholder identity
    [P]), send a message with it, then receive the real identity [R]
    through [replacePlaceholderSession R P]: the protection set holds [R]
    and not [P]; no session of any project, the selected session, no
    session of the selected project and no record of the registry carries
    [P]; the selected session is the former placeholder under the
    identity [R], no longer flagged as a placeholder. *)
Theorem C1_placeholder_replaced_by_real
    (s : AppState) (project : Project) (stamp rnd iso : string)
    (createdMs sentMs : Z) (R : string) :
  truthy R = true -> startsWith R "temp-" = false ->
  let P := placeholderId stamp rnd in
  let s1 := handleNewSession project stamp rnd iso createdMs s in
  let s2 := handleSubmit P (Some P) sentMs s1 in
  let s3 := replacePlaceholderSession R P s2 in
  (R ∈ activeSessions s3) /\ (P ∉ activeSessions s3)
  /\ Forall (fun p => Forall (fun x => id x <> P) (sessions p)) (projects s3)
  /\ (exists ses, selectedSession s3 = Some ses /\ id ses = R /\ id ses <> P
                  /\ isPlaceholder ses = false)
  /\ (forall p, selectedProject s3 = Some p -> Forall (fun x => id x <> P) (sessions p))
  /\ obj_get P (placeholderSessions s3) = None.
Proof.
  intros HR Htemp P s1 s2 s3.
  assert (R <> P) as HRP.
  { intros ->. subst P. rewrite placeholderId_temp in Htemp. discriminate. }
  destruct (replacePlaceholderSession_post R P s2 HR (placeholderId_truthy stamp rnd) HRP)
    as (H1 & H2 & H3 & H4 & H5 & H6).
  repeat split; try assumption.
  assert (selectedSession s2 =
          Some (mkSession P (Some "New Conversation") (Some "New Conversation")
                          (Some iso) (Some iso) (Some iso) None None true)) as Hsel.
  { subst s2 s1. rewrite handleSubmit_selectedSession.
    apply handleNewSession_selectedSession. }
  eexists. subst s3. unfold replacePlaceholderSession.
  rewrite HR, (placeholderId_truthy stamp rnd : truthy P = true). simpl.
  rewrite Hsel. simpl. rewrite String.eqb_refl. simpl. now repeat split.
Qed.

Lemma C1_witness :
  let P := placeholderId "1700000000000" "k3j9x0q1z" in
  let s3 := replacePlaceholderSession "abc-real" P
              (handleSubmit P (Some P) 1700000005000
                 (handleNewSession demo "1700000000000" "k3j9x0q1z"
                                   "2023-11-14T22:13:20.000Z" 1700000000000 state0)) in
  ("abc-real" ∈ activeSessions s3) /\ (P ∉ activeSessions s3)
  /\ Forall (fun p => Forall (fun x => id x <> P) (sessions p)) (projects s3)
  /\ (exists ses, selectedSession s3 = Some ses /\ id ses = "abc-real" /\ id ses <> P
                  /\ isPlaceholder ses = false)
  /\ (forall p, selectedProject s3 = Some p -> Forall (fun x => id x <> P) (sessions p))
  /\ obj_get P (placeholderSessions s3) = None.
Proof.
  exact (C1_placeholder_replaced_by_real state0 demo "1700000000000" "k3j9x0q1z"
           "2023-11-14T22:13:20.000Z" 1700000000000 1700000005000 "abc-real"
           eq_refl eq_refl).
Defined.

(** ** isUpdateAdditive with a placeholder selected *)

(** C3, as stated, fails: with the placeholder [tempSession] selected in
    the project [demo], a snapshot that no longer lists [demo] is judged
    not additive, because the presence of the selected project is tested
    before the placeholder is looked at. *)
Lemma C3_counterexample :
  is_placeholder_session tempSession = true
  /\ isUpdateAdditive [demo] [] (Some demo) (Some tempSession) = false.
Proof. split; reflexivity. Qed.

(** C3, amended. With a placeholder selected, [isUpdateAdditive] answers
    [true] exactly when the selected project is found by name both in the
    current projects and in the snapshot; the sessions of either play no
    part. *)
Theorem C3_placeholder_additive_iff_project_present
    (currentProjects updatedProjects : list Project) (sp : Project) (ss : Session) :
  is_placeholder_session ss = true ->
  isUpdateAdditive currentProjects updatedProjects (Some sp) (Some ss) =
    js_some (fun p => String.eqb (name p) (name sp)) currentProjects
    && js_some (fun p => String.eqb (name p) (name sp)) updatedProjects.
Proof.
  intros Hph. unfold isUpdateAdditive, js_find, js_some.
  assert (forall l : list Project,
             existsb (fun p => String.eqb (name p) (name sp)) l =
             match find (fun p => String.eqb (name p) (name sp)) l with
             | Some _ => true | None => false end) as Hfind.
  { induction l as [|q l IH]; simpl; [reflexivity|].
    now destruct (String.eqb (name q) (name sp)). }
  rewrite !Hfind.
  destruct (find _ currentProjects); [|reflexivity].
  destruct (find _ updatedProjects); [|reflexivity].
  now rewrite Hph.
Qed.

Lemma C3_witness :
  isUpdateAdditive [demo] [with_sessions [] demo] (Some demo) (Some tempSession) =
    js_some (fun p => String.eqb (name p) (name demo)) [demo]
    && js_some (fun p => String.eqb (name p) (name demo)) [with_sessions [] demo].
Proof.
  exact (C3_placeholder_additive_iff_project_present
           [demo] [with_sessions [] demo] demo tempSession eq_refl).
Defined.

(** ** Idempotence of replacePlaceholderSession *)

Lemma replace_in_sessions_entries (R P : string) (l : list Session) :
  conversation_entries R P (replace_in_sessions R P l) = conversation_entries R P l.
Proof.
  unfold conversation_entries, replace_in_sessions.
  induction l as [|x l IH]; simpl; [reflexivity|].
  destruct (String.eqb (id x) P) eqn:E; simpl.
  - rewrite String.eqb_refl, orb_true_r. simpl. now rewrite IH.
  - rewrite E. destruct (String.eqb (id x) R); simpl; now rewrite IH.
Qed.

Lemma replace_in_project_entries (R P : string) (p : Project) :
  conversation_entries R P (sessions (replace_in_project R P p)) =
    conversation_entries R P (sessions p)
  /\ length (sessions (replace_in_project R P p)) = length (sessions p).
Proof.
  unfold replace_in_project. destruct (has_session P p); simpl; [|easy].
  split; [apply replace_in_sessions_entries | apply replace_in_sessions_length].
Qed.

(** C4. A second [replacePlaceholderSession R P] leaves the state of the
    first call as it is.  The protection set is the old one with [P] out
    and [R] in (unchanged when the call is refused for an empty identity),
    and in every project the number of sessions, and the number of them
    that stand for the conversation, are those of the state before the
    first call: no entry is added. *)
Theorem C4_replacePlaceholderSession_idempotent (R P : string) (s : AppState) :
  let s1 := replacePlaceholderSession R P s in
  let s2 := replacePlaceholderSession R P s1 in
  s2 = s1
  /\ activeSessions s2 =
       (if truthy R && truthy P
        then (activeSessions s ∖ {[ P ]}) ∪ {[ R ]} else activeSessions s)
  /\ Forall2 (fun p2 p =>
                length (sessions p2) = length (sessions p)
                /\ conversation_entries R P (sessions p2) =
                     conversation_entries R P (sessions p))
             (projects s2) (projects s).
Proof.
  intros s1 s2.
  assert (s2 = s1) as Heq.
  { subst s2 s1. unfold replacePlaceholderSession.
    destruct (truthy R && truthy P) eqn:G; rewrite ?G; [|reflexivity].
    simpl. f_equal.
    - rewrite List.map_map. apply map_ext. intros p. apply replace_in_project_idem.
    - destruct (selectedProject s) as [sp|]; [|reflexivity].
      destruct (has_session P sp) eqn:E; [|now rewrite E].
      destruct (has_session P (with_sessions _ sp)); [|reflexivity].
      unfold with_sessions; simpl. now rewrite replace_in_sessions_idem.
    - destruct (selectedSession s) as [ss|]; [|reflexivity].
      destruct (String.eqb (id ss) P) eqn:E; [|now rewrite E].
      simpl. now destruct (String.eqb R P).
    - apply set_eq. intros x.
      rewrite !elem_of_union, !elem_of_difference, !elem_of_union,
        !elem_of_difference, !elem_of_singleton.
      tauto.
    - rewrite obj_get_cleaned. reflexivity. }
  split; [exact Heq|]. rewrite Heq. subst s1. unfold replacePlaceholderSession.
  destruct (truthy R && truthy P); simpl.
  - split; [reflexivity|].
    induction (projects s) as [|p l IH]; simpl; constructor; [|exact IH].
    destruct (replace_in_project_entries R P p) as [H1 H2]. now split.
  - split; [reflexivity|].
    induction (projects s) as [|p l IH]; constructor; [now split | exact IH].
Qed.

(** ** Background snapshots and the protection set *)

(** C2, as stated, fails in both directions.  A snapshot that retitles
    the selected real session is dropped although the protection set does
    not hold the session's identity, when the set holds a [new-session-]
    marker; and it is applied although the set holds the identity, when
    no project is selected. *)
Lemma C2_counterexample :
  (bool_decide ("abc-real" ∈ ({[ "new-session-1700000000000" ]} : gset string)) = false
   /\ projects (onProjectsUpdated 0 "projects_updated-1" snapshot
                  (protectedState (Some (demoWith [realSession "fix bug"]))
                                  {[ "new-session-1700000000000" ]}))
      = [demoWith [realSession "fix bug"]])
  /\ (bool_decide ("abc-real" ∈ ({[ "abc-real" ]} : gset string)) = true
      /\ projects (onProjectsUpdated 0 "projects_updated-1" snapshot
                     (protectedState None {[ "abc-real" ]}))
         = snapshot).
Proof. vm_compute. repeat split. Qed.

Lemma find_name_map (f : Project -> Project) (n : string) (l : list Project) :
  (forall p, name (f p) = name p) ->
  js_find (fun p => String.eqb (name p) n) (List.map f l) =
  option_map f (js_find (fun p => String.eqb (name p) n) l).
Proof.
  intros Hf. unfold js_find. induction l as [|p l IH]; simpl; [reflexivity|].
  rewrite Hf. now destruct (String.eqb (name p) n).
Qed.

Lemma find_id_app (i : string) (l1 l2 : list Session) (x : Session) :
  js_find (fun y => String.eqb (id y) i) l2 = Some x ->
  exists y, js_find (fun y => String.eqb (id y) i) (l1 ++ l2) = Some y.
Proof.
  unfold js_find. intros H. induction l1 as [|z l1 IH]; simpl; [eauto|].
  destruct (String.eqb (id z) i); eauto.
Qed.

Lemma addPlaceholderSessions_fst (now : Z) (stored : list (string * PlaceholderData))
    (projs : list Project) :
  fst (addPlaceholderSessions now stored projs) =
  List.map (with_placeholders (validPlaceholders now projs stored)) projs.
Proof.
  unfold addPlaceholderSessions, with_placeholders. simpl.
  apply map_ext. intros p. now destruct (projectPlaceholders _ p).
Qed.

Lemma with_placeholders_name valid (p : Project) : name (with_placeholders valid p) = name p.
Proof. unfold with_placeholders. now destruct (projectPlaceholders valid p). Qed.

Lemma with_placeholders_sessions valid (p : Project) :
  exists ph, sessions (with_placeholders valid p) = ph ++ sessions p
             /\ Forall (fun x => isPlaceholder x = true) ph.
Proof.
  unfold with_placeholders.
  assert (Forall (fun x => isPlaceholder x = true) (projectPlaceholders valid p)) as Hall.
  { unfold projectPlaceholders. apply List.Forall_forall. intros x Hx.
    now apply in_map_iff in Hx as (kv & <- & _). }
  destruct (projectPlaceholders valid p) as [|x ph].
  - exists []. split; [reflexivity | constructor].
  - exists (x :: ph). split; [reflexivity | exact Hall].
Qed.

Lemma with_placeholders_all valid (l : list Project) :
  Forall2 (fun p' p =>
             name p' = name p
             /\ exists ph, sessions p' = ph ++ sessions p
                           /\ Forall (fun x => isPlaceholder x = true) ph)
          (List.map (with_placeholders valid) l) l.
Proof.
  induction l as [|p l IH]; simpl; constructor; [|exact IH].
  split; [apply with_placeholders_name | apply with_placeholders_sessions].
Qed.

Lemma hasActiveSession_false (ss : Session) (active : gset string) :
  id ss ∉ active ->
  (forall i, i ∈ active -> startsWith i "new-session-" = false) ->
  hasActiveSession (Some ss) active = false.
Proof.
  intros Hid Hnew. unfold hasActiveSession. rewrite bool_decide_eq_false_2 by exact Hid.
  simpl. unfold js_some. apply not_true_is_false. intros H.
  apply existsb_exists in H as (i & Hi & Hs).
  rewrite Hnew in Hs; [discriminate|]. apply elem_of_elements.
  now apply list_elem_of_In.
Qed.

(** C2, amended. A project and a real session are selected, and a
    snapshot message not processed before changes the title or the
    [created_at] or [updated_at] stamp of that session.  While the
    protection set holds the session's identity the message changes
    neither the projects nor the selection nor the registry.  Once the
    set holds neither that identity nor any [new-session-] marker, the
    projects become the snapshot, each project with its valid
    placeholders in front, and the session stays selected. *)
Theorem C2_retitled_snapshot_suppressed_while_protected
    (now : Z) (messageId : string) (updatedProjects : list Project) (s : AppState)
    (sp cp up : Project) (ss cs us : Session) :
  selectedProject s = Some sp ->
  selectedSession s = Some ss ->
  is_placeholder_session ss = false ->
  messageId ∉ processedMessageIds s ->
  js_find (fun p => String.eqb (name p) (name sp)) (projects s) = Some cp ->
  js_find (fun p => String.eqb (name p) (name sp)) updatedProjects = Some up ->
  js_find (fun x => String.eqb (id x) (id ss)) (sessions cp) = Some cs ->
  js_find (fun x => String.eqb (id x) (id ss)) (sessions up) = Some us ->
  title cs <> title us \/ created_at cs <> created_at us \/ updated_at cs <> updated_at us ->
  let s' := onProjectsUpdated now messageId updatedProjects s in
  (id ss ∈ activeSessions s ->
     projects s' = projects s /\ selectedProject s' = selectedProject s
     /\ selectedSession s' = selectedSession s
     /\ placeholderSessions s' = placeholderSessions s)
  /\ (id ss ∉ activeSessions s ->
      (forall i, i ∈ activeSessions s -> startsWith i "new-session-" = false) ->
      projects s' = fst (addPlaceholderSessions now (placeholderSessions s) updatedProjects)
      /\ Forall2 (fun p' p =>
                    name p' = name p
                    /\ exists ph, sessions p' = ph ++ sessions p
                                  /\ Forall (fun x => isPlaceholder x = true) ph)
                 (projects s') updatedProjects
      /\ selectedSession s' = Some ss).
Proof.
  intros Hsp Hss Hreal Hmsg Hcp Hup Hcs Hus Hdiff s'.
  assert (isUpdateAdditive (projects s) updatedProjects (Some sp) (Some ss) = false) as Hadd.
  { unfold isUpdateAdditive. rewrite Hcp, Hup, Hreal, Hcs, Hus.
    destruct Hdiff as [H | [H | H]];
      rewrite (bool_decide_eq_false_2 _ H); now rewrite ?andb_false_r. }
  subst s'. unfold onProjectsUpdated.
  rewrite (bool_decide_eq_false_2 _ Hmsg), Hsp, Hss, Hadd. split.
  - intros Hin. unfold hasActiveSession.
    rewrite (bool_decide_eq_true_2 _ Hin). simpl. now rewrite Hsp, Hss.
  - intros Hout Hnew. rewrite (hasActiveSession_false ss _ Hout Hnew). cbn [andb].
    pose proof (addPlaceholderSessions_fst now (placeholderSessions s) updatedProjects) as Hfst.
    destruct (addPlaceholderSessions now (placeholderSessions s) updatedProjects)
      as [withPlaceholders stored'] eqn:Hap.
    simpl in Hfst. set (valid := validPlaceholders now updatedProjects (placeholderSessions s)) in *.
    assert (js_find (fun p => String.eqb (name p) (name sp)) withPlaceholders =
            Some (with_placeholders valid up)) as Hfind.
    { rewrite Hfst, find_name_map by apply with_placeholders_name. now rewrite Hup. }
    rewrite Hfind.
    destruct (with_placeholders_sessions valid up) as (ph & Hph & _).
    destruct (find_id_app (id ss) ph (sessions up) us Hus) as (y & Hy).
    rewrite Hph, Hy.
    assert (forall st : AppState,
               projects st = (if bool_decide (projects s = withPlaceholders)
                              then projects s else withPlaceholders) ->
               selectedSession st = Some ss ->
               projects st = withPlaceholders
               /\ Forall2 (fun p' p =>
                             name p' = name p
                             /\ exists ph, sessions p' = ph ++ sessions p
                                           /\ Forall (fun x => isPlaceholder x = true) ph)
                          (projects st) updatedProjects
               /\ selectedSession st = Some ss) as Hgoal.
    { intros st Hp Hs.
      assert (projects st = withPlaceholders) as Hp'.
      { rewrite Hp. case_bool_decide; congruence. }
      split; [exact Hp'|]. split; [|exact Hs].
      rewrite Hp', Hfst. apply with_placeholders_all. }
    destruct (bool_decide (with_placeholders valid up = sp));
      apply Hgoal; simpl; auto.
Qed.

Lemma C2_witness :
  let s := protectedState (Some (demoWith [realSession "fix bug"])) {[ "abc-real" ]} in
  let ss := realSession "fix bug" in
  let s' := onProjectsUpdated 0 "projects_updated-1" snapshot s in
  (id ss ∈ activeSessions s ->
     projects s' = projects s /\ selectedProject s' = selectedProject s
     /\ selectedSession s' = selectedSession s
     /\ placeholderSessions s' = placeholderSessions s)
  /\ (id ss ∉ activeSessions s ->
      (forall i, i ∈ activeSessions s -> startsWith i "new-session-" = false) ->
      projects s' = fst (addPlaceholderSessions 0 (placeholderSessions s) snapshot)
      /\ Forall2 (fun p' p =>
                    name p' = name p
                    /\ exists ph, sessions p' = ph ++ sessions p
                                  /\ Forall (fun x => isPlaceholder x = true) ph)
                 (projects s') snapshot
      /\ selectedSession s' = Some ss).
Proof.
  apply (C2_retitled_snapshot_suppressed_while_protected 0 "projects_updated-1" snapshot
           (protectedState (Some (demoWith [realSession "fix bug"])) {[ "abc-real" ]})
           (demoWith [realSession "fix bug"]) (demoWith [realSession "fix bug"])
           (demoWith [realSession "fix the bug"])
           (realSession "fix bug") (realSession "fix bug") (realSession "fix the bug"));
    try reflexivity.
  - apply not_elem_of_empty.
  - left. discriminate.
Defined.

End AppFacts.

(** * Properties of the server *)

Section SortFacts.
Context {A : Type} (cmp : A -> A -> Z).

Lemma sort_insert_perm (x : A) (l : list A) : Permutation (sort_insert cmp x l) (x :: l).
Proof.
  induction l as [|y l IH]; simpl; [reflexivity|].
  destruct (Z.leb (cmp x y) 0); [reflexivity|].
  rewrite IH. apply perm_swap.
Qed.

Lemma js_sort_perm (l : list A) : Permutation (js_sort cmp l) l.
Proof.
  induction l as [|x l IH]; simpl; [reflexivity|].
  rewrite sort_insert_perm. now constructor.
Qed.

Lemma js_sort_In (x : A) (l : list A) : In x (js_sort cmp l) <-> In x l.
Proof.
  split; apply Permutation_in; [|symmetry]; apply js_sort_perm.
Qed.

Hypothesis cmp_total : forall a b, (0 < cmp a b)%Z -> (cmp b a <= 0)%Z.
Hypothesis cmp_trans : forall a b c, (cmp a b <= 0)%Z -> (cmp b c <= 0)%Z -> (cmp a c <= 0)%Z.

Lemma sort_insert_sorted (x : A) (l : list A) :
  StronglySorted (fun a b => (cmp a b <= 0)%Z) l ->
  StronglySorted (fun a b => (cmp a b <= 0)%Z) (sort_insert cmp x l).
Proof.
  induction 1 as [|y l Hl IH Hy]; simpl.
  - repeat constructor.
  - destruct (Z.leb (cmp x y) 0) eqn:E.
    + apply Z.leb_le in E. constructor; [now constructor|].
      constructor; [exact E|].
      eapply List.Forall_impl; [|exact Hy]. intros z Hz. now apply cmp_trans with y.
    + apply Z.leb_gt in E. constructor; [exact IH|].
      apply List.Forall_forall. intros z Hz.
      apply (Permutation_in _ (sort_insert_perm x l)) in Hz as [<- | Hz].
      * now apply cmp_total.
      * rewrite List.Forall_forall in Hy. now apply Hy.
Qed.

Lemma js_sort_sorted (l : list A) :
  StronglySorted (fun a b => (cmp a b <= 0)%Z) (js_sort cmp l).
Proof.
  induction l as [|x l IH]; simpl; [constructor|]. now apply sort_insert_sorted.
Qed.
End SortFacts.

Section ListFacts.
Context {A : Type}.

Lemma js_slice_middle (start stop : Z) (l : list A) :
  exists pre post, l = pre ++ js_slice start stop l ++ post.
Proof.
  unfold js_slice.
  set (m := Z.to_nat (slice_index (Z.of_nat (length l)) start)).
  set (n := Z.to_nat _).
  exists (List.firstn m l), (List.skipn n (List.skipn m l)).
  now rewrite (List.firstn_skipn n), (List.firstn_skipn m).
Qed.

Lemma StronglySorted_middle (R : A -> A -> Prop) (pre mid post : list A) :
  StronglySorted R (pre ++ mid ++ post) -> StronglySorted R mid.
Proof.
  induction pre as [|x pre IH]; simpl.
  - induction mid as [|y mid IHm]; simpl; [constructor|].
    intros H. apply StronglySorted_inv in H as [H1 H2].
    constructor; [now apply IHm|].
    apply List.Forall_app in H2. tauto.
  - intros H. apply StronglySorted_inv in H as [H1 _]. now apply IH.
Qed.

Lemma StronglySorted_weaken (R R' : A -> A -> Prop) (l : list A) :
  (forall a b, R a b -> R' a b) -> StronglySorted R l -> StronglySorted R' l.
Proof.
  intros HR. induction 1 as [|x l Hl IH Hx]; constructor; [exact IH|].
  eapply List.Forall_impl; [|exact Hx]. intros b. apply HR.
Qed.

Lemma NoDup_middle (pre mid post : list A) :
  List.NoDup (pre ++ mid ++ post) -> List.NoDup mid.
Proof.
  intros H. apply NoDup_app_remove_l in H. now apply NoDup_app_remove_r in H.
Qed.
End ListFacts.

Lemma js_slice_map {A B : Type} (f : A -> B) (start stop : Z) (l : list A) :
  List.map f (js_slice start stop l) = js_slice start stop (List.map f l).
Proof.
  unfold js_slice. now rewrite List.length_map, List.skipn_map, List.firstn_map.
Qed.

Section ObjKeys.
Context {V : Type}.

Lemma obj_get_None (k : string) (o : list (string * V)) :
  obj_get k o = None <-> ~ In k (List.map fst o).
Proof.
  induction o as [|[k' v] o IH]; simpl; [tauto|].
  destruct (String.eqb k k') eqn:E.
  - apply String.eqb_eq in E. subst. split; [discriminate | tauto].
  - apply String.eqb_neq in E. rewrite IH. split; [intros H [H'|H']; congruence | tauto].
Qed.

Lemma obj_get_Some_In (k : string) (v : V) (o : list (string * V)) :
  obj_get k o = Some v -> In (k, v) o.
Proof.
  induction o as [|[k' v'] o IH]; simpl; [discriminate|].
  destruct (String.eqb k k') eqn:E.
  - apply String.eqb_eq in E. intros [= <-]. subst. now left.
  - intros H. right. now apply IH.
Qed.

Lemma obj_set_fresh (k : string) (v : V) (o : list (string * V)) :
  obj_get k o = None -> obj_set k v o = o ++ [(k, v)].
Proof.
  induction o as [|[k' v'] o IH]; simpl; [reflexivity|].
  destruct (String.eqb k k'); [discriminate|]. intros H. now rewrite IH.
Qed.

Lemma obj_set_keys (k : string) (v v' : V) (o : list (string * V)) :
  obj_get k o = Some v' -> List.map fst (obj_set k v o) = List.map fst o.
Proof.
  induction o as [|[k' w] o IH]; simpl; [discriminate|].
  destruct (String.eqb k k') eqn:E; simpl.
  - apply String.eqb_eq in E. now subst.
  - intros H. now rewrite IH.
Qed.
End ObjKeys.

Section ObjSetFacts.
Context {V : Type}.

Lemma obj_set_In (k : string) (v : V) (o : list (string * V)) (kv : string * V) :
  In kv (obj_set k v o) -> kv = (k, v) \/ In kv o.
Proof.
  induction o as [|[k' w] o IH]; simpl.
  - intros [<- | []]. now left.
  - destruct (String.eqb k k'); simpl.
    + intros [<- | H]; [now left | right; now right].
    + intros [<- | H]; [right; now left|].
      destruct (IH H) as [-> | H']; [now left | right; now right].
Qed.

Lemma obj_set_keys_incl (k k' : string) (v : V) (o : list (string * V)) :
  In k' (List.map fst o) -> In k' (List.map fst (obj_set k v o)).
Proof.
  induction o as [|[k2 w] o IH]; simpl; [tauto|].
  destruct (String.eqb k k2) eqn:E; simpl.
  - apply String.eqb_eq in E. subst. tauto.
  - intros [H | H]; [now left | right; now apply IH].
Qed.

Lemma obj_set_key_In (k : string) (v : V) (o : list (string * V)) :
  In k (List.map fst (obj_set k v o)).
Proof.
  induction o as [|[k2 w] o IH]; simpl; [now left|].
  destruct (String.eqb k k2); simpl; [now left | now right].
Qed.

(** A map keeps one binding for each key. *)
Lemma obj_set_NoDup (k : string) (v : V) (o : list (string * V)) :
  List.NoDup (List.map fst o) -> List.NoDup (List.map fst (obj_set k v o)).
Proof.
  intros H. destruct (obj_get k o) as [w|] eqn:E.
  - now rewrite (obj_set_keys k v w o E).
  - rewrite (obj_set_fresh k v o E), List.map_app. simpl.
    apply List.NoDup_app; [assumption | |].
    + repeat constructor. intros [].
    + intros x Hx [<- | []]. now apply obj_get_None in E.
Qed.
End ObjSetFacts.

Section SessionListing.
Import Projects.

Lemma keyed_ids (o : list (string * Session)) :
  keyed o -> List.map id (List.map snd o) = List.map fst o.
Proof.
  induction o as [|[k s] o IH]; intros H; simpl; [reflexivity|].
  rewrite (H k s) by now left. f_equal. apply IH. intros k' s' Hin. apply H. now right.
Qed.

Lemma keyed_set (k : string) (s : Session) (o : list (string * Session)) :
  keyed o -> id s = k -> keyed (obj_set k s o).
Proof.
  intros Ho Hs k' s' Hin. apply obj_set_In in Hin as [[= -> ->] | Hin]; [exact Hs|].
  now apply Ho.
Qed.

Lemma parse_entry_inv (now : Z) (sid : string) (e : Entry) (o : list (string * Session)) :
  List.NoDup (List.map fst o) /\ keyed o ->
  List.NoDup (List.map fst (parse_entry now sid e o)) /\ keyed (parse_entry now sid e o).
Proof.
  intros [Hnd Hk]. unfold parse_entry.
  set (o1 := match obj_get sid o with Some _ => o | None => _ end).
  assert (List.NoDup (List.map fst o1) /\ keyed o1) as [Hnd1 Hk1].
  { subst o1. destruct (obj_get sid o); [now split|].
    split; [now apply obj_set_NoDup | now apply keyed_set]. }
  destruct (obj_get sid o1) as [ses|] eqn:E; [|now split].
  split; [now apply obj_set_NoDup|].
  apply keyed_set; [exact Hk1|]. simpl. apply Hk1. now apply obj_get_Some_In.
Qed.

Lemma parse_lines_inv (clock : nat -> Z) (l : list Line) :
  forall i o,
    List.NoDup (List.map fst o) /\ keyed o ->
    List.NoDup (List.map fst (parse_lines clock i l o)) /\ keyed (parse_lines clock i l o).
Proof.
  induction l as [|ln l IH]; intros i o H; simpl; [exact H|].
  apply IH. unfold parse_line.
  destruct (is_blank (raw ln)); [exact H|].
  destruct (json ln) as [e|]; [|exact H].
  destruct (e_sessionId e) as [sid|]; [|exact H].
  destruct (truthy sid); [|exact H].
  now apply parse_entry_inv.
Qed.

(** A file yields one record for each session identity. *)
Lemma parseJsonlSessions_NoDup (clock : nat -> Z) (f : File) :
  List.NoDup (List.map id (parseJsonlSessions clock f)).
Proof.
  unfold parseJsonlSessions.
  destruct (parse_lines_inv clock (lines f) 0 []) as [Hnd Hk].
  { split; [constructor | intros k s []]. }
  eapply Permutation_NoDup.
  - apply Permutation_map. symmetry. apply js_sort_perm.
  - now rewrite keyed_ids.
Qed.

Variable clock : string -> nat -> Z.

Lemma first_record_app (L L' : list File) (s : Session) :
  first_record clock L s -> first_record clock (L ++ L') s.
Proof.
  intros (pre & f & post & -> & Hs & Hpre).
  exists pre, f, (post ++ L'). split; [|now split].
  now rewrite <- List.app_assoc.
Qed.

Lemma merge_sessions_spec (found : list Session) :
  forall allS,
    List.NoDup (List.map fst allS) -> keyed allS ->
    let R := merge_sessions allS found in
    List.NoDup (List.map fst R) /\ keyed R
    /\ (forall k s, In (k, s) R ->
          In (k, s) allS \/ (In s found /\ ~ In (id s) (List.map fst allS)))
    /\ (forall k, In k (List.map fst allS) -> In k (List.map fst R))
    /\ (forall s, In s found -> In (id s) (List.map fst R)).
Proof.
  unfold merge_sessions.
  induction found as [|ses found IH]; intros allS Hnd Hk; simpl.
  - repeat split; try assumption; [now left | tauto | intros s []].
  - fold (merge_step allS ses).
    assert (List.NoDup (List.map fst (merge_step allS ses)) /\ keyed (merge_step allS ses))
      as [Hnd1 Hk1].
    { unfold merge_step. destruct (obj_get (id ses) allS); [now split|].
      split; [now apply obj_set_NoDup | now apply keyed_set]. }
    destruct (IH _ Hnd1 Hk1) as (H1 & H2 & H3 & H4 & H5). clear IH.
    assert (forall k, In k (List.map fst allS) -> In k (List.map fst (merge_step allS ses)))
      as Hincl.
    { intros k Hin. unfold merge_step. destruct (obj_get (id ses) allS); [exact Hin|].
      now apply obj_set_keys_incl. }
    assert (In (id ses) (List.map fst (merge_step allS ses))) as Hses.
    { unfold merge_step. destruct (obj_get (id ses) allS) as [w|] eqn:E.
      - apply obj_get_Some_In in E. apply in_map_iff. now exists (id ses, w).
      - apply obj_set_key_In. }
    repeat split; try assumption.
    + intros k s Hin. destruct (H3 k s Hin) as [Hold | [Hf Hnew]].
      * unfold merge_step in Hold. destruct (obj_get (id ses) allS) eqn:E; [now left|].
        apply obj_set_In in Hold as [[= -> ->] | Hold]; [|now left].
        right. split; [now left|]. now apply obj_get_None.
      * right. split; [now right|]. intros Hc. apply Hnew. now apply Hincl.
    + intros k Hin. apply H4. now apply Hincl.
    + intros s [<- | Hin]; [now apply H4 | now apply H5].
Qed.

Lemma scan_inv_step (allS : list (string * Session)) (scanned : list File) (f : File) :
  scan_inv clock allS scanned ->
  scan_inv clock (merge_sessions allS (parsed clock f)) (scanned ++ [f]).
Proof.
  intros (Hnd & Hk & Hfirst & Hall).
  destruct (merge_sessions_spec (parsed clock f) allS Hnd Hk) as (H1 & H2 & H3 & H4 & H5).
  repeat split; try assumption.
  - intros k s Hin. destruct (H3 k s Hin) as [Hold | [Hf Hnew]].
    + apply first_record_app. now apply Hfirst with k.
    + exists scanned, f, []. repeat split; [exact Hf|].
      intros g Hg Hc. apply Hnew. apply in_map_iff in Hc as (s' & Hid & Hs').
      rewrite <- Hid. now apply Hall with g.
  - intros g s Hg Hs. apply in_app_iff in Hg as [Hg | [<- | []]].
    + apply H4. now apply Hall with g.
    + now apply H5.
Qed.

Lemma scan_files_spec (limit offset : Z) (nfiles : nat) (rest : list File) :
  forall scanned allS n,
    scan_inv clock allS scanned ->
    let R := scan_files clock limit offset nfiles rest allS n in
    List.NoDup (List.map fst R) /\ keyed R
    /\ (forall k s, In (k, s) R -> first_record clock (scanned ++ rest) s).
Proof.
  induction rest as [|f rest IH]; intros scanned allS n Hinv; simpl.
  - destruct Hinv as (H1 & H2 & H3 & _). rewrite List.app_nil_r. now repeat split.
  - fold (parsed clock f). pose proof (scan_inv_step allS scanned f Hinv) as Hstep.
    destruct (_ && _).
    + destruct Hstep as (H1 & H2 & H3 & _). repeat split; try assumption.
      intros k s Hin. replace (scanned ++ f :: rest) with ((scanned ++ [f]) ++ rest)
        by now rewrite <- List.app_assoc.
      apply first_record_app. now apply H3 with k.
    + replace (scanned ++ f :: rest) with ((scanned ++ [f]) ++ rest)
        by now rewrite <- List.app_assoc.
      now apply IH.
Qed.

Lemma byLastActivity_sorted (l : list Session) :
  StronglySorted (fun a b => (lastActivity b <= lastActivity a)%Z) (js_sort byLastActivity l).
Proof.
  eapply StronglySorted_weaken; [|apply js_sort_sorted].
  - unfold byLastActivity. intros a b H. lia.
  - unfold byLastActivity. intros a b H. lia.
  - unfold byLastActivity. intros a b c H1 H2. lia.
Qed.

Lemma byMtime_sorted (l : list File) :
  StronglySorted (fun f g => (mtime g <= mtime f)%Z) (js_sort byMtime l).
Proof.
  eapply StronglySorted_weaken; [|apply js_sort_sorted].
  - unfold byMtime. intros a b H. lia.
  - unfold byMtime. intros a b H. lia.
  - unfold byMtime. intros a b c H1 H2. lia.
Qed.

(** C6. Whatever the directory, the limit and the offset, the page that
    [getSessions] returns holds at most one record for each session
    identity and is sorted by last activity, latest first; the log files
    are scanned latest modification first, and each record of the page is
    the one of the first file in that order that has a record of its
    identity. A single file yields one record for each identity. *)
Theorem C6_getSessions_one_record_per_identity
    (dir : option (list File)) (limit offset : Z) :
  let page := sessions (getSessions clock dir limit offset) in
  List.NoDup (List.map id page)
  /\ StronglySorted (fun a b => (lastActivity b <= lastActivity a)%Z) page
  /\ StronglySorted (fun f g => (mtime g <= mtime f)%Z) (scan_order dir)
  /\ (forall s, In s page -> first_record clock (scan_order dir) s)
  /\ (forall f, List.NoDup (List.map id (parsed clock f))).
Proof.
  intros page.
  assert (StronglySorted (fun f g => (mtime g <= mtime f)%Z) (scan_order dir)) as Hfiles.
  { destruct dir; [apply byMtime_sorted | constructor]. }
  assert (forall f, List.NoDup (List.map id (parsed clock f))) as Hfile.
  { intros f. apply parseJsonlSessions_NoDup. }
  subst page.
  destruct dir as [files|];
    [|repeat split; try assumption; try constructor; intros s []].
  assert (sessions (getSessions clock (Some files) limit offset) = []
          \/ sessions (getSessions clock (Some files) limit offset) =
             js_slice offset (offset + limit)
               (js_sort byLastActivity
                  (List.map snd
                     (scan_files clock limit offset
                        (length (js_sort byMtime (jsonlFiles files)))
                        (js_sort byMtime (jsonlFiles files)) [] 0)))) as [-> | ->].
  { unfold getSessions. destruct (jsonlFiles files); [now left | now right]. }
  { repeat split; try assumption; try constructor. intros s []. }
  unfold scan_order in *.
  set (ordered := js_sort byMtime (jsonlFiles files)).
  destruct (scan_files_spec limit offset (length ordered) ordered [] [] 0)
    as (Hnd & Hk & Hfirst).
  { repeat split; [constructor | intros k s [] | intros k s [] | intros g s []]. }
  simpl in Hfirst.
  set (allS := scan_files clock limit offset (length ordered) ordered [] 0) in *.
  set (sorted := js_sort byLastActivity (List.map snd allS)).
  destruct (js_slice_middle offset (offset + limit) sorted) as (pre & post & Hmid).
  repeat split; try assumption.
  - rewrite js_slice_map.
    assert (List.NoDup (List.map id sorted)) as Hs.
    { eapply Permutation_NoDup.
      - apply Permutation_map. symmetry. apply js_sort_perm.
      - now rewrite keyed_ids. }
    destruct (js_slice_middle offset (offset + limit) (List.map id sorted))
      as (pre' & post' & Hmid').
    rewrite Hmid' in Hs. now apply NoDup_middle in Hs.
  - pose proof (byLastActivity_sorted (List.map snd allS)) as Hs. fold sorted in Hs.
    rewrite Hmid in Hs. now apply StronglySorted_middle in Hs.
  - intros s Hin.
    assert (In s sorted) as Hs.
    { rewrite Hmid. apply in_app_iff. right. apply in_app_iff. now left. }
    apply js_sort_In in Hs. apply in_map_iff in Hs as ([k s'] & <- & Hs).
    now apply Hfirst with k.
Qed.

End SessionListing.

Section SessionMessages.
Import Projects.

(** The entries that [getSessionMessages] collects from the log files:
    those of the lines that are not blank, parse, and carry the
    identity. *)
Lemma session_entries_In (sessionId : string) (files : list File) (e : Entry) :
  In e (List.flat_map (session_entries sessionId) (jsonlFiles files)) <->
  exists f ln,
    In f files /\ endsWith (fileName f) ".jsonl" = true
    /\ In ln (lines f) /\ is_blank (raw ln) = false
    /\ json ln = Some e /\ e_sessionId e = Some sessionId.
Proof.
  unfold jsonlFiles, session_entries, nonblank. rewrite in_flat_map. split.
  - intros (f & Hf & He). apply filter_In in Hf as [Hf Hext].
    apply in_flat_map in He as (ln & Hln & He). apply filter_In in Hln as [Hln Hb].
    destruct (json ln) as [e'|] eqn:Ej; [|destruct He].
    case_bool_decide as Hid; [|destruct He]. destruct He as [<- | []].
    exists f, ln. repeat split; try assumption. now apply negb_true_iff.
  - intros (f & ln & Hf & Hext & Hln & Hb & Hj & Hid).
    exists f. split; [now apply filter_In|].
    apply in_flat_map. exists ln. split.
    + apply filter_In. split; [exact Hln | now apply negb_true_iff].
    + rewrite Hj. rewrite bool_decide_eq_true_2 by exact Hid. now left.
Qed.

Lemma byTimestamp_sorted (l : list Entry) :
  StronglySorted (fun a b => (entry_time a <= entry_time b)%Z) (js_sort byTimestamp l).
Proof.
  eapply StronglySorted_weaken; [|apply js_sort_sorted].
  - unfold byTimestamp. intros a b H. lia.
  - unfold byTimestamp. intros a b H. lia.
  - unfold byTimestamp. intros a b c H1 H2. lia.
Qed.

(** C9. [getSessionMessages] returns the empty list for a placeholder
    identity and for a project without a log directory.  For any other
    identity and an existing directory it returns, sorted by time stamp
    (an absent one counting as 0), exactly the entries collected from all
    the log files: each parsed entry of a non-blank line whose
    [sessionId] is the identity asked for, as many times as it occurs. *)
Theorem C9_getSessionMessages_exact_and_sorted
    (dir : option (list File)) (sessionId : string) :
  (startsWith sessionId "temp-" = true -> getSessionMessages dir sessionId = [])
  /\ getSessionMessages None sessionId = []
  /\ (startsWith sessionId "temp-" = false ->
      forall files, dir = Some files ->
        Permutation (getSessionMessages dir sessionId)
                    (List.flat_map (session_entries sessionId) (jsonlFiles files))
        /\ StronglySorted (fun a b => (entry_time a <= entry_time b)%Z)
                          (getSessionMessages dir sessionId)
        /\ (forall e, In e (getSessionMessages dir sessionId) <->
              exists f ln,
                In f files /\ endsWith (fileName f) ".jsonl" = true
                /\ In ln (lines f) /\ is_blank (raw ln) = false
                /\ json ln = Some e /\ e_sessionId e = Some sessionId)).
Proof.
  unfold getSessionMessages. repeat split.
  - intros ->. reflexivity.
  - now destruct (startsWith sessionId "temp-").
  - rewrite H. subst dir. destruct (jsonlFiles files) eqn:E; [reflexivity|].
    apply js_sort_perm.
  - rewrite H. subst dir. destruct (jsonlFiles files); [constructor|].
    apply byTimestamp_sorted.
  - rewrite H. subst dir. intros Hin. apply session_entries_In.
    destruct (jsonlFiles files) eqn:E; [destruct Hin|].
    now apply js_sort_In in Hin.
  - rewrite H. subst dir. intros Hin. apply session_entries_In in Hin.
    destruct (jsonlFiles files) eqn:E; [destruct Hin|].
    now apply js_sort_In.
Qed.

Lemma C9_witness :
  Permutation (getSessionMessages (Some demoDir) "s1")
              (List.flat_map (session_entries "s1") (jsonlFiles demoDir))
  /\ getSessionMessages (Some demoDir) "s1" = [entryOf "s1" 20 "again"; entryOf "s1" 30 "hello"].
Proof.
  split; [|reflexivity].
  exact (proj1 (proj2 (proj2 (C9_getSessionMessages_exact_and_sorted (Some demoDir) "s1"))
                  eq_refl demoDir eq_refl)).
Defined.

End SessionMessages.

Section DeleteSession.
Import Projects.

Lemma filteredLines_kept (sessionId : string) (f : File) :
  filteredLines sessionId f = kept_lines sessionId f.
Proof.
  unfold filteredLines, fileLines, nonblank, kept_lines.
  induction (lines f) as [|ln l IH]; simpl; [reflexivity|].
  destruct (is_blank (raw ln)); simpl; [exact IH|].
  destruct (line_of_session sessionId ln); simpl; [exact IH | now rewrite IH].
Qed.

(** C10, as stated, fails: the rewritten file also loses its blank
    lines.  In [logA] the line of two spaces, which is no entry of [s1],
    is gone after [s1] is deleted, while the broken line and the line of
    [s2] stay; [logB], which also holds [s1], is untouched. *)
Lemma C10_counterexample :
  deleteSession 999 (Some demoDir) "s1" =
    (Returned true,
     Some [mkFile "a.jsonl" 999 [lineOf "s2" 10 "other"; mkLine "{broken" None; emptyLine];
           mkFile "notes.txt" 5 [emptyLine]; logB])
  /\ In (mkLine "  " None) (lines logA)
  /\ line_of_session "s1" (mkLine "  " None) = false.
Proof. split; [reflexivity|]. split; [|reflexivity]. simpl. tauto. Qed.

Lemma find_first (A : Type) (p : A -> bool) (pre post : list A) (x : A) :
  (forall y, In y pre -> p y = false) -> p x = true ->
  js_find p (pre ++ x :: post) = Some x.
Proof.
  unfold js_find. intros Hpre Hx. induction pre as [|y pre IH]; simpl.
  - now rewrite Hx.
  - rewrite (Hpre y) by now left. apply IH. intros z Hz. apply Hpre. now right.
Qed.

Lemma writeFile_other (now : Z) (name : string) (content : list Line) (l : list File) :
  ~ In name (List.map fileName l) -> writeFile now name content l = l.
Proof.
  unfold writeFile. induction l as [|g l IH]; simpl; [reflexivity|].
  intros H. destruct (String.eqb (fileName g) name) eqn:E.
  - apply String.eqb_eq in E. tauto.
  - rewrite IH; tauto.
Qed.

(** In a directory, whose names are distinct, writing a file changes that
    file alone. *)
Lemma writeFile_at (now : Z) (content : list Line) (before after : list File) (f : File) :
  List.NoDup (List.map fileName (before ++ f :: after)) ->
  writeFile now (fileName f) content (before ++ f :: after) =
  before ++ mkFile (fileName f) now content :: after.
Proof.
  intros Hnd. rewrite List.map_app in Hnd. simpl in Hnd.
  pose proof (NoDup_remove_2 _ _ _ Hnd) as Hnot.
  unfold writeFile. rewrite List.map_app. simpl. rewrite String.eqb_refl.
  fold (writeFile now (fileName f) content before).
  fold (writeFile now (fileName f) content after).
  rewrite !writeFile_other; [reflexivity | |];
    intros Hin; apply Hnot; apply in_app_iff; tauto.
Qed.

(** C10, amended. For an identity that is no placeholder, let [f] be the
    first log file, in the order of the directory listing, with a parsed
    entry of the session.  [deleteSession] rewrites [f] alone: every
    other file of the directory, log file or not, before or after [f],
    is as it was, so the entries of the session in later files survive.
    The new content of [f] is its lines that are neither blank nor parsed
    entries of the session, in their order, each ended by a line feed:
    broken lines and the lines of other sessions stay, blank lines go
    with those of the session. *)
Theorem C10_deleteSession_rewrites_first_file_only
    (now : Z) (files : list File) (sessionId : string) (pre post : list File) (f : File) :
  startsWith sessionId "temp-" = false ->
  List.NoDup (List.map fileName files) ->
  jsonlFiles files = pre ++ f :: post ->
  (forall g, In g pre -> hasSession sessionId g = false) ->
  hasSession sessionId f = true ->
  exists before after,
    files = before ++ f :: after
    /\ deleteSession now (Some files) sessionId =
         (Returned true,
          Some (before
                ++ mkFile (fileName f) now (kept_lines sessionId f ++ [emptyLine])
                :: after))
    /\ (forall ln, In ln (kept_lines sessionId f) <->
          In ln (lines f) /\ is_blank (raw ln) = false
          /\ ~ (exists e, json ln = Some e /\ e_sessionId e = Some sessionId)).
Proof.
  intros Htemp Hnd Hj Hpre Hf.
  assert (In f files) as Hin.
  { assert (In f (jsonlFiles files)) as H by (rewrite Hj; apply in_app_iff; right; now left).
    unfold jsonlFiles in H. now apply filter_In in H. }
  apply in_split in Hin as (before & after & ->).
  exists before, after. split; [reflexivity|]. split.
  - unfold deleteSession. rewrite Htemp, Hj.
    rewrite (find_first _ _ pre post f Hpre Hf).
    destruct (pre ++ f :: post) eqn:E; [now destruct pre|].
    unfold written_lines. rewrite filteredLines_kept. now rewrite writeFile_at.
  - intros ln. unfold kept_lines. rewrite filter_In, andb_true_iff, !negb_true_iff.
    unfold line_of_session. split.
    + intros (Hl & Hb & Hs). repeat split; try assumption.
      intros (e & He & Hid). rewrite He in Hs.
      now rewrite bool_decide_eq_true_2 in Hs.
    + intros (Hl & Hb & Hs). repeat split; try assumption.
      destruct (json ln) as [e|]; [|reflexivity].
      apply bool_decide_eq_false_2. intros Hid. apply Hs. now exists e.
Qed.

Lemma C10_witness :
  exists before after,
    demoDir = before ++ logA :: after
    /\ deleteSession 999 (Some demoDir) "s1" =
         (Returned true,
          Some (before
                ++ mkFile (fileName logA) 999 (kept_lines "s1" logA ++ [emptyLine])
                :: after))
    /\ (forall ln, In ln (kept_lines "s1" logA) <->
          In ln (lines logA) /\ is_blank (raw ln) = false
          /\ ~ (exists e, json ln = Some e /\ e_sessionId e = Some "s1")).
Proof.
  apply (C10_deleteSession_rewrites_first_file_only 999 demoDir "s1" [] [logB] logA).
  - reflexivity.
  - repeat constructor; simpl; intros H; repeat destruct H as [H|H]; discriminate || exact H.
  - reflexivity.
  - intros g [].
  - reflexivity.
Defined.

End DeleteSession.

Section ProjectNames.
Import Projects.
#[local] Open Scope string_scope.
#[local] Arguments String.append !s1 s2 : simpl nomatch.

(** C8, as stated, fails: the path [/home/user] is encoded as
    [-home-user], which is decoded to [/home-user], because consecutive
    parts in small letters are joined by a hyphen. *)
Lemma C8_counterexample :
  encodeProjectName "/home/user" = "-home-user"
  /\ smartDecodeProjectName (encodeProjectName "/home/user") = "/home-user".
Proof. split; reflexivity. Qed.

Lemma append_assoc (a b c : string) : (a ++ b) ++ c = a ++ (b ++ c).
Proof. induction a as [|x a IH]; simpl; [reflexivity | now rewrite IH]. Qed.

Lemma append_nil_r (a : string) : a ++ "" = a.
Proof. induction a as [|x a IH]; simpl; [reflexivity | now rewrite IH]. Qed.

Lemma prefixed_app (sep : string) (l1 l2 : list string) :
  prefixed sep (l1 ++ l2) = prefixed sep l1 ++ prefixed sep l2.
Proof.
  induction l1 as [|x l1 IH]; simpl; [reflexivity|].
  now rewrite IH, !append_assoc.
Qed.

Lemma prefixed_join (sep : string) (x : string) (l : list string) :
  prefixed sep (x :: l) = sep ++ join sep (x :: l).
Proof.
  revert x. induction l as [|y l IH]; intros x; simpl.
  - now rewrite append_nil_r.
  - f_equal. f_equal. exact (IH y).
Qed.

Lemma clean_app (a b : string) : clean (a ++ b) = clean a && clean b.
Proof.
  induction a as [|c a IH]; simpl; [reflexivity|]. rewrite IH. now rewrite andb_assoc.
Qed.

Lemma replace_char_app (x y : ascii) (a b : string) :
  replace_char x y (a ++ b) = replace_char x y a ++ replace_char x y b.
Proof. induction a as [|c a IH]; simpl; [reflexivity | now rewrite IH]. Qed.

Lemma replace_char_clean (a : string) : clean a = true -> replace_char "/" "-" a = a.
Proof.
  induction a as [|c a IH]; simpl; [reflexivity|].
  intros H. apply andb_true_iff in H as [H1 H2]. apply andb_true_iff in H1 as [_ H1].
  apply negb_true_iff in H1. rewrite H1. now rewrite IH.
Qed.

(** Over a clean text the replacement of white space copies; what
    follows is read as after a character that is no white space, unless
    the text is empty. *)
Lemma replace_space_runs_clean (a t : string) (r : bool) :
  clean a = true ->
  replace_space_runs r (a ++ t) =
  a ++ replace_space_runs (match a with EmptyString => r | _ => false end) t.
Proof.
  revert r. induction a as [|c a IH]; intros r H; simpl; [reflexivity|].
  simpl in H. apply andb_true_iff in H as [H1 H2]. apply andb_true_iff in H1 as [H1 _].
  apply negb_true_iff in H1. rewrite H1. f_equal. rewrite IH by exact H2.
  now destruct a.
Qed.

Lemma replace_space_runs_hyphen (t : string) (r : bool) :
  replace_space_runs r (String "-" t) = String "-" (replace_space_runs false t).
Proof. reflexivity. Qed.

(** The result of the encoding is clean. *)
Lemma replace_space_runs_result_clean (s : string) (r : bool) :
  clean (replace_space_runs r (replace_char "/" "-" s)) = true.
Proof.
  revert r. induction s as [|c s IH]; intros r; simpl; [reflexivity|].
  destruct (Ascii.eqb c "/") eqn:E; simpl; [apply IH|].
  destruct (is_space c) eqn:Es.
  - destruct r; simpl; apply IH.
  - simpl. rewrite Es, E. simpl. apply IH.
Qed.

Lemma substring_all (s : string) : String.substring 0 (String.length s) s = s.
Proof. induction s as [|c s IH]; simpl; [reflexivity | now rewrite IH]. Qed.

Lemma substring_tail (c : ascii) (s : string) :
  String.substring 1 (String.length (String c s) - 1) (String c s) = s.
Proof. simpl. rewrite Nat.sub_0_r. apply substring_all. Qed.

(** Splitting at hyphens and joining with hyphens gives the text back,
    and keeps the parts clean. *)
Lemma split_on_nonempty (sep : ascii) (s : string) : split_on sep s <> [].
Proof.
  destruct s as [|c s]; simpl; [discriminate|].
  destruct (Ascii.eqb c sep); [discriminate|]. now destruct (split_on sep s).
Qed.

Lemma join_split_on (s : string) : join "-" (split_on "-" s) = s.
Proof.
  unfold join. induction s as [|c s IH]; simpl; [reflexivity|].
  destruct (Ascii.eqb c "-") eqn:E.
  - apply Ascii.eqb_eq in E. subst c.
    pose proof (split_on_nonempty "-" s) as Hne.
    destruct (split_on "-" s) as [|x xs]; [contradiction|].
    simpl. simpl in IH. now rewrite IH.
  - pose proof (split_on_nonempty "-" s) as Hne.
    destruct (split_on "-" s) as [|x xs]; [contradiction|].
    simpl in *. destruct xs; simpl in *; now rewrite <- IH.
Qed.

Lemma split_on_clean (s : string) :
  clean s = true -> Forall (fun x => clean x = true) (split_on "-" s).
Proof.
  induction s as [|c s IH]; simpl; intros H; [now repeat constructor|].
  apply andb_true_iff in H as [H1 H2]. specialize (IH H2).
  destruct (Ascii.eqb c "-").
  - now constructor.
  - pose proof (split_on_nonempty "-" s) as Hne.
    destruct (split_on "-" s) as [|x xs]; [contradiction|].
    inversion IH as [|? ? Hx Hxs]; subst. constructor; [|exact Hxs].
    simpl. now rewrite H1, Hx.
Qed.

Lemma take_drop_while (A : Type) (p : A -> bool) (l : list A) :
  (take_while p l ++ drop_while p l)%list = l.
Proof.
  induction l as [|x l IH]; simpl; [reflexivity|].
  destruct (p x); simpl; [now rewrite IH | reflexivity].
Qed.

Lemma drop_while_length (A : Type) (p : A -> bool) (l : list A) :
  (length (drop_while p l) <= length l)%nat.
Proof.
  induction l as [|x l IH]; simpl; [lia|]. destruct (p x); simpl; lia.
Qed.

Lemma take_while_Forall (A : Type) (p : A -> bool) (l : list A) :
  Forall (fun x => p x = true) (take_while p l).
Proof.
  induction l as [|x l IH]; simpl; [constructor|].
  destruct (p x) eqn:E; now constructor.
Qed.

Lemma hyphenated_prefixed_cons (x : string) (l : list string) :
  hyphenated (prefixed "/" (x :: l)) =
  String "-" (replace_space_runs false (replace_char "/" "-" x
                                        ++ replace_char "/" "-" (prefixed "/" l))).
Proof.
  unfold hyphenated. simpl. now rewrite replace_char_app.
Qed.

Lemma hyphenated_clean_cons (x : string) (l : list string) :
  clean x = true ->
  hyphenated (prefixed "/" (x :: l)) = "-" ++ x ++ hyphenated (prefixed "/" l).
Proof.
  intros Hx. rewrite hyphenated_prefixed_cons, (replace_char_clean x Hx).
  rewrite replace_space_runs_clean by exact Hx. simpl. f_equal. f_equal.
  unfold hyphenated. destruct x; [reflexivity|]. reflexivity.
Qed.

Lemma hyphenated_clean_list (g l : list string) :
  Forall (fun x => clean x = true) g ->
  hyphenated (prefixed "/" (g ++ l)) = prefixed "-" g ++ hyphenated (prefixed "/" l).
Proof.
  induction 1 as [|x g Hx Hg IH]; [reflexivity|].
  change ((x :: g) ++ l)%list with (x :: (g ++ l))%list.
  rewrite hyphenated_clean_cons by exact Hx. rewrite IH. simpl.
  now rewrite !append_assoc.
Qed.

Lemma last_two (A : Type) (G : list A) :
  (2 <= length G)%nat ->
  exists front x y,
    G = (front ++ [x; y])%list
    /\ List.firstn (length G - 2) G = front
    /\ List.skipn (length G - 2) G = [x; y].
Proof.
  intros Hlen. exists (List.firstn (length G - 2) G).
  pose proof (List.firstn_skipn (length G - 2) G) as Hsplit.
  assert (length (List.skipn (length G - 2) G) = 2)%nat as H2
    by (rewrite List.length_skipn; lia).
  destruct (List.skipn (length G - 2) G) as [|x [|y [|z t]]]; try discriminate.
  exists x, y. now rewrite Hsplit.
Qed.

Lemma capitalized_nonempty (s : string) : capitalized s = true -> s <> "".
Proof. now destruct s. Qed.

(** Two clean parts joined by a space come out joined by a hyphen. *)
Lemma hyphenated_pair (a b : string) (l : list string) :
  clean a = true -> clean b = true -> a <> "" -> b <> "" ->
  hyphenated (prefixed "/" ((a ++ " " ++ b) :: l)) =
  "-" ++ a ++ "-" ++ b ++ hyphenated (prefixed "/" l).
Proof.
  intros Ha Hb Hna Hnb. rewrite hyphenated_prefixed_cons.
  rewrite !replace_char_app, (replace_char_clean a Ha), (replace_char_clean b Hb).
  simpl. f_equal. rewrite append_assoc.
  rewrite replace_space_runs_clean by exact Ha.
  destruct a as [|ca a]; [contradiction|]. f_equal. simpl.
  change (String " " (b ++ ?t)) with (String " " (b ++ t)). simpl. f_equal.
  rewrite replace_space_runs_clean by exact Hb.
  destruct b as [|cb b]; [contradiction|]. reflexivity.
Qed.

Lemma join_clean (g : list string) :
  Forall (fun x => clean x = true) g -> clean (join "-" g) = true.
Proof.
  unfold join. induction 1 as [|x g Hx Hg IH]; [reflexivity|].
  destruct g as [|y g]; [exact Hx|].
  change (String.concat "-" (x :: y :: g)) with (x ++ "-" ++ String.concat "-" (y :: g)).
  rewrite clean_app, Hx. simpl. exact IH.
Qed.

Lemma hyphenated_front_pair (front : list string) (x y : string) (l : list string) :
  Forall (fun x => clean x = true) (front ++ [x; y]) ->
  Forall (fun x => capitalized x = true) (front ++ [x; y]) ->
  hyphenated (prefixed "/" ((front ++ [join " " [x; y]]) ++ l)) =
  prefixed "-" (front ++ [x; y]) ++ hyphenated (prefixed "/" l).
Proof.
  intros Hclean Hcap.
  apply List.Forall_app in Hclean as [Hcf Hcxy].
  apply List.Forall_app in Hcap as [_ Hpxy].
  inversion Hcxy as [|? ? Hcx Hcy']; subst. inversion Hcy' as [|? ? Hcy _]; subst.
  inversion Hpxy as [|? ? Hpx Hpy']; subst. inversion Hpy' as [|? ? Hpy _]; subst.
  rewrite <- List.app_assoc, hyphenated_clean_list by exact Hcf.
  rewrite (prefixed_app "-" front [x; y]), append_assoc. f_equal.
  change ([join " " [x; y]] ++ l)%list with ((x ++ " " ++ y) :: l).
  rewrite hyphenated_pair; try assumption; try now apply capitalized_nonempty.
  simpl. now rewrite ?append_assoc, ?append_nil_r.
Qed.

(** What a run of capitalized parts adds to the decoded path is
    hyphenated to the parts of the run. *)
Lemma hyphenated_capitalized (g l : list string) :
  Forall (fun x => clean x = true) g ->
  Forall (fun x => capitalized x = true) g ->
  g <> [] ->
  hyphenated (prefixed "/" (capitalized_result g ++ l)) =
  prefixed "-" g ++ hyphenated (prefixed "/" l).
Proof.
  intros Hclean Hcap Hne. unfold capitalized_result.
  destruct g as [|a g]; [contradiction|].
  destruct g as [|b g].
  - inversion Hclean; subst. simpl app. rewrite hyphenated_clean_cons by assumption.
    simpl. now rewrite !append_assoc.
  - cbv beta iota zeta. set (G := a :: b :: g) in *.
    destruct (last_two _ G) as (front & x & y & HG & Hf & Hs); [subst G; simpl; lia|].
    rewrite Hf, Hs. clear Hf Hs Hne. clearbody G. subst G.
    now apply hyphenated_front_pair.
Qed.

Lemma decode_segments_step (fuel : nat) (segment : string) (rest : list string) :
  decode_segments (S fuel) (segment :: rest) =
  if (String.length segment =? 1)%nat then segment :: decode_segments fuel rest
  else if capitalized segment
       then (capitalized_result (segment :: take_while capitalized rest)
             ++ decode_segments fuel (drop_while capitalized rest))%list
       else join "-" (segment :: take_while lowercase rest)
            :: decode_segments fuel (drop_while lowercase rest).
Proof. reflexivity. Qed.

Lemma decode_segments_hyphenated (fuel : nat) :
  forall segments,
    (length segments <= fuel)%nat ->
    Forall (fun x => clean x = true) segments ->
    hyphenated (prefixed "/" (decode_segments fuel segments)) = prefixed "-" segments.
Proof.
  induction fuel as [|fuel IH]; intros segments Hlen Hclean.
  - destruct segments; [reflexivity | simpl in Hlen; lia].
  - destruct segments as [|segment rest]; [reflexivity|].
    inversion Hclean as [|? ? Hseg Hrest]; subst. simpl in Hlen.
    rewrite decode_segments_step.
    destruct (String.length segment =? 1)%nat.
    + rewrite hyphenated_clean_cons by exact Hseg.
      rewrite IH by (assumption || lia). reflexivity.
    + destruct (capitalized segment) eqn:Ecap.
      * pose proof (take_drop_while _ capitalized rest) as Hsplit.
        assert (Forall (fun x => clean x = true) (take_while capitalized rest)
                /\ Forall (fun x => clean x = true) (drop_while capitalized rest))
          as [Hct Hcd] by (rewrite <- Hsplit in Hrest; now apply List.Forall_app in Hrest).
        rewrite hyphenated_capitalized.
        -- rewrite IH; [| pose proof (drop_while_length _ capitalized rest); lia | exact Hcd].
           rewrite <- prefixed_app. simpl app. now rewrite Hsplit.
        -- now constructor.
        -- constructor; [exact Ecap | apply take_while_Forall].
        -- discriminate.
      * pose proof (take_drop_while _ lowercase rest) as Hsplit.
        assert (Forall (fun x => clean x = true) (take_while lowercase rest)
                /\ Forall (fun x => clean x = true) (drop_while lowercase rest))
          as [Hct Hcd] by (rewrite <- Hsplit in Hrest; now apply List.Forall_app in Hrest).
        rewrite hyphenated_clean_cons by (apply join_clean; now constructor).
        rewrite IH; [| pose proof (drop_while_length _ lowercase rest); lia | exact Hcd].
        rewrite <- append_assoc.
        rewrite <- (prefixed_join "-" segment (take_while lowercase rest)).
        rewrite <- prefixed_app. simpl app. now rewrite Hsplit.
Qed.

(** A name that starts with a hyphen and is clean after it is the
    encoding of the path it is decoded to. *)
Lemma encode_decode_name (w : string) :
  clean w = true ->
  encodeProjectName (smartDecodeProjectName (String "-" w)) = String "-" w.
Proof.
  intros Hw. unfold smartDecodeProjectName.
  rewrite (startsWith_app "-" w : startsWith (String "-" w) "-" = true).
  rewrite substring_tail.
  pose proof (split_on_nonempty "-" w) as Hne.
  pose proof (split_on_clean w Hw) as Hclean.
  pose proof (join_split_on w) as Hj.
  remember (split_on "-" w) as segments eqn:Hsegs. clear Hsegs.
  pose proof (decode_segments_hyphenated (length segments) segments (le_n _) Hclean) as Hd.
  destruct segments as [|s0 ss] eqn:Es; [contradiction|].
  rewrite (prefixed_join "-" s0 ss), Hj in Hd. rewrite <- Es in *. clear Es.
  destruct (decode_segments (length segments) segments) as [|d0 ds] eqn:Ed.
  { simpl in Hd. discriminate. }
  rewrite (prefixed_join "/" d0 ds) in Hd.
  unfold encodeProjectName.
  change ("/" ++ join "/" (d0 :: ds)) with (String "/" (join "/" (d0 :: ds))) in *.
  rewrite (startsWith_app "/" _ : startsWith (String "/" (join "/" (d0 :: ds))) "/" = true).
  rewrite substring_tail.
  change (hyphenated (String "/" (join "/" (d0 :: ds))))
    with (String "-" (replace_space_runs false (replace_char "/" "-" (join "/" (d0 :: ds)))))
    in Hd.
  exact Hd.
Qed.

(** C8, amended. Encoding a path, decoding the name and encoding the
    result gives the name again: the decoded path is one of the paths
    that the name stands for, though it need not be the path the name
    was made from. *)
Theorem C8_decoded_path_encodes_to_same_name (absolutePath : string) :
  encodeProjectName (smartDecodeProjectName (encodeProjectName absolutePath)) =
  encodeProjectName absolutePath.
Proof.
  unfold encodeProjectName at 2 3.
  set (projectName := if startsWith absolutePath "/" then _ else _).
  change ("-" ++ ?t) with (String "-" t).
  apply encode_decode_name. apply replace_space_runs_result_clean.
Qed.

End ProjectNames.

Section ProjectDirectory.
Import Projects.
#[local] Open Scope Z_scope.

(** C7, as stated, fails: [/srv/new] accounts for two of the nine
    observations, less than a quarter, and is chosen all the same, since
    two is at least a quarter of seven, the count of the most frequent
    directory. *)
Lemma C7_counterexample :
  fst (extractProjectDirectory [] [] (Some [cwdLog]) "-srv-old") = "/srv/new"
  /\ occurrences (observations [cwdLog]) "/srv/new" = 2
  /\ occurrences (observations [cwdLog]) "/srv/old" = 7
  /\ Z.of_nat (length (observations [cwdLog])) = 9.
Proof. repeat split; reflexivity. Qed.

Lemma obj_get_set (V : Type) (k k' : string) (v : V) (o : list (string * V)) :
  obj_get k' (obj_set k v o) = if String.eqb k' k then Some v else obj_get k' o.
Proof.
  induction o as [|[k2 w] o IH]; simpl.
  - now destruct (String.eqb k' k).
  - destruct (String.eqb k k2) eqn:E; simpl.
    + apply String.eqb_eq in E. subst k2. now destruct (String.eqb k' k).
    + rewrite IH. destruct (String.eqb k' k) eqn:E'; [|reflexivity].
      apply String.eqb_eq in E'. subst k'. now rewrite E.
Qed.

Lemma occurrences_snoc (obs : list (string * Z)) (o : string * Z) (c : string) :
  occurrences (obs ++ [o]) c =
  occurrences obs c + (if String.eqb c (fst o) then 1 else 0).
Proof.
  unfold occurrences. rewrite List.map_app, count_occ_app. simpl.
  destruct (string_dec (fst o) c) as [->|Hne].
  - rewrite String.eqb_refl. lia.
  - destruct (String.eqb c (fst o)) eqn:E; [|lia].
    apply String.eqb_eq in E. congruence.
Qed.

Lemma occurrences_nonneg (obs : list (string * Z)) (c : string) : 0 <= occurrences obs c.
Proof. unfold occurrences. lia. Qed.

Lemma occurrences_pos (obs : list (string * Z)) (c : string) :
  0 < occurrences obs c <-> In c (List.map fst obs).
Proof.
  unfold occurrences. rewrite (count_occ_In string_dec). lia.
Qed.

Lemma observe_ok (st : CwdScan) (seen : list (string * Z)) (o : string * Z) :
  scan_ok st seen -> scan_ok (observe st o) (seen ++ [o]).
Proof.
  intros (Hnd & Hget & Hpos & Hall & Hlatest).
  assert (List.NoDup (List.map fst (obj_set (fst o)
            (num_or (obj_get (fst o) (cwdCounts st)) 0 + 1) (cwdCounts st)))) as Hnd'
    by now apply obj_set_NoDup.
  assert (forall c, obj_get c (obj_set (fst o)
            (num_or (obj_get (fst o) (cwdCounts st)) 0 + 1) (cwdCounts st)) =
            if occurrences (seen ++ [o]) c =? 0 then None
            else Some (occurrences (seen ++ [o]) c)) as Hget'.
  { intros c. rewrite obj_get_set, occurrences_snoc.
    pose proof (occurrences_nonneg seen c) as Hc.
    destruct (String.eqb c (fst o)) eqn:E.
    - apply String.eqb_eq in E. subst c. rewrite Hget.
      destruct (occurrences seen (fst o) =? 0) eqn:E0.
      + apply Z.eqb_eq in E0. rewrite E0. reflexivity.
      + apply Z.eqb_neq in E0. unfold num_or.
        rewrite (proj2 (Z.eqb_neq _ _) E0).
        destruct (occurrences seen (fst o) + 1 =? 0) eqn:E1; [|reflexivity].
        apply Z.eqb_eq in E1. lia.
    - rewrite Z.add_0_r. apply Hget. }
  unfold observe. destruct (latestTimestamp st <? snd o) eqn:Elt.
  - apply Z.ltb_lt in Elt. repeat split; simpl; try assumption.
    + lia.
    + apply List.Forall_app. split.
      * eapply List.Forall_impl; [|exact Hall]. simpl. intros a Ha. lia.
      * repeat constructor. lia.
    + exists seen, []. repeat split.
      * now destruct o.
      * lia.
      * eapply List.Forall_impl; [|exact Hall]. simpl. intros a Ha. lia.
  - apply Z.ltb_ge in Elt. repeat split; simpl; try assumption.
    + apply List.Forall_app. split; [exact Hall|]. now repeat constructor.
    + destruct (latestCwd st) as [c|]; [|exact Hlatest].
      destruct Hlatest as (pre & post & -> & Ht & Hpre).
      exists pre, (post ++ [o])%list. repeat split; try assumption.
      now rewrite <- List.app_assoc.
Qed.

Lemma scan_fold_ok (obs : list (string * Z)) :
  forall st seen, scan_ok st seen -> scan_ok (List.fold_left observe obs st) (seen ++ obs).
Proof.
  induction obs as [|o obs IH]; intros st seen H; simpl.
  - now rewrite List.app_nil_r.
  - replace (seen ++ o :: obs)%list with ((seen ++ [o]) ++ obs)%list
      by now rewrite <- List.app_assoc.
    apply IH. now apply observe_ok.
Qed.

Lemma scan_cwds_ok (files : list File) : scan_ok (scan_cwds files) (observations files).
Proof.
  unfold scan_cwds. apply (scan_fold_ok (observations files) (mkCwdScan [] 0 None) []).
  repeat split; simpl; try constructor. lia.
Qed.

Lemma scan_ok_latest (st : CwdScan) (seen : list (string * Z)) :
  scan_ok st seen -> latest_observed seen (latestCwd st).
Proof.
  intros (_ & _ & _ & Hall & Hlatest). unfold latest_observed.
  destruct (latestCwd st) as [c|].
  - destruct Hlatest as (pre & post & -> & Ht & Hpre).
    exists pre, (latestTimestamp st), post. repeat split; try assumption.
    apply List.Forall_app in Hall as [_ Hall]. now inversion Hall.
  - now rewrite Hlatest in Hall.
Qed.

Lemma fold_max_ge (l : list Z) : forall a, a <= List.fold_left Z.max l a.
Proof.
  induction l as [|x l IH]; intros a; simpl; [lia|].
  specialize (IH (Z.max a x)). lia.
Qed.

Lemma fold_max_spec (l : list Z) :
  forall a,
    (List.fold_left Z.max l a = a \/ In (List.fold_left Z.max l a) l)
    /\ Forall (fun x => x <= List.fold_left Z.max l a) l.
Proof.
  induction l as [|x l IH]; intros a; simpl.
  - split; [now left | constructor].
  - destruct (IH (Z.max a x)) as [Hin Hall]. split.
    + destruct Hin as [Heq | Hin]; [|right; now right].
      rewrite Heq. destruct (Z.max_spec a x) as [[_ ->] | [_ ->]]; [right; now left | now left].
    + constructor; [|exact Hall].
      pose proof (fold_max_ge l (Z.max a x)). lia.
Qed.

(** [Math.max] of a list that is not empty is its greatest element. *)
Lemma maxOf_spec (l : list Z) :
  l <> [] -> In (maxOf l) l /\ Forall (fun x => x <= maxOf l) l.
Proof.
  destruct l as [|v vs]; [contradiction|]. intros _. unfold maxOf.
  destruct (fold_max_spec vs v) as [Hin Hall]. split.
  - destruct Hin as [-> | Hin]; [now left | now right].
  - constructor; [apply fold_max_ge | exact Hall].
Qed.

Lemma obj_get_In (V : Type) (k : string) (v : V) (o : list (string * V)) :
  List.NoDup (List.map fst o) -> In (k, v) o -> obj_get k o = Some v.
Proof.
  induction o as [|[k' w] o IH]; simpl; [tauto|].
  intros Hnd [Heq | Hin].
  - injection Heq as -> ->. now rewrite String.eqb_refl.
  - destruct (String.eqb k k') eqn:E.
    + apply String.eqb_eq in E. subst k'. apply NoDup_cons_iff in Hnd as [Hnot _].
      exfalso. apply Hnot. apply in_map_iff. now exists (k, v).
    + apply IH; [|exact Hin]. now apply NoDup_cons_iff in Hnd.
Qed.

(** The count that the scan holds for a directory is the number of its
    observations. *)
Lemma scan_ok_count (st : CwdScan) (seen : list (string * Z)) (c : string) :
  scan_ok st seen -> num_or (obj_get c (cwdCounts st)) 0 = occurrences seen c.
Proof.
  intros (_ & Hget & _). rewrite Hget.
  destruct (occurrences seen c =? 0) eqn:E; simpl.
  - apply Z.eqb_eq in E. now rewrite E.
  - now rewrite E.
Qed.

Lemma scan_ok_entry (st : CwdScan) (seen : list (string * Z)) (c : string) (n : Z) :
  scan_ok st seen -> In (c, n) (cwdCounts st) -> n = occurrences seen c /\ 0 < n.
Proof.
  intros (Hnd & Hget & _) Hin. apply (obj_get_In _ _ _ _ Hnd) in Hin.
  rewrite Hget in Hin. destruct (occurrences seen c =? 0) eqn:E; [discriminate|].
  injection Hin as <-. apply Z.eqb_neq in E. pose proof (occurrences_nonneg seen c). lia.
Qed.

Lemma scan_ok_key (st : CwdScan) (seen : list (string * Z)) (c : string) :
  scan_ok st seen -> In c (List.map fst seen) -> In (c, occurrences seen c) (cwdCounts st).
Proof.
  intros (_ & Hget & _) Hin. apply occurrences_pos in Hin.
  apply obj_get_Some_In. rewrite Hget.
  destruct (occurrences seen c =? 0) eqn:E; [|reflexivity]. apply Z.eqb_eq in E. lia.
Qed.

Lemma choose_cwd_many (projectName : string) (st : CwdScan) (x y : string * Z)
    (rest : list (string * Z)) :
  cwdCounts st = x :: y :: rest ->
  choose_cwd projectName st =
  let mostRecentCount :=
    match latestCwd st with
    | Some c => num_or (obj_get c (cwdCounts st)) 0
    | None => 0
    end in
  let maxCount := maxOf (List.map snd (cwdCounts st)) in
  match (if maxCount <=? 4 * mostRecentCount then latestCwd st
         else option_map fst (js_find (fun kv => snd kv =? maxCount) (cwdCounts st))) with
  | Some p => p
  | None => match latestCwd st with
            | Some c => c
            | None => smartDecodeProjectName projectName
            end
  end.
Proof. intros E. unfold choose_cwd. rewrite E. now destruct x, y. Qed.

(** C7, amended. The cache and the configuration do not settle the
    path, and the log entries show at least two directories.  With [m]
    the count of the most frequent directory, [extractProjectDirectory]
    selects the latest observed directory when its count is at least a
    quarter of [m], and otherwise, or when no entry has a time after 0,
    a directory of count [m]. *)
Theorem C7_latest_if_quarter_of_greatest_count
    (cache : list (string * string)) (config : list (string * ProjectConfig))
    (files : list File) (projectName c1 c2 : string) :
  obj_get projectName cache = None ->
  originalPathOf config projectName = None ->
  c1 <> c2 ->
  In c1 (List.map fst (observations files)) ->
  In c2 (List.map fst (observations files)) ->
  let obs := observations files in
  let r := fst (extractProjectDirectory cache config (Some files) projectName) in
  exists m lc,
    (exists c, occurrences obs c = m) /\ (forall c, occurrences obs c <= m)
    /\ latest_observed obs lc
    /\ match lc with
       | Some c => if m <=? 4 * occurrences obs c then r = c else occurrences obs r = m
       | None => occurrences obs r = m
       end.
Proof.
  intros Hcache Hconf Hne H1 H2 obs r.
  pose proof (scan_cwds_ok files) as Hok. fold obs in Hok.
  set (st := scan_cwds files) in *.
  pose proof (scan_ok_key st obs c1 Hok H1) as K1.
  pose proof (scan_ok_key st obs c2 Hok H2) as K2.
  assert (r = choose_cwd projectName st) as Hr.
  { subst r. unfold extractProjectDirectory. rewrite Hcache, Hconf. simpl.
    destruct (jsonlFiles files) eqn:Ej; [|reflexivity].
    unfold obs, observations in H1. rewrite Ej in H1. destruct H1. }
  set (m := maxOf (List.map snd (cwdCounts st))).
  assert (cwdCounts st <> []) as Hnonempty by (intros E; rewrite E in K1; destruct K1).
  destruct (maxOf_spec (List.map snd (cwdCounts st))) as [Hmin Hmall].
  { intros E. apply Hnonempty. now destruct (cwdCounts st). }
  fold m in Hmin, Hmall.
  apply in_map_iff in Hmin as ([cm nm] & Hnm & Hcm). simpl in Hnm. subst nm.
  destruct (scan_ok_entry st obs cm m Hok Hcm) as [Hm Hmpos].
  assert (forall c, occurrences obs c <= m) as Hmax.
  { intros c. destruct (Z.eq_dec (occurrences obs c) 0) as [E|E]; [lia|].
    assert (In c (List.map fst obs)) as Hin
      by (apply occurrences_pos; pose proof (occurrences_nonneg obs c); lia).
    pose proof (scan_ok_key st obs c Hok Hin) as Hk.
    rewrite List.Forall_forall in Hmall. apply Hmall.
    apply in_map_iff. now exists (c, occurrences obs c). }
  assert (exists c', option_map fst (js_find (fun kv => snd kv =? m) (cwdCounts st)) = Some c'
                     /\ occurrences obs c' = m) as (cf & Hfind & Hcf).
  { unfold js_find. destruct (find (fun kv => snd kv =? m) (cwdCounts st)) as [[c' n']|] eqn:Ef.
    - apply find_some in Ef as [Hin Hn]. simpl in Hn. apply Z.eqb_eq in Hn. subst n'.
      exists c'. split; [reflexivity|].
      now destruct (scan_ok_entry st obs c' m Hok Hin) as [<- _].
    - exfalso. apply (find_none _ _ Ef) in Hcm. simpl in Hcm.
      now rewrite Z.eqb_refl in Hcm. }
  exists m, (latestCwd st). split; [now exists cm|]. split; [exact Hmax|].
  split; [now apply scan_ok_latest|].
  assert (exists x y rest, cwdCounts st = x :: y :: rest) as (x & y & rest & Ecounts).
  { destruct (cwdCounts st) as [|x [|y rest]]; [contradiction | | now eauto].
    exfalso. destruct K1 as [K1|[]]. destruct K2 as [K2|[]]. congruence. }
  rewrite Hr, (choose_cwd_many projectName st x y rest Ecounts). cbv zeta. fold m.
  destruct (latestCwd st) as [lc|] eqn:Elc.
  - rewrite (scan_ok_count st obs lc Hok).
    destruct (m <=? 4 * occurrences obs lc); [reflexivity|].
    now rewrite Hfind.
  - destruct (m <=? 4 * 0) eqn:E; [apply Z.leb_le in E; lia|].
    now rewrite Hfind.
Qed.

Lemma C7_witness :
  let obs := observations [cwdLog] in
  let r := fst (extractProjectDirectory [] [] (Some [cwdLog]) "-srv-old") in
  exists m lc,
    (exists c, occurrences obs c = m) /\ (forall c, occurrences obs c <= m)
    /\ latest_observed obs lc
    /\ match lc with
       | Some c => if m <=? 4 * occurrences obs c then r = c else occurrences obs r = m
       | None => occurrences obs r = m
       end.
Proof.
  apply (C7_latest_if_quarter_of_greatest_count [] [] [cwdLog] "-srv-old"
           "/srv/old" "/srv/new").
  - reflexivity.
  - reflexivity.
  - discriminate.
  - simpl. tauto.
  - simpl. tauto.
Defined.

End ProjectDirectory.

Section ProjectListing.
Import Projects.

Variable extracted : string -> string.
Variable sessionsOf : string -> SessionsResult.
Variable generatedName : string -> string -> string.
Variable config : list (string * ProjectConfig).

Lemma addDirectory_fold (entries : list (string * bool)) (st : Listing) :
  List.fold_left (addDirectory extracted sessionsOf generatedName config) entries st =
  addAll sessionsOf (dirCandidates extracted generatedName config entries) st.
Proof.
  unfold addAll, dirCandidates. revert st.
  induction entries as [|e entries IH]; intros st; simpl; [reflexivity|].
  unfold addDirectory at 2. destruct (snd e); simpl; apply IH.
Qed.

Lemma addConfigured_fold (existing : list string) (cfg : list (string * ProjectConfig))
    (st : Listing) :
  List.fold_left (addConfigured extracted sessionsOf generatedName config existing) cfg st =
  addAll sessionsOf (List.map (fun kc => newProject generatedName config (fst kc)
                                         (configuredPath extracted (fst kc) (snd kc)) true)
            (List.filter (fun kc => negb (List.existsb (String.eqb (fst kc)) existing)
                                    && cfg_manuallyAdded (snd kc)) cfg)) st.
Proof.
  unfold addAll. revert st.
  induction cfg as [|kc cfg IH]; intros st; simpl; [reflexivity|].
  unfold addConfigured at 2. destruct (_ && _); simpl; apply IH.
Qed.

(** The two loops run the duplicate detection over the candidates. *)
Lemma loops_addAll (entries : list (string * bool)) :
  List.fold_left
    (addConfigured extracted sessionsOf generatedName config
       (List.map fst (List.filter snd entries)))
    config
    (List.fold_left (addDirectory extracted sessionsOf generatedName config) entries
                    emptyListing) =
  addAll sessionsOf (candidates extracted generatedName config entries) emptyListing.
Proof.
  rewrite addDirectory_fold, addConfigured_fold. unfold addAll, candidates, cfgCandidates.
  now rewrite List.fold_left_app.
Qed.

Lemma kept_snoc (X : string) (cands : list Project) (p : Project) :
  kept sessionsOf X (cands ++ [p]) = keep_at sessionsOf X (kept sessionsOf X cands) p.
Proof. unfold kept. now rewrite List.fold_left_app. Qed.

Lemma kept_snoc_same (cands : list Project) (p : Project) :
  kept sessionsOf (fullPath p) (cands ++ [p]) = keep sessionsOf (kept sessionsOf (fullPath p) cands) p.
Proof. rewrite kept_snoc. unfold keep_at. now rewrite String.eqb_refl. Qed.

Lemma kept_snoc_other (X : string) (cands : list Project) (p : Project) :
  fullPath p <> X -> kept sessionsOf X (cands ++ [p]) = kept sessionsOf X cands.
Proof.
  intros H. rewrite kept_snoc. unfold keep_at.
  now rewrite (proj2 (String.eqb_neq _ _) H).
Qed.

(** ** The store *)

Lemma store_set_other (r r' : nat) (q : Project) (s : list Project) :
  r' <> r -> List.nth_error (store_set r q s) r' = List.nth_error s r'.
Proof.
  revert r r'. induction s as [|x s IH]; intros r r' H; [now destruct r|].
  destruct r as [|r], r' as [|r']; simpl; try reflexivity; try contradiction.
  apply IH. congruence.
Qed.

Lemma store_set_same (r : nat) (q x : Project) (s : list Project) :
  List.nth_error s r = Some x -> List.nth_error (store_set r q s) r = Some q.
Proof.
  revert r. induction s as [|y s IH]; intros r H; [now destruct r|].
  destruct r as [|r]; simpl; [reflexivity|]. now apply IH.
Qed.

Lemma nth_error_snoc_old (A : Type) (s : list A) (x y : A) (r : nat) :
  List.nth_error s r = Some x -> List.nth_error (s ++ [y]) r = Some x.
Proof.
  intros H. rewrite List.nth_error_app1; [exact H|].
  apply List.nth_error_Some. congruence.
Qed.

Lemma nth_error_snoc_new (A : Type) (s : list A) (y : A) :
  List.nth_error (s ++ [y]) (length s) = Some y.
Proof. rewrite List.nth_error_app2 by lia. now rewrite Nat.sub_diag. Qed.

Lemma nth_error_fresh (A : Type) (s : list A) (x : A) :
  List.nth_error s (length s) = Some x -> False.
Proof.
  intros H. assert (length s < length s)%nat; [|lia].
  apply List.nth_error_Some. congruence.
Qed.

(** Removing the first address that answers [p], when a single address of
    the list does. *)
Lemma remove_first_only (p : nat -> bool) (l : list nat) (r : nat) :
  List.NoDup l -> In r l -> p r = true ->
  (forall x, In x l -> p x = true -> x = r) ->
  List.NoDup (remove_first p l)
  /\ (forall x, In x (remove_first p l) <-> In x l /\ x <> r).
Proof.
  induction l as [|y l IH]; intros Hnd Hin Hp Huniq; [destruct Hin|].
  apply NoDup_cons_iff in Hnd as [Hy Hnd]. simpl.
  destruct (p y) eqn:Ey.
  - assert (y = r) as -> by (apply Huniq; [now left | exact Ey]).
    split; [exact Hnd|]. intros x. split.
    + intros Hx. split; [now right | congruence].
    + intros [[<- | Hx] Hne]; [contradiction | exact Hx].
  - destruct Hin as [-> | Hin]; [congruence|].
    destruct (IH Hnd Hin Hp) as [Hnd' Hiff].
    { intros x Hx. apply Huniq. now right. }
    split.
    + constructor; [|exact Hnd']. intros Hc. apply Hiff in Hc. tauto.
    + intros x. simpl. rewrite Hiff. split.
      * intros [<- | [Hx Hne]]; [|tauto]. split; [now left | congruence].
      * intros [[<- | Hx] Hne]; [now left | right; tauto].
Qed.

Lemma listing_ok_empty : listing_ok sessionsOf emptyListing [].
Proof.
  repeat split; simpl; try constructor; try tauto; try discriminate.
Qed.

Lemma in_names_snoc (done : list Project) (p : Project) (n : string) :
  In n (List.map name done) -> In n (List.map name (done ++ [p])).
Proof. intros H. rewrite List.map_app. apply in_app_iff. now left. Qed.

Lemma in_names_last (done : list Project) (p : Project) :
  In (name p) (List.map name (done ++ [p])).
Proof. rewrite List.map_app. apply in_app_iff. right. now left. Qed.

(** A project of a path that the map does not hold yet is pushed. *)
Lemma listing_ok_push (st : Listing) (done : list Project) (p p' : Project) :
  listing_ok sessionsOf st done ->
  ~ In (name p) (List.map name done) ->
  obj_get (fullPath p) (duplicateDetection st) = None ->
  name p' = name p -> fullPath p' = fullPath p ->
  keep sessionsOf (kept sessionsOf (fullPath p) done) p = Some p' ->
  listing_ok sessionsOf (mkListing (store st ++ [p']) (projects st ++ [length (store st)])
                        (obj_set (fullPath p) (length (store st)) (duplicateDetection st)))
             (done ++ [p]).
Proof.
  intros (I1 & I2 & I3 & I4 & I5) Hfresh Hnone Hname Hpath Hkeep.
  assert (forall r q, at_ref st r = Some q ->
            at_ref (mkListing (store st ++ [p']) (projects st ++ [length (store st)])
                      (obj_set (fullPath p) (length (store st)) (duplicateDetection st))) r
            = Some q) as Hold.
  { intros r q H. unfold at_ref in *. simpl. now apply nth_error_snoc_old. }
  assert (~ In (length (store st)) (projects st)) as Hnew.
  { intros Hin. destruct (I2 _ Hin) as (q & Hq & _). now apply nth_error_fresh in Hq. }
  unfold listing_ok. simpl. repeat split.
  - apply List.NoDup_app; [exact I1 | repeat constructor; intros [] |].
    intros x Hx [<- | []]. contradiction.
  - intros r Hr. apply in_app_iff in Hr as [Hr | [<- | []]].
    + destruct (I2 r Hr) as (q & Hq & Hd & Hn). exists q. repeat split.
      * now apply Hold.
      * rewrite obj_get_set. destruct (String.eqb (fullPath q) (fullPath p)) eqn:E; [|exact Hd].
        apply String.eqb_eq in E. rewrite E in Hd. congruence.
      * now apply in_names_snoc.
    + exists p'. repeat split.
      * unfold at_ref. simpl. apply nth_error_snoc_new.
      * rewrite Hpath, obj_get_set. now rewrite String.eqb_refl.
      * rewrite Hname. apply in_names_last.
  - rewrite obj_get_set in H. destruct (String.eqb X (fullPath p)) eqn:E.
    + injection H as <-. apply in_app_iff. right. now left.
    + destruct (I3 X r H) as [Hin _]. apply in_app_iff. now left.
  - rewrite obj_get_set in H. destruct (String.eqb X (fullPath p)) eqn:E.
    + injection H as <-. apply String.eqb_eq in E. subst X. exists p'. repeat split.
      * unfold at_ref. simpl. apply nth_error_snoc_new.
      * exact Hpath.
      * now rewrite kept_snoc_same.
    + apply String.eqb_neq in E. destruct (I3 X r H) as [_ (q & Hq & Hpq & Hk)].
      exists q. repeat split; [now apply Hold | exact Hpq |].
      rewrite kept_snoc_other by congruence. exact Hk.
  - intros X H. rewrite obj_get_set in H.
    destruct (String.eqb X (fullPath p)) eqn:E; [discriminate|].
    apply String.eqb_neq in E. rewrite kept_snoc_other by congruence. now apply I4.
  - intros r1 r2 p1 p2 H1 H2 A1 A2 Hn. unfold at_ref in A1, A2. simpl in A1, A2.
    apply in_app_iff in H1 as [H1 | [<- | []]]; apply in_app_iff in H2 as [H2 | [<- | []]].
    + destruct (I2 _ H1) as (q1 & Q1 & _). destruct (I2 _ H2) as (q2 & Q2 & _).
      rewrite (nth_error_snoc_old _ _ _ p' _ Q1) in A1.
      rewrite (nth_error_snoc_old _ _ _ p' _ Q2) in A2.
      injection A1 as <-. injection A2 as <-. now apply (I5 r1 r2 q1 q2).
    + destruct (I2 _ H1) as (q1 & Q1 & _ & Hn1).
      rewrite (nth_error_snoc_old _ _ _ p' _ Q1) in A1. injection A1 as <-.
      rewrite nth_error_snoc_new in A2. injection A2 as <-.
      exfalso. apply Hfresh. now rewrite <- Hname, <- Hn.
    + destruct (I2 _ H2) as (q2 & Q2 & _ & Hn2).
      rewrite (nth_error_snoc_old _ _ _ p' _ Q2) in A2. injection A2 as <-.
      rewrite nth_error_snoc_new in A1. injection A1 as <-.
      exfalso. apply Hfresh. now rewrite <- Hname, Hn.
    + reflexivity.
Qed.

(** A manually added project takes the place of the project of its path. *)
Lemma listing_ok_replace (st : Listing) (done : list Project) (p p' e : Project) (r : nat) :
  listing_ok sessionsOf st done ->
  ~ In (name p) (List.map name done) ->
  obj_get (fullPath p) (duplicateDetection st) = Some r ->
  at_ref st r = Some e ->
  name p' = name p -> fullPath p' = fullPath p ->
  keep sessionsOf (kept sessionsOf (fullPath p) done) p = Some p' ->
  listing_ok sessionsOf (mkListing (store st ++ [p'])
                        (remove_first (name_at st (name e)) (projects st)
                         ++ [length (store st)])
                        (obj_set (fullPath p) (length (store st)) (duplicateDetection st)))
             (done ++ [p]).
Proof.
  intros (I1 & I2 & I3 & I4 & I5) Hfresh Hsome He Hname Hpath Hkeep.
  destruct (I3 _ _ Hsome) as (Hr & e0 & He0 & Hpe & Hke).
  rewrite He in He0. injection He0 as <-.
  destruct (remove_first_only (name_at st (name e)) (projects st) r I1 Hr) as [Hnd Hiff].
  { unfold name_at. unfold at_ref in He. rewrite He. apply String.eqb_refl. }
  { intros x Hx Hnx. unfold name_at in Hnx.
    destruct (List.nth_error (store st) x) as [q|] eqn:Eq; [|discriminate].
    apply String.eqb_eq in Hnx. now apply (I5 x r q e). }
  set (rest := remove_first (name_at st (name e)) (projects st)) in *.
  assert (forall r0 q, at_ref st r0 = Some q ->
            at_ref (mkListing (store st ++ [p']) (rest ++ [length (store st)])
                      (obj_set (fullPath p) (length (store st)) (duplicateDetection st))) r0
            = Some q) as Hold.
  { intros r0 q H. unfold at_ref in *. simpl. now apply nth_error_snoc_old. }
  assert (~ In (length (store st)) rest) as Hnew.
  { intros Hin. apply Hiff in Hin as [Hin _].
    destruct (I2 _ Hin) as (q & Hq & _). now apply nth_error_fresh in Hq. }
  assert (forall r0 q, In r0 rest -> at_ref st r0 = Some q -> fullPath q <> fullPath p)
    as Hother.
  { intros r0 q Hin Hq Heq. apply Hiff in Hin as [Hin Hne]. apply Hne.
    destruct (I2 _ Hin) as (q' & Hq' & Hd & _). rewrite Hq in Hq'. injection Hq' as <-.
    rewrite Heq in Hd. congruence. }
  unfold listing_ok. simpl. repeat split.
  - apply List.NoDup_app; [exact Hnd | repeat constructor; intros [] |].
    intros x Hx [<- | []]. contradiction.
  - intros r0 Hr0. apply in_app_iff in Hr0 as [Hr0 | [<- | []]].
    + pose proof Hr0 as Hin. apply Hiff in Hin as [Hin Hne].
      destruct (I2 r0 Hin) as (q & Hq & Hd & Hn). exists q. repeat split.
      * now apply Hold.
      * rewrite obj_get_set.
        destruct (String.eqb (fullPath q) (fullPath p)) eqn:E; [|exact Hd].
        apply String.eqb_eq in E. now apply (Hother r0 q Hr0 Hq) in E.
      * now apply in_names_snoc.
    + exists p'. repeat split.
      * unfold at_ref. simpl. apply nth_error_snoc_new.
      * rewrite Hpath, obj_get_set. now rewrite String.eqb_refl.
      * rewrite Hname. apply in_names_last.
  - rewrite obj_get_set in H. destruct (String.eqb X (fullPath p)) eqn:E.
    + injection H as <-. apply in_app_iff. right. now left.
    + apply String.eqb_neq in E. destruct (I3 X r0 H) as [Hin (q & Hq & Hpq & _)].
      apply in_app_iff. left. apply Hiff. split; [exact Hin|].
      intros ->. unfold at_ref in *. rewrite He in Hq. injection Hq as <-. congruence.
  - rewrite obj_get_set in H. destruct (String.eqb X (fullPath p)) eqn:E.
    + injection H as <-. apply String.eqb_eq in E. subst X. exists p'. repeat split.
      * unfold at_ref. simpl. apply nth_error_snoc_new.
      * exact Hpath.
      * now rewrite kept_snoc_same.
    + apply String.eqb_neq in E. destruct (I3 X r0 H) as [_ (q & Hq & Hpq & Hk)].
      exists q. repeat split; [now apply Hold | exact Hpq |].
      rewrite kept_snoc_other by congruence. exact Hk.
  - intros X H. rewrite obj_get_set in H.
    destruct (String.eqb X (fullPath p)) eqn:E; [discriminate|].
    apply String.eqb_neq in E. rewrite kept_snoc_other by congruence. now apply I4.
  - intros r1 r2 p1 p2 H1 H2 A1 A2 Hn. unfold at_ref in A1, A2. simpl in A1, A2.
    apply in_app_iff in H1 as [H1 | [<- | []]]; apply in_app_iff in H2 as [H2 | [<- | []]].
    + apply Hiff in H1 as [H1 _]. apply Hiff in H2 as [H2 _].
      destruct (I2 _ H1) as (q1 & Q1 & _). destruct (I2 _ H2) as (q2 & Q2 & _).
      rewrite (nth_error_snoc_old _ _ _ p' _ Q1) in A1.
      rewrite (nth_error_snoc_old _ _ _ p' _ Q2) in A2.
      injection A1 as <-. injection A2 as <-. now apply (I5 r1 r2 q1 q2).
    + apply Hiff in H1 as [H1 _]. destruct (I2 _ H1) as (q1 & Q1 & _ & Hn1).
      rewrite (nth_error_snoc_old _ _ _ p' _ Q1) in A1. injection A1 as <-.
      rewrite nth_error_snoc_new in A2. injection A2 as <-.
      exfalso. apply Hfresh. now rewrite <- Hname, <- Hn.
    + apply Hiff in H2 as [H2 _]. destruct (I2 _ H2) as (q2 & Q2 & _ & Hn2).
      rewrite (nth_error_snoc_old _ _ _ p' _ Q2) in A2. injection A2 as <-.
      rewrite nth_error_snoc_new in A1. injection A1 as <-.
      exfalso. apply Hfresh. now rewrite <- Hname, Hn.
    + reflexivity.
Qed.

(** The project of the path stays, with the sessions it had or with those
    of the candidate merged into it. *)
Lemma listing_ok_update (st : Listing) (done : list Project) (p e e' : Project) (r : nat)
    (store' : list Project) :
  listing_ok sessionsOf st done ->
  obj_get (fullPath p) (duplicateDetection st) = Some r ->
  at_ref st r = Some e ->
  List.nth_error store' r = Some e' ->
  (forall r0, r0 <> r -> List.nth_error store' r0 = List.nth_error (store st) r0) ->
  name e' = name e -> fullPath e' = fullPath e ->
  keep sessionsOf (kept sessionsOf (fullPath p) done) p = Some e' ->
  listing_ok sessionsOf (mkListing store' (projects st) (duplicateDetection st)) (done ++ [p]).
Proof.
  intros (I1 & I2 & I3 & I4 & I5) Hsome He He' Hsame Hname Hpath Hkeep.
  destruct (I3 _ _ Hsome) as (Hr & e0 & He0 & Hpe & Hke).
  rewrite He in He0. injection He0 as <-.
  unfold listing_ok, at_ref in *. simpl. repeat split.
  - exact I1.
  - intros r0 Hr0. destruct (I2 r0 Hr0) as (q & Hq & Hd & Hn).
    destruct (Nat.eq_dec r0 r) as [-> | Hne].
    + rewrite He in Hq. injection Hq as <-. exists e'. repeat split.
      * exact He'.
      * rewrite Hpath. exact Hd.
      * rewrite Hname. now apply in_names_snoc.
    + exists q. repeat split; [now rewrite Hsame | exact Hd | now apply in_names_snoc].
  - now destruct (I3 X r0 H).
  - destruct (I3 X r0 H) as [_ (q & Hq & Hpq & Hk)].
    destruct (Nat.eq_dec r0 r) as [-> | Hne].
    + rewrite He in Hq. injection Hq as <-. exists e'. repeat split.
      * exact He'.
      * congruence.
      * assert (X = fullPath p) as -> by congruence.
        rewrite kept_snoc_same. exact Hkeep.
    + exists q. repeat split; [now rewrite Hsame | exact Hpq |].
      rewrite kept_snoc_other; [exact Hk|].
      intros Heq. apply Hne. rewrite <- Heq in H. congruence.
  - intros X H. rewrite kept_snoc_other; [now apply I4|].
    intros Heq. rewrite <- Heq in H. congruence.
  - intros r1 r2 p1 p2 H1 H2 A1 A2 Hn.
    destruct (I2 _ H1) as (q1 & Q1 & _). destruct (I2 _ H2) as (q2 & Q2 & _).
    apply (I5 r1 r2 q1 q2 H1 H2 Q1 Q2).
    assert (forall r0 q0 x, List.nth_error (store st) r0 = Some q0 ->
                            List.nth_error store' r0 = Some x -> name x = name q0) as Hnm.
    { intros r0 q0 x Hq0 Hx. destruct (Nat.eq_dec r0 r) as [-> | Hne].
      - rewrite He in Hq0. injection Hq0 as <-. rewrite He' in Hx. now injection Hx as <-.
      - rewrite Hsame in Hx by exact Hne. congruence. }
    rewrite <- (Hnm r1 q1 p1 Q1 A1), <- (Hnm r2 q2 p2 Q2 A2). exact Hn.
Qed.

(** One run of the duplicate detection keeps the listing in order. *)
Lemma addProject_ok (st : Listing) (done : list Project) (p : Project) :
  listing_ok sessionsOf st done ->
  ~ In (name p) (List.map name done) ->
  listing_ok sessionsOf (addProject sessionsOf p st) (done ++ [p]).
Proof.
  intros Hok Hfresh. unfold addProject.
  destruct (obj_get (fullPath p) (duplicateDetection st)) as [r|] eqn:Ed.
  - pose proof Hok as (_ & _ & I3 & _). destruct (I3 _ _ Ed) as (_ & e & He & Hpe & Hk).
    unfold at_ref in He. rewrite He.
    destruct (isManuallyAdded p && negb (isManuallyAdded e)) eqn:C1.
    + apply (listing_ok_replace st done p _ e r Hok Hfresh Ed He); try reflexivity.
      rewrite Hk. unfold keep. now rewrite C1.
    + destruct (negb (isManuallyAdded p) && isManuallyAdded e) eqn:C2.
      * destruct st as [sto prj dd]. simpl in *.
        apply (listing_ok_update (mkListing sto prj dd) done p e e r sto Hok Ed He He);
          try reflexivity.
        rewrite Hk. unfold keep. now rewrite C1, C2.
      * set (e' := with_sessions _ _ e).
        apply (listing_ok_update st done p e e' r (store_set r e' (store st)) Hok Ed He).
        -- now apply store_set_same with e.
        -- intros r0 Hne. now apply store_set_other.
        -- reflexivity.
        -- reflexivity.
        -- rewrite Hk. unfold keep. now rewrite C1, C2.
  - pose proof Hok as (_ & _ & _ & I4 & _).
    apply (listing_ok_push st done p _ Hok Hfresh Ed); try reflexivity.
    now rewrite (I4 _ Ed).
Qed.

Lemma addAll_ok (cands : list Project) :
  forall st done,
    listing_ok sessionsOf st done ->
    List.NoDup (List.map name (done ++ cands)) ->
    listing_ok sessionsOf (addAll sessionsOf cands st) (done ++ cands).
Proof.
  unfold addAll. induction cands as [|p cands IH]; intros st done Hok Hnd; simpl.
  - now rewrite List.app_nil_r.
  - replace (done ++ p :: cands) with ((done ++ [p]) ++ cands) in *
      by now rewrite <- List.app_assoc.
    apply IH; [|exact Hnd]. apply addProject_ok; [exact Hok|].
    rewrite !List.map_app in Hnd. apply NoDup_app_remove_r in Hnd.
    simpl in Hnd. intros Hin. apply NoDup_remove_2 in Hnd. apply Hnd.
    now rewrite List.app_nil_r.
Qed.

(** ** The list that is returned *)

Lemma listed_In (st : Listing) (q : Project) :
  In q (listed st) <-> exists r, In r (projects st) /\ at_ref st r = Some q.
Proof.
  unfold listed, at_ref. rewrite in_flat_map. split.
  - intros (r & Hr & Hq). exists r. split; [exact Hr|].
    destruct (List.nth_error (store st) r); [|destruct Hq].
    destruct Hq as [-> | []]. reflexivity.
  - intros (r & Hr & Hq). exists r. split; [exact Hr|]. rewrite Hq. now left.
Qed.

(** The listed projects are the projects kept for the paths. *)
Lemma listed_kept (st : Listing) (done : list Project) (q : Project) :
  listing_ok sessionsOf st done ->
  (In q (listed st) <-> exists X, kept sessionsOf X done = Some q).
Proof.
  intros (I1 & I2 & I3 & I4 & I5). rewrite listed_In. split.
  - intros (r & Hr & Hq). destruct (I2 r Hr) as (q' & Hq' & Hd & _).
    rewrite Hq in Hq'. injection Hq' as <-.
    destruct (I3 _ _ Hd) as (_ & q' & Hq' & _ & Hk).
    rewrite Hq in Hq'. injection Hq' as <-. now exists (fullPath q).
  - intros (X & Hk). destruct (obj_get X (duplicateDetection st)) as [r|] eqn:Ed.
    + destruct (I3 _ _ Ed) as (Hr & q' & Hq' & _ & Hk'). exists r. split; [exact Hr|].
      congruence.
    + rewrite (I4 _ Ed) in Hk. discriminate.
Qed.

Lemma listed_paths_NoDup (st : Listing) (done : list Project) :
  listing_ok sessionsOf st done -> List.NoDup (List.map fullPath (listed st)).
Proof.
  intros (I1 & I2 & _). unfold listed.
  induction (projects st) as [|r l IH]; simpl; [constructor|].
  apply NoDup_cons_iff in I1 as [Hr Hl].
  destruct (I2 r (or_introl eq_refl)) as (p & Hp & Hd & _).
  unfold at_ref in Hp. rewrite Hp. simpl. constructor.
  - intros Hin. apply in_map_iff in Hin as (q & Hpq & Hq).
    apply in_flat_map in Hq as (r2 & Hr2 & Hq).
    destruct (I2 r2 (or_intror Hr2)) as (q2 & Hq2 & Hd2 & _).
    unfold at_ref in Hq2. rewrite Hq2 in Hq. destruct Hq as [<- | []].
    rewrite Hpq in Hd2. assert (r = r2) by congruence. congruence.
  - apply IH; [exact Hl|]. intros r0 Hr0. apply I2. now right.
Qed.

(** ** Which candidate is kept for a path *)

Lemma keep_Some (rep : option Project) (p : Project) : exists q, keep sessionsOf rep p = Some q.
Proof.
  unfold keep. destruct rep as [e|]; [|eauto].
  destruct (_ && _); [eauto|]. destruct (_ && _); eauto.
Qed.

Lemma kept_None (X : string) (cands : list Project) :
  kept sessionsOf X cands = None -> forall c, In c cands -> fullPath c <> X.
Proof.
  induction cands as [|p cands IH] using rev_ind; intros Hk c Hc; [destruct Hc|].
  rewrite kept_snoc in Hk. unfold keep_at in Hk.
  destruct (String.eqb (fullPath p) X) eqn:E.
  - destruct (keep_Some (kept sessionsOf X cands) p) as (q & Hq). congruence.
  - apply in_app_iff in Hc as [Hc | [<- | []]]; [now apply IH|].
    now apply String.eqb_neq.
Qed.

Lemma kept_from (X : string) (cands : list Project) :
  forall q, kept sessionsOf X cands = Some q -> from_candidate X cands q.
Proof.
  induction cands as [|p cands IH] using rev_ind; intros q Hk; [discriminate|].
  rewrite kept_snoc in Hk. unfold keep_at in Hk.
  destruct (String.eqb (fullPath p) X) eqn:E.
  - apply String.eqb_eq in E. unfold keep in Hk.
    destruct (kept sessionsOf X cands) as [e|] eqn:Ek.
    + destruct (IH e eq_refl) as (pre & c & post & -> & Hc & He & Hn & Hm & Hpre & Hpost).
      destruct (isManuallyAdded p && negb (isManuallyAdded e)) eqn:C1.
      * apply andb_true_iff in C1 as [Cp Ce]. apply negb_true_iff in Ce.
        injection Hk as <-.
        exists (pre ++ c :: post), p, []. repeat apply conj; try assumption; try reflexivity.
        -- intros c' Hc' HX. split; [|exact Cp].
           apply in_app_iff in Hc' as [Hc' | [<- | Hc']].
           ++ now destruct (Hpre c' Hc' HX).
           ++ congruence.
           ++ destruct (isManuallyAdded c') eqn:Em; [|reflexivity].
              rewrite (Hpost c' Hc' HX Em) in Hm. congruence.
        -- intros c' [].
      * destruct (negb (isManuallyAdded p) && isManuallyAdded e) eqn:C2.
        -- injection Hk as <-. apply andb_true_iff in C2 as [Cp Ce].
           apply negb_true_iff in Cp.
           exists pre, c, (post ++ [p]). repeat apply conj; try assumption.
           ++ now rewrite <- List.app_assoc.
           ++ intros c' Hc' HX Hm'. apply in_app_iff in Hc' as [Hc' | [<- | []]].
              ** now apply (Hpost c').
              ** congruence.
        -- injection Hk as <-.
           exists pre, c, (post ++ [p]). repeat apply conj; try assumption.
           ++ now rewrite <- List.app_assoc.
           ++ intros c' Hc' HX Hm'. apply in_app_iff in Hc' as [Hc' | [<- | []]].
              ** now apply (Hpost c').
              ** rewrite <- Hm. destruct (isManuallyAdded e); [reflexivity|].
                 rewrite Hm' in C1. discriminate.
    + injection Hk as <-. exists cands, p, [].
      repeat apply conj; try assumption; try reflexivity.
      * intros c' Hc' HX. now apply (kept_None X cands Ek c') in HX.
      * intros c' [].
  - apply String.eqb_neq in E.
    destruct (IH q Hk) as (pre & c & post & -> & Hc & He & Hn & Hm & Hpre & Hpost).
    exists pre, c, (post ++ [p]). repeat apply conj; try assumption.
    + now rewrite <- List.app_assoc.
    + intros c' Hc' HX Hm'. apply in_app_iff in Hc' as [Hc' | [<- | []]].
      * now apply (Hpost c').
      * contradiction.
Qed.

Lemma kept_skip (X : string) (l : list Project) (rep : option Project) :
  (forall c, In c l -> fullPath c <> X) -> List.fold_left (keep_at sessionsOf X) l rep = rep.
Proof.
  revert rep. induction l as [|c l IH]; intros rep H; simpl; [reflexivity|].
  unfold keep_at at 2. rewrite (proj2 (String.eqb_neq _ _) (H c (or_introl eq_refl))).
  apply IH. intros c' Hc'. apply H. now right.
Qed.

(** The project kept for a path with two candidates. *)
Lemma kept_two (X : string) (l1 l2 l3 : list Project) (a b : Project) :
  (forall c, In c (l1 ++ l2 ++ l3) -> fullPath c <> X) ->
  fullPath a = X -> fullPath b = X ->
  kept sessionsOf X (l1 ++ a :: l2 ++ b :: l3) = keep sessionsOf (keep sessionsOf None a) b.
Proof.
  intros Hothers Ha Hb. unfold kept.
  rewrite List.fold_left_app, (kept_skip X l1 None)
    by (intros c Hin; apply Hothers; apply in_app_iff; now left).
  change (List.fold_left (keep_at sessionsOf X) (a :: l2 ++ b :: l3) None)
    with (List.fold_left (keep_at sessionsOf X) (l2 ++ b :: l3) (keep_at sessionsOf X None a)).
  rewrite List.fold_left_app, (kept_skip X l2)
    by (intros c Hin; apply Hothers; apply in_app_iff; right; apply in_app_iff; now left).
  change (List.fold_left (keep_at sessionsOf X) (b :: l3) (keep_at sessionsOf X None a))
    with (List.fold_left (keep_at sessionsOf X) l3
            (keep_at sessionsOf X (keep_at sessionsOf X None a) b)).
  rewrite (kept_skip X l3)
    by (intros c Hin; apply Hothers; apply in_app_iff; right; apply in_app_iff; now right).
  unfold keep_at. rewrite Ha, Hb. now rewrite String.eqb_refl.
Qed.

Lemma kept_is_Some (X : string) (cands : list Project) (c : Project) :
  In c cands -> fullPath c = X -> exists q, kept sessionsOf X cands = Some q.
Proof.
  intros Hc HX. destruct (kept sessionsOf X cands) as [q|] eqn:E; [eauto|].
  now apply (kept_None X cands E c) in HX.
Qed.

(** When a candidate of the path is manually added, so is the project
    kept. *)
Lemma kept_manual (X : string) (cands : list Project) (q m : Project) :
  kept sessionsOf X cands = Some q -> In m cands -> fullPath m = X -> isManuallyAdded m = true ->
  isManuallyAdded q = true
  /\ exists c, In c cands /\ fullPath c = X /\ isManuallyAdded c = true /\ name q = name c.
Proof.
  intros Hk Hm HX Hman.
  destruct (kept_from X cands q Hk) as (pre & c & post & -> & Hc & Hq & Hn & Hqm & Hpre & Hpost).
  assert (isManuallyAdded c = true) as Hcm.
  { apply in_app_iff in Hm as [Hm | [<- | Hm]].
    - destruct (Hpre m Hm HX) as [Hf _]. congruence.
    - exact Hman.
    - now apply (Hpost m Hm HX). }
  split; [congruence|]. exists c. repeat split; try assumption.
  apply in_app_iff. right. now left.
Qed.

Lemma same_name_same (cands : list Project) (a b : Project) :
  List.NoDup (List.map name cands) -> In a cands -> In b cands -> name a = name b -> a = b.
Proof.
  induction cands as [|c cands IH]; intros Hnd Ha Hb Hn; [destruct Ha|].
  simpl in Hnd. apply NoDup_cons_iff in Hnd as [Hc Hnd].
  destruct Ha as [<- | Ha], Hb as [<- | Hb]; try reflexivity.
  - exfalso. apply Hc. rewrite Hn. now apply in_map.
  - exfalso. apply Hc. rewrite <- Hn. now apply in_map.
  - now apply IH.
Qed.

Lemma first_at_unique (A : Type) (P : A -> Prop) (l1 l2 r1 r2 : list A) (a b : A) :
  l1 ++ a :: r1 = l2 ++ b :: r2 ->
  P a -> P b -> (forall x, In x l1 -> ~ P x) -> (forall x, In x l2 -> ~ P x) ->
  a = b.
Proof.
  revert l2. induction l1 as [|x l1 IH]; intros l2 Heq Pa Pb H1 H2.
  - destruct l2 as [|y l2]; simpl in Heq; [congruence|].
    injection Heq as -> _. exfalso. apply (H2 y); [now left | exact Pa].
  - destruct l2 as [|y l2]; simpl in Heq.
    + injection Heq as -> _. exfalso. apply (H1 b); [now left | exact Pb].
    + injection Heq as -> Heq. apply (IH l2 Heq Pa Pb).
      * intros z Hz. apply H1. now right.
      * intros z Hz. apply H2. now right.
Qed.

(** ** The candidates bear distinct names *)

Lemma NoDup_map_filter (A B : Type) (f : A -> B) (g : A -> bool) (l : list A) :
  List.NoDup (List.map f l) -> List.NoDup (List.map f (List.filter g l)).
Proof.
  induction l as [|x l IH]; simpl; intros H; [constructor|].
  apply NoDup_cons_iff in H as [Hx Hl]. destruct (g x); simpl; [|now apply IH].
  constructor; [|now apply IH]. intros Hin. apply Hx.
  apply in_map_iff in Hin as (y & Hy & Hin). apply filter_In in Hin as [Hin _].
  rewrite <- Hy. now apply in_map.
Qed.

Lemma candidates_names (entries : list (string * bool)) :
  List.map name (candidates extracted generatedName config entries) =
  List.map fst (List.filter snd entries)
  ++ List.map fst
       (List.filter
          (fun kc => negb (List.existsb (String.eqb (fst kc))
                                        (List.map fst (List.filter snd entries)))
                     && cfg_manuallyAdded (snd kc))
          config).
Proof.
  unfold candidates, dirCandidates, cfgCandidates.
  now rewrite List.map_app, !List.map_map.
Qed.

Lemma candidates_NoDup (entries : list (string * bool)) :
  List.NoDup (List.map fst (List.filter snd entries)) ->
  List.NoDup (List.map fst config) ->
  List.NoDup (List.map name (candidates extracted generatedName config entries)).
Proof.
  intros Hd Hc. rewrite candidates_names. apply List.NoDup_app.
  - exact Hd.
  - now apply NoDup_map_filter.
  - intros n Hn Hin. apply in_map_iff in Hin as (kc & <- & Hkc).
    apply filter_In in Hkc as [_ Hkc]. apply andb_true_iff in Hkc as [Hkc _].
    apply negb_true_iff in Hkc.
    assert (List.existsb (String.eqb (fst kc)) (List.map fst (List.filter snd entries)) = true)
      as Ht; [|congruence].
    apply existsb_exists. exists (fst kc). split; [exact Hn | apply String.eqb_refl].
Qed.

(** Every manually added entry of the configuration is a candidate. *)
Lemma manual_candidate (entries : list (string * bool)) (kc : string * ProjectConfig) :
  List.NoDup (List.map fst config) ->
  In kc config -> cfg_manuallyAdded (snd kc) = true ->
  exists m, In m (candidates extracted generatedName config entries)
            /\ name m = fst kc /\ isManuallyAdded m = true.
Proof.
  intros Hnd Hin Hman.
  destruct (List.existsb (String.eqb (fst kc)) (List.map fst (List.filter snd entries)))
    eqn:Ex.
  - apply existsb_exists in Ex as (n & Hn & Heq). apply String.eqb_eq in Heq. subst n.
    apply in_map_iff in Hn as (e & He & Hin').
    exists (newProject generatedName config (fst e) (extracted (fst e))
                       (manuallyAdded config (fst e))).
    repeat apply conj.
    + apply in_app_iff. left. unfold dirCandidates.
      apply in_map_iff. now exists e.
    + exact He.
    + simpl. unfold manuallyAdded. rewrite He.
      rewrite (obj_get_In _ (fst kc) (snd kc) config Hnd); [exact Hman|].
      now destruct kc.
  - exists (newProject generatedName config (fst kc)
                       (configuredPath extracted (fst kc) (snd kc)) true).
    repeat apply conj; try reflexivity.
    apply in_app_iff. right. unfold cfgCandidates. apply in_map_iff. exists kc.
    split; [reflexivity|]. apply filter_In. split; [exact Hin|]. now rewrite Ex, Hman.
Qed.

(** ** The safeguard *)

Lemma safeguard_idle (l : list (string * ProjectConfig)) (st : Listing) :
  (forall kc, In kc l -> cfg_manuallyAdded (snd kc) = true ->
              In (fst kc) (List.map name (listed st))) ->
  List.fold_left (addMissing generatedName config) l st = st.
Proof.
  induction l as [|kc l IH]; intros H; simpl; [reflexivity|].
  assert (addMissing generatedName config st kc = st) as ->.
  { unfold addMissing. destruct (cfg_manuallyAdded (snd kc)) eqn:Em; [|reflexivity].
    assert (List.existsb (fun p => String.eqb (name p) (fst kc)) (listed st) = true) as ->;
      [|reflexivity].
    apply existsb_exists. specialize (H kc (or_introl eq_refl) Em).
    apply in_map_iff in H as (q & Hq & Hin). exists q. split; [exact Hin|].
    now apply String.eqb_eq. }
  apply IH. intros kc' Hin. apply H. now right.
Qed.

(** ** At most one project for a path *)

Lemma getProjects_kept (entries : list (string * bool)) :
  List.NoDup (List.map fst (List.filter snd entries)) ->
  List.NoDup (List.map fst config) ->
  manual_paths_distinct (candidates extracted generatedName config entries) ->
  getProjects extracted sessionsOf generatedName config entries =
    listed (addAll sessionsOf (candidates extracted generatedName config entries) emptyListing)
  /\ listing_ok sessionsOf
       (addAll sessionsOf (candidates extracted generatedName config entries) emptyListing)
       (candidates extracted generatedName config entries).
Proof.
  intros Hd Hc Hm.
  pose proof (candidates_NoDup entries Hd Hc) as Hnd.
  pose proof (addAll_ok (candidates extracted generatedName config entries) emptyListing []
                        listing_ok_empty Hnd) as Hok.
  simpl in Hok. split; [|exact Hok].
  unfold getProjects. rewrite loops_addAll. f_equal. apply safeguard_idle.
  intros kc Hin Hman.
  destruct (manual_candidate entries kc Hc Hin Hman) as (m & Hmc & Hname & Hmm).
  destruct (kept_is_Some (fullPath m) (candidates extracted generatedName config entries) m
                         Hmc eq_refl) as (q & Hq).
  destruct (kept_manual _ _ q m Hq Hmc eq_refl Hmm) as (Hqm & c & Hcc & Hcp & Hcm & Hqn).
  apply in_map_iff. exists q. split.
  - rewrite Hqn, <- Hname. apply Hm; assumption.
  - apply (listed_kept _ _ q Hok). now exists (fullPath m).
Qed.

(** C5, amended. Let the candidates be the projects that [getProjects]
    builds, one for each directory and then one for each manually added
    entry of the configuration without a directory; the directories and
    the entries of the configuration bear distinct names.  If no two
    manually added candidates resolve to the same path, then:
    - the list returned holds at most one project for each [fullPath];
    - when an auto-discovered and a manually added candidate resolve to
      the same path, the list holds the manually added one and does not
      hold the auto-discovered one;
    - when these two are the only candidates of the path, the sessions of
      the project are those of both, the auto-discovered first, without
      the later duplicates of an identity, if the auto-discovered one was
      seen first, and those of the manually added one alone if that one
      was seen first;
    - of two auto-discovered candidates of a path without a manually added
      one, the list holds the first seen and not the other. *)
Theorem C5_getProjects_one_project_per_path (entries : list (string * bool)) :
  List.NoDup (List.map fst (List.filter snd entries)) ->
  List.NoDup (List.map fst config) ->
  manual_paths_distinct (candidates extracted generatedName config entries) ->
  let cands := candidates extracted generatedName config entries in
  let result := getProjects extracted sessionsOf generatedName config entries in
  List.NoDup (List.map fullPath result)
  /\ (forall a m,
        In a cands -> In m cands -> fullPath a = fullPath m ->
        isManuallyAdded a = false -> isManuallyAdded m = true ->
        (exists q, In q result /\ name q = name m /\ fullPath q = fullPath m
                   /\ isManuallyAdded q = true)
        /\ ~ In (name a) (List.map name result))
  /\ (forall l1 a l2 m l3,
        cands = l1 ++ a :: l2 ++ m :: l3 -> fullPath a = fullPath m ->
        isManuallyAdded a = false -> isManuallyAdded m = true ->
        (forall c, In c (l1 ++ l2 ++ l3) -> fullPath c <> fullPath m) ->
        exists q, In q result /\ name q = name m
                  /\ projectSessions q =
                       uniqueSessions (sessions (sessionsOf (name a))
                                       ++ sessions (sessionsOf (name m))))
  /\ (forall l1 m l2 a l3,
        cands = l1 ++ m :: l2 ++ a :: l3 -> fullPath a = fullPath m ->
        isManuallyAdded a = false -> isManuallyAdded m = true ->
        (forall c, In c (l1 ++ l2 ++ l3) -> fullPath c <> fullPath m) ->
        exists q, In q result /\ name q = name m
                  /\ projectSessions q = sessions (sessionsOf (name m)))
  /\ (forall l1 a1 l2 a2 l3,
        cands = l1 ++ a1 :: l2 ++ a2 :: l3 -> fullPath a1 = fullPath a2 ->
        (forall c, In c l1 -> fullPath c <> fullPath a1) ->
        (forall c, In c cands -> fullPath c = fullPath a1 -> isManuallyAdded c = false) ->
        In (name a1) (List.map name result) /\ ~ In (name a2) (List.map name result)).
Proof.
  intros Hd Hc Hm cands result.
  destruct (getProjects_kept entries Hd Hc Hm) as [Hres Hok].
  pose proof (candidates_NoDup entries Hd Hc) as Hnd.
  fold cands in Hok, Hnd, Hm. subst result. rewrite Hres.
  set (st := addAll sessionsOf cands emptyListing) in *.
  assert (forall q, In q (listed st) <-> exists X, kept sessionsOf X cands = Some q) as Hlisted
    by (intros q; now apply listed_kept).
  (* a listed project with the name of a candidate is the project kept for
     the path of that candidate *)
  assert (forall q c, In q (listed st) -> In c cands -> name q = name c ->
                      kept sessionsOf (fullPath c) cands = Some q
                      /\ isManuallyAdded q = isManuallyAdded c) as Hbyname.
  { intros q c Hq Hcin Hn. apply Hlisted in Hq as (X & Hk).
    destruct (kept_from X cands q Hk) as (pre & c' & post & E & Hc' & Hq' & Hn' & Hm' & _).
    assert (c' = c) as ->.
    { apply (same_name_same cands); try assumption; [|congruence].
      rewrite E. apply in_app_iff. right. now left. }
    rewrite Hc'. now split. }
  repeat apply conj.
  - now apply listed_paths_NoDup with cands.
  - intros a m Ha Hmin Hpath Haa Hmm.
    destruct (kept_is_Some (fullPath m) cands m Hmin eq_refl) as (q & Hq).
    destruct (kept_manual _ _ q m Hq Hmin eq_refl Hmm) as (Hqm & c & Hcc & Hcp & Hcm & Hqn).
    split.
    + exists q. repeat apply conj.
      * apply Hlisted. now exists (fullPath m).
      * rewrite Hqn. now apply Hm.
      * now destruct (kept_from _ _ q Hq) as (_ & _ & _ & _ & _ & ? & _).
      * exact Hqm.
    + intros Hin. apply in_map_iff in Hin as (q' & Hn' & Hq').
      destruct (Hbyname q' a Hq' Ha Hn') as [Hk' Hm'].
      rewrite Hpath in Hk'. congruence.
  - intros l1 a l2 m l3 E Hpath Haa Hmm Hothers.
    set (q := with_sessions
                (uniqueSessions (sessions (sessionsOf (name a))
                                 ++ sessions (sessionsOf (name m))))
                (Z.of_nat (length (uniqueSessions (sessions (sessionsOf (name a))
                                                   ++ sessions (sessionsOf (name m))))))
                m).
    exists q. repeat apply conj; try reflexivity.
    apply Hlisted. exists (fullPath m). rewrite E.
    rewrite (kept_two (fullPath m) l1 l2 l3 a m Hothers Hpath eq_refl).
    unfold keep. simpl. now rewrite Hmm, Haa.
  - intros l1 m l2 a l3 E Hpath Haa Hmm Hothers.
    exists (with_sessions (sessions (sessionsOf (name m))) (total (sessionsOf (name m))) m).
    repeat apply conj; try reflexivity.
    apply Hlisted. exists (fullPath m). rewrite E.
    rewrite (kept_two (fullPath m) l1 l2 l3 m a Hothers eq_refl Hpath).
    unfold keep. simpl. now rewrite Hmm, Haa.
  - intros l1 a1 l2 a2 l3 E Hpath Hfirst Hauto.
    assert (In a1 cands) as Ha1 by (rewrite E; apply in_app_iff; right; now left).
    assert (In a2 cands) as Ha2.
    { rewrite E. apply in_app_iff. right. right. apply in_app_iff. right. now left. }
    destruct (kept_is_Some (fullPath a1) cands a1 Ha1 eq_refl) as (q & Hq).
    destruct (kept_from _ _ q Hq) as (pre & c & post & E' & Hcp & Hqp & Hqn & Hqm & Hpre & _).
    assert (a1 = c) as <-.
    { apply (first_at_unique _ (fun x => fullPath x = fullPath a1) l1 pre
               (l2 ++ a2 :: l3) post a1 c); try assumption; try reflexivity.
      - congruence.
      - intros x Hx HX. destruct (Hpre x Hx HX) as [_ Hcm].
        rewrite (Hauto c) in Hcm; [discriminate | | exact Hcp].
        rewrite E'. apply in_app_iff. right. now left. }
    split.
    + apply in_map_iff. exists q. split; [exact Hqn|]. apply Hlisted. now exists (fullPath a1).
    + intros Hin. apply in_map_iff in Hin as (q' & Hn' & Hq').
      destruct (Hbyname q' a2 Hq' Ha2 Hn') as [Hk' _].
      rewrite <- Hpath in Hk'. assert (q' = q) as -> by congruence.
      assert (name a1 = name a2) as Hsame by congruence.
      rewrite E, List.map_app in Hnd. apply NoDup_app_remove_l in Hnd.
      simpl in Hnd. apply NoDup_cons_iff in Hnd as [Hnot _]. apply Hnot.
      rewrite Hsame, List.map_app. apply in_app_iff. right. now left.
Qed.

End ProjectListing.

Section ProjectListingExamples.
Import Projects.

(** C5, as stated, fails.  When the manually added project is met first,
    the auto-discovered one of the same path is skipped and its session
    [s1] is not merged; it is merged when the auto-discovered one is met
    first.  And two manually added entries of one path are both in the
    list, the second put back by the last loop. *)
Lemma C5_counterexample :
  List.map outline (getProjectsOnDisk noClock noPackage handConfig handFirst)
    = [("-srv-c++", "/srv/c++", true, [])]
  /\ List.map outline (getProjectsOnDisk noClock noPackage handConfig autoFirst)
     = [("-srv-c++", "/srv/c++", true, ["s1"])]
  /\ List.map outline (getProjectsOnDisk noClock noPackage twiceConfig [])
     = [("-srv-app", "/srv/app", true, []); ("srv-app", "/srv/app", true, [])].
Proof. repeat split; vm_compute; reflexivity. Qed.
Lemma C5_witness :
  List.NoDup (List.map fullPath (getProjectsOnDisk noClock noPackage handConfig autoFirst))
  /\ List.map outline (getProjectsOnDisk noClock noPackage handConfig autoFirst)
     = [("-srv-c++", "/srv/c++", true, ["s1"])].
Proof.
  split; [|vm_compute; reflexivity].
  refine (proj1 (C5_getProjects_one_project_per_path
                   (fun n => fst (extractProjectDirectory [] handConfig
                                    (projectDir autoFirst n) n))
                   (fun n => getSessions (noClock n) (projectDir autoFirst n) 5 0)
                   (generateDisplayName noPackage)
                   handConfig
                   [("-srv-c--", true); ("-srv-c++", true)] _ _ _)).
  - repeat constructor; simpl; intros H; repeat destruct H as [H|H]; discriminate || exact H.
  - repeat constructor; simpl; intros H; repeat destruct H as [H|H]; discriminate || exact H.
  - intros p q Hp Hq Mp Mq _.
    destruct Hp as [<- | [<- | []]]; destruct Hq as [<- | [<- | []]];
      reflexivity || discriminate.
Defined.

End ProjectListingExamples.

(** * Further properties of the server *)

Section EmptyProjects.
Import Projects.

Lemma noContent_spec (jsonl : list File) :
  noContent jsonl = true <-> forall f, In f jsonl -> fileLines f = [].
Proof.
  induction jsonl as [|f rest IH]; simpl.
  - split; [intros _ f [] | reflexivity].
  - destruct (fileLines f) eqn:E.
    + rewrite IH. split.
      * intros H g [<- | Hg]; [exact E | now apply H].
      * intros H g Hg. apply H. now right.
    + split; [discriminate|]. intros H. specialize (H f (or_introl eq_refl)).
      rewrite E in H. discriminate.
Qed.

Lemma nonblank_nil (l : list Line) :
  nonblank l = [] -> forall ln, In ln l -> is_blank (raw ln) = true.
Proof.
  unfold nonblank. intros H ln Hin.
  destruct (is_blank (raw ln)) eqn:E; [reflexivity|].
  assert (In ln (List.filter (fun ln => negb (is_blank (raw ln))) l)) as Hf
    by (apply filter_In; split; [exact Hin | now rewrite E]).
  rewrite H in Hf. destruct Hf.
Qed.

Lemma parse_lines_blank (clock : nat -> Z) (l : list Line) :
  nonblank l = [] ->
  forall i acc, parse_lines clock i l acc = acc.
Proof.
  intros H. pose proof (nonblank_nil l H) as Hb. clear H.
  induction l as [|ln l IH]; intros i acc; simpl; [reflexivity|].
  unfold parse_line. rewrite (Hb ln) by now left.
  apply IH. intros x Hx. apply Hb. now right.
Qed.

Lemma parseJsonlSessions_blank (clock : nat -> Z) (f : File) :
  fileLines f = [] -> parseJsonlSessions clock f = [].
Proof.
  intros H. unfold parseJsonlSessions. now rewrite parse_lines_blank.
Qed.

Lemma scan_files_blank (clock : string -> nat -> Z) (limit offset : Z) (nfiles : nat)
    (files : list File) :
  (forall f, In f files -> fileLines f = []) ->
  forall c, scan_files clock limit offset nfiles files [] c = [].
Proof.
  induction files as [|f rest IH]; intros H c; simpl; [reflexivity|].
  rewrite parseJsonlSessions_blank by (apply H; now left). simpl.
  destruct (_ && _); [reflexivity|]. apply IH. intros g Hg. apply H. now right.
Qed.

Lemma session_entries_blank (sessionId : string) (f : File) :
  fileLines f = [] -> session_entries sessionId f = [].
Proof. unfold session_entries, fileLines. now intros ->. Qed.

Lemma flat_map_nil (A B : Type) (g : A -> list B) (l : list A) :
  (forall x, In x l -> g x = []) -> List.flat_map g l = [].
Proof.
  induction l as [|x l IH]; simpl; intros H; [reflexivity|].
  rewrite (H x) by now left. apply IH. intros y Hy. apply H. now right.
Qed.

Lemma js_slice_nil (A : Type) (start stop : Z) : js_slice start stop (@nil A) = [].
Proof.
  unfold js_slice. rewrite List.skipn_nil. apply List.firstn_nil.
Qed.

Lemma empty_getSessions (clock : string -> nat -> Z) (dir : option (list File))
    (limit offset : Z) :
  isProjectEmpty dir = true ->
  sessions (getSessions clock dir limit offset) = []
  /\ total (getSessions clock dir limit offset) = 0%Z.
Proof.
  destruct dir as [files|]; simpl; [|now split]. intros H.
  pose proof (proj1 (noContent_spec _) H) as Hb. clear H. rename Hb into H.
  destruct (jsonlFiles files) as [|f js] eqn:E; [now split|].
  rewrite <- E in *. rewrite scan_files_blank.
  - simpl. now rewrite js_slice_nil.
  - intros g Hg. apply H. eapply Permutation_in; [apply js_sort_perm | exact Hg].
Qed.

Lemma empty_getSessionMessages (dir : option (list File)) (sessionId : string) :
  isProjectEmpty dir = true -> getSessionMessages dir sessionId = [].
Proof.
  unfold getSessionMessages. destruct (startsWith sessionId "temp-"); [reflexivity|].
  destruct dir as [files|]; simpl; [|reflexivity]. intros H.
  pose proof (proj1 (noContent_spec _) H) as Hb. clear H. rename Hb into H.
  destruct (jsonlFiles files) as [|f js] eqn:E; [reflexivity|].
  rewrite <- E in *. rewrite flat_map_nil; [reflexivity|].
  intros g Hg. apply session_entries_blank. now apply H.
Qed.

Lemma js_find_none (A : Type) (p : A -> bool) (l : list A) :
  (forall x, In x l -> p x = false) -> js_find p l = None.
Proof.
  unfold js_find. induction l as [|x l IH]; simpl; intros H; [reflexivity|].
  rewrite (H x) by now left. apply IH. intros y Hy. apply H. now right.
Qed.

Lemma hasSession_blank (sessionId : string) (f : File) :
  fileLines f = [] -> hasSession sessionId f = false.
Proof. unfold hasSession. now intros ->. Qed.

(** X1. A project that [isProjectEmpty] finds empty has nothing to show:
    [getSessions] returns no session and the total 0 for every page,
    [getSessionMessages] returns no message for every identity, and
    [deleteSession] throws for every identity that is no placeholder. *)
Theorem X1_empty_project_has_no_sessions
    (clock : string -> nat -> Z) (dir : option (list File)) (limit offset now : Z)
    (sessionId : string) :
  isProjectEmpty dir = true ->
  sessions (getSessions clock dir limit offset) = []
  /\ total (getSessions clock dir limit offset) = 0%Z
  /\ getSessionMessages dir sessionId = []
  /\ (startsWith sessionId "temp-" = false ->
      exists e, deleteSession now dir sessionId = (Threw e, dir)).
Proof.
  intros H. destruct (empty_getSessions clock dir limit offset H) as [H1 H2].
  repeat apply conj; [exact H1 | exact H2 | now apply empty_getSessionMessages |].
  intros Ht. unfold deleteSession. rewrite Ht.
  destruct dir as [files|]; [|now exists DirectoryMissing].
  simpl in H. pose proof (proj1 (noContent_spec _) H) as Hb. clear H. rename Hb into H.
  destruct (jsonlFiles files) as [|f js] eqn:E; [now exists NoSessionFiles|].
  rewrite <- E in *.
  assert (js_find (hasSession sessionId) (jsonlFiles files) = None) as ->.
  { apply js_find_none. intros g Hg. apply hasSession_blank. now apply H. }
  now exists NotFoundInAnyFile.
Qed.

Lemma X1_witness :
  sessions (getSessions (noClock "") (Some blankDir) 5 0) = []
  /\ total (getSessions (noClock "") (Some blankDir) 5 0) = 0%Z
  /\ getSessionMessages (Some blankDir) "s1" = []
  /\ (startsWith "s1" "temp-" = false ->
      exists e, deleteSession 9 (Some blankDir) "s1" = (Threw e, Some blankDir)).
Proof.
  apply (X1_empty_project_has_no_sessions (noClock "") (Some blankDir) 5 0 9 "s1").
  reflexivity.
Defined.

Lemma unlink_present (n : string) (files : list File) :
  In n (List.map fileName files) ->
  unlink n files = Some (List.filter (fun g => negb (String.eqb (fileName g) n)) files).
Proof.
  intros H. unfold unlink, js_some.
  assert (List.existsb (fun g => String.eqb (fileName g) n) files = true) as ->; [|reflexivity].
  apply existsb_exists. apply in_map_iff in H as (g & Hg & Hin).
  exists g. split; [exact Hin|]. now apply String.eqb_eq.
Qed.

Lemma filter_filter (A : Type) (p q : A -> bool) (l : list A) :
  List.filter q (List.filter p l) = List.filter (fun x => p x && q x) l.
Proof.
  induction l as [|x l IH]; simpl; [reflexivity|].
  destruct (p x); simpl; [|exact IH]. destruct (q x); now rewrite IH.
Qed.

Lemma unlink_fold (js : list File) :
  List.NoDup (List.map fileName js) ->
  forall cur c,
    (forall f, In f js -> In (fileName f) (List.map fileName cur)) ->
    List.fold_left unlinkNext js (cur, c) =
      (List.filter (fun g => negb (List.existsb (String.eqb (fileName g))
                                                (List.map fileName js))) cur,
       (c + Z.of_nat (length js))%Z).
Proof.
  induction js as [|f js IH]; intros Hnd cur c Hin.
  - simpl. f_equal; [|lia]. induction cur as [|g cur IHc]; simpl; [reflexivity|].
    now rewrite <- IHc.
  - simpl in Hnd. apply NoDup_cons_iff in Hnd as [Hf Hnd].
    cbn [List.fold_left]. unfold unlinkNext at 2. cbn [fst snd].
    rewrite unlink_present by (apply Hin; now left).
    rewrite IH; [|exact Hnd|].
    + rewrite filter_filter. f_equal; [|cbn [length]; lia].
      apply List.filter_ext. intros g. cbn [List.map List.existsb].
      now rewrite negb_orb.
    + intros g Hg. specialize (Hin g (or_intror Hg)).
      apply in_map_iff in Hin as (h & Hh & Hhin). apply in_map_iff.
      exists h. split; [exact Hh|]. apply filter_In. split; [exact Hhin|].
      apply negb_true_iff. apply String.eqb_neq. intros Heq. apply Hf.
      rewrite <- Heq, Hh. now apply in_map.
Qed.

Lemma jsonlFiles_removed (files : list File) :
  List.filter (fun g => negb (List.existsb (String.eqb (fileName g))
                                           (List.map fileName (jsonlFiles files)))) files
  = List.filter (fun g => negb (endsWith (fileName g) ".jsonl")) files.
Proof.
  apply List.filter_ext_in. intros g Hg. f_equal.
  destruct (endsWith (fileName g) ".jsonl") eqn:E.
  - apply existsb_exists. exists (fileName g). split; [|apply String.eqb_refl].
    apply in_map. apply filter_In. now split.
  - destruct (List.existsb _ _) eqn:E'; [|reflexivity].
    apply existsb_exists in E' as (n & Hn & Heq). apply String.eqb_eq in Heq. subst n.
    apply in_map_iff in Hn as (h & Hh & Hhin). apply filter_In in Hhin as [_ Hh'].
    rewrite Hh in Hh'. congruence.
Qed.

Lemma jsonlFiles_none (files : list File) :
  jsonlFiles (List.filter (fun g => negb (endsWith (fileName g) ".jsonl")) files) = [].
Proof.
  unfold jsonlFiles. rewrite filter_filter.
  induction files as [|g files IH]; simpl; [reflexivity|].
  now destruct (endsWith (fileName g) ".jsonl").
Qed.

(** X2. In a directory, where no two files bear the same name,
    [deleteAllSessions] removes the files whose name ends in [.jsonl] and
    no other, and counts them; the project is empty afterwards, and a
    second call finds nothing to delete. *)
Theorem X2_deleteAllSessions_removes_the_logs (files : list File) :
  List.NoDup (List.map fileName files) ->
  let r := deleteAllSessions (Some files) in
  snd r = Some (List.filter (fun g => negb (endsWith (fileName g) ".jsonl")) files)
  /\ success (fst r) = true
  /\ deletedCount (fst r) = Z.of_nat (length (jsonlFiles files))
  /\ isProjectEmpty (snd r) = true
  /\ deleteAllSessions (snd r) = (mkDeleteAllResult true 0, snd r).
Proof.
  intros Hnd r.
  assert (snd r = Some (List.filter (fun g => negb (endsWith (fileName g) ".jsonl")) files)
          /\ success (fst r) = true
          /\ deletedCount (fst r) = Z.of_nat (length (jsonlFiles files))) as (H1 & H2 & H3).
  { subst r. unfold deleteAllSessions.
    destruct (jsonlFiles files) as [|f js] eqn:E.
    - simpl. repeat apply conj; try reflexivity. f_equal.
      rewrite <- jsonlFiles_removed, E. simpl.
      induction files as [|g l IHl]; simpl; [reflexivity|]. f_equal.
      apply IHl.
      + simpl in Hnd. now apply NoDup_cons_iff in Hnd as [_ ?].
      + unfold jsonlFiles in *. simpl in E.
        destruct (endsWith (fileName g) ".jsonl"); [discriminate | exact E].
    - rewrite <- E. rewrite unlink_fold.
      + cbn [fst snd success deletedCount]. rewrite jsonlFiles_removed.
        repeat apply conj; reflexivity.
      + unfold jsonlFiles. now apply NoDup_map_filter.
      + intros g Hg. apply in_map. unfold jsonlFiles in Hg.
        now apply filter_In in Hg as [? _]. }
  repeat apply conj; try assumption.
  - rewrite H1. simpl. now rewrite jsonlFiles_none.
  - rewrite H1. unfold deleteAllSessions. now rewrite jsonlFiles_none.
Qed.

Lemma X2_witness :
  snd (deleteAllSessions (Some demoDir)) = Some [mkFile "notes.txt" 5 [emptyLine]]
  /\ deletedCount (fst (deleteAllSessions (Some demoDir))) = 2%Z.
Proof.
  pose proof (X2_deleteAllSessions_removes_the_logs demoDir) as H.
  simpl in H. destruct H as (H1 & _ & H3 & _).
  - repeat constructor; simpl; intros H; repeat destruct H as [H|H]; discriminate || exact H.
  - split; [exact H1 | exact H3].
Defined.

End EmptyProjects.

Section Cleanup.
Import Projects.

Variable config : list (string * ProjectConfig).

Lemma rm_get (n m : string) (disk : Disk) :
  obj_get n (rm m disk) = if String.eqb n m then None else obj_get n disk.
Proof.
  unfold rm. induction disk as [|[k v] disk IH]; simpl.
  - now destruct (String.eqb n m).
  - destruct (String.eqb k m) eqn:E; simpl.
    + apply String.eqb_eq in E. subst k. rewrite IH.
      destruct (String.eqb n m); reflexivity.
    + rewrite IH. destruct (String.eqb n k) eqn:E'; [|reflexivity].
      apply String.eqb_eq in E'. subst k. now rewrite E.
Qed.

Lemma projectDir_rm (n m : string) (disk : Disk) :
  projectDir (rm m disk) n = if String.eqb n m then None else projectDir disk n.
Proof. unfold projectDir. rewrite rm_get. now destruct (String.eqb n m). Qed.

(** A directory read after some turns of the loop is as it was, or is gone
    and was empty. *)
Lemma cleanup_fold_dir (l : list (string * option (list File))) (disk : Disk) :
  forall d,
    (forall n, projectDir d n = projectDir disk n
               \/ (projectDir d n = None /\ isProjectEmpty (projectDir disk n) = true)) ->
    forall n,
      projectDir (List.fold_left (cleanupNext config) l d) n = projectDir disk n
      \/ (projectDir (List.fold_left (cleanupNext config) l d) n = None
          /\ isProjectEmpty (projectDir disk n) = true).
Proof.
  induction l as [|e l IH]; intros d Hd; [exact Hd|].
  cbn [List.fold_left]. apply IH. intros n.
  unfold cleanupNext. destruct (snd e); [|apply Hd].
  destruct (projectDir d (fst e)) as [files|] eqn:E; [|apply Hd].
  destruct (noContent (jsonlFiles files) && startsWith (fst e) "-") eqn:C; [|apply Hd].
  destruct (shouldKeep config (fst e)); [apply Hd|].
  rewrite projectDir_rm. destruct (String.eqb n (fst e)) eqn:N; [|apply Hd].
  apply String.eqb_eq in N. subst n. right. split; [reflexivity|].
  destruct (Hd (fst e)) as [<- | [H _]]; [|congruence].
  rewrite E. simpl. now apply andb_true_iff in C as [? _].
Qed.

Lemma cleanup_dir (disk : Disk) (n : string) :
  projectDir (cleanupEmptyProjectDirectories config disk) n = projectDir disk n
  \/ (projectDir (cleanupEmptyProjectDirectories config disk) n = None
      /\ isProjectEmpty (projectDir disk n) = true).
Proof. apply cleanup_fold_dir. intros m. now left. Qed.

Lemma observations_blank (files : list File) :
  noContent (jsonlFiles files) = true -> observations files = [].
Proof.
  intros H. pose proof (proj1 (noContent_spec _) H) as Hb.
  unfold observations. apply flat_map_nil. intros f Hf.
  unfold file_observations. fold (fileLines f). now rewrite (Hb f Hf).
Qed.

Lemma empty_extractProjectDirectory (cache : list (string * string))
    (cfg : list (string * ProjectConfig)) (dir : option (list File)) (n : string) :
  isProjectEmpty dir = true ->
  extractProjectDirectory cache cfg dir n = extractProjectDirectory cache cfg None n.
Proof.
  intros H. unfold extractProjectDirectory.
  destruct (obj_get n cache); [reflexivity|].
  destruct (originalPathOf cfg n); [reflexivity|].
  destruct dir as [files|]; [|reflexivity]. simpl in H.
  destruct (jsonlFiles files) eqn:E; [reflexivity|]. rewrite <- E in H.
  unfold scan_cwds. rewrite observations_blank by exact H. reflexivity.
Qed.

Lemma empty_getSessions_default (clock : string -> nat -> Z) (dir : option (list File))
    (limit offset : Z) :
  isProjectEmpty dir = true -> (0 <= offset + limit)%Z ->
  getSessions clock dir limit offset = noSessions.
Proof.
  intros H Hpos. destruct dir as [files|]; [|reflexivity].
  simpl in H. pose proof (proj1 (noContent_spec _) H) as Hb.
  unfold getSessions. destruct (jsonlFiles files) as [|f js] eqn:E; [reflexivity|].
  rewrite <- E in *. rewrite scan_files_blank.
  - cbv zeta. simpl. rewrite js_slice_nil. unfold noSessions. f_equal.
    apply Z.ltb_ge. exact Hpos.
  - intros g Hg. apply Hb. eapply Permutation_in; [apply js_sort_perm | exact Hg].
Qed.

Lemma filter_id (A : Type) (p : A -> bool) (l : list A) :
  (forall x, In x l -> p x = true) -> List.filter p l = l.
Proof.
  induction l as [|x l IH]; simpl; intros H; [reflexivity|].
  rewrite (H x) by now left. f_equal. apply IH. intros y Hy. apply H. now right.
Qed.

Lemma entry_unique (V : Type) (d : list (string * V)) (x e : string * V) :
  List.NoDup (List.map fst d) -> In x d -> In e d -> fst x = fst e -> x = e.
Proof.
  intros Hd Hx He Heq. destruct x as [k v], e as [k' v']. simpl in Heq. subst k'.
  pose proof (obj_get_In V k v d Hd Hx) as H1.
  pose proof (obj_get_In V k v' d Hd He) as H2. congruence.
Qed.

Lemma cleanupNext_removable (d : Disk) (e : string * option (list File)) :
  List.NoDup (List.map fst d) -> In e d ->
  cleanupNext config d e = if removable config e then rm (fst e) d else d.
Proof.
  intros Hd Hin. unfold cleanupNext, removable. destruct e as [k [files|]]; simpl; [|reflexivity].
  unfold projectDir. rewrite (obj_get_In _ k (Some files) d Hd Hin).
  destruct (noContent (jsonlFiles files)); destruct (startsWith k "-");
    destruct (shouldKeep config k); reflexivity.
Qed.

Lemma cleanup_fold_filter (l : list (string * option (list File))) :
  forall d : Disk,
    List.NoDup (List.map fst d) -> List.NoDup (List.map fst l) ->
    (forall e, In e l -> In e d) ->
    List.fold_left (cleanupNext config) l d =
      List.filter (fun x => negb (removable config x
                                  && List.existsb (String.eqb (fst x)) (List.map fst l))) d.
Proof.
  induction l as [|e l IH]; intros d Hd Hl Hin.
  - simpl. symmetry. apply filter_id. intros x _. now rewrite andb_false_r.
  - cbn [List.fold_left]. rewrite cleanupNext_removable by (try apply Hin; auto; now left).
    simpl in Hl. apply NoDup_cons_iff in Hl as [He Hl].
    destruct (removable config e) eqn:R.
    + rewrite IH.
      * unfold rm. rewrite filter_filter. apply List.filter_ext_in. intros x Hx.
        cbn [List.map List.existsb].
        destruct (String.eqb (fst x) (fst e)) eqn:X; [|reflexivity].
        apply String.eqb_eq in X.
        rewrite (entry_unique _ d x e Hd Hx (Hin e (or_introl eq_refl)) X), R. reflexivity.
      * unfold rm. now apply NoDup_map_filter.
      * exact Hl.
      * intros e' He'. unfold rm. apply filter_In. split; [apply Hin; now right|].
        apply negb_true_iff. apply String.eqb_neq. intros Heq. apply He.
        rewrite <- Heq. now apply in_map.
    + rewrite IH; [|exact Hd | exact Hl | intros e' He'; apply Hin; now right].
      apply List.filter_ext_in. intros x Hx. cbn [List.map List.existsb].
      destruct (String.eqb (fst x) (fst e)) eqn:X; [|reflexivity].
      apply String.eqb_eq in X.
      rewrite (entry_unique _ d x e Hd Hx (Hin e (or_introl eq_refl)) X), R. reflexivity.
Qed.

Lemma shouldKeep_spec (n : string) :
  shouldKeep config n = true <-> exists c, In (n, c) config /\ cfg_manuallyAdded c = true.
Proof.
  unfold shouldKeep, js_some. rewrite existsb_exists. split.
  - intros ([k c] & Hin & H). simpl in H. apply andb_true_iff in H as [H1 H2].
    apply String.eqb_eq in H2. subst k. now exists c.
  - intros (c & Hin & H). exists (n, c). split; [exact Hin|]. simpl.
    now rewrite H, String.eqb_refl.
Qed.

(** X5. On a listing without repeated names,
    [cleanupEmptyProjectDirectories] removes the directories that have no
    non-blank line in a log file, whose name starts with a hyphen and is
    not that of a manually added project, and nothing else: a directory
    with a conversation, a directory of another name, the directory of a
    manually added project and every entry that is no directory stay, in
    their order. *)
Theorem X5_cleanup_removes_only_empty_auto_directories (disk : Disk) :
  List.NoDup (List.map fst disk) ->
  cleanupEmptyProjectDirectories config disk
    = List.filter (fun e => negb (removable config e)) disk
  /\ (forall n files,
        In (n, Some files) disk ->
        isProjectEmpty (Some files) = false \/ startsWith n "-" = false
        \/ (exists c, In (n, c) config /\ cfg_manuallyAdded c = true) ->
        In (n, Some files) (cleanupEmptyProjectDirectories config disk))
  /\ (forall n, In (n, None) disk ->
                In (n, None) (cleanupEmptyProjectDirectories config disk))
  /\ (forall n files,
        In (n, Some files) disk ->
        isProjectEmpty (Some files) = true -> startsWith n "-" = true ->
        (forall c, In (n, c) config -> cfg_manuallyAdded c = false) ->
        ~ In n (List.map fst (cleanupEmptyProjectDirectories config disk))).
Proof.
  intros Hnd.
  assert (cleanupEmptyProjectDirectories config disk
          = List.filter (fun e => negb (removable config e)) disk) as Heq.
  { unfold cleanupEmptyProjectDirectories.
    rewrite cleanup_fold_filter; [|exact Hnd | exact Hnd | auto].
    apply List.filter_ext_in. intros x Hx.
    assert (List.existsb (String.eqb (fst x)) (List.map fst disk) = true) as ->.
    { apply existsb_exists. exists (fst x). split; [now apply in_map | apply String.eqb_refl]. }
    now rewrite andb_true_r. }
  rewrite Heq. repeat apply conj; [reflexivity | | |].
  - intros n files Hin H. apply filter_In. split; [exact Hin|].
    unfold removable. simpl in *. destruct H as [H | [H | H]].
    + now rewrite H.
    + rewrite H. now rewrite andb_false_r.
    + apply shouldKeep_spec in H. rewrite H. now rewrite andb_false_r.
  - intros n Hin. apply filter_In. now split.
  - intros n files Hin He Hs Hc Habs.
    apply in_map_iff in Habs as ([k v] & Hk & Hf). simpl in Hk. subst k.
    apply filter_In in Hf as [Hf Hr].
    rewrite (entry_unique _ disk (n, v) (n, Some files) Hnd Hf Hin eq_refl) in Hr.
    unfold removable in Hr. simpl in Hr, He. rewrite He, Hs in Hr. simpl in Hr.
    destruct (shouldKeep config n) eqn:K; [|discriminate].
    apply shouldKeep_spec in K as (c & Hcin & Hm). rewrite (Hc c Hcin) in Hm. discriminate.
Qed.

(** X6. What [cleanupEmptyProjectDirectories] removes makes no difference
    to the readers: for every project name, [getSessions],
    [getSessionMessages] and [extractProjectDirectory] answer on the disk
    it leaves as they do on the disk it finds. *)
Theorem X6_cleanup_is_invisible_to_the_readers (disk : Disk) (n : string) :
  let before := projectDir disk n in
  let after := projectDir (cleanupEmptyProjectDirectories config disk) n in
  (forall clock limit offset,
     sessions (getSessions clock after limit offset)
       = sessions (getSessions clock before limit offset)
     /\ total (getSessions clock after limit offset)
        = total (getSessions clock before limit offset))
  /\ (forall clock, getSessions clock after 5 0 = getSessions clock before 5 0)
  /\ (forall sessionId, getSessionMessages after sessionId = getSessionMessages before sessionId)
  /\ (forall cache cfg,
        extractProjectDirectory cache cfg after n = extractProjectDirectory cache cfg before n).
Proof.
  intros before after. subst before after.
  destruct (cleanup_dir disk n) as [-> | [-> He]]; [repeat split; reflexivity|].
  repeat apply conj.
  - intros clock limit offset.
    destruct (empty_getSessions clock (projectDir disk n) limit offset He) as [-> ->].
    now split.
  - intros clock. now rewrite (empty_getSessions_default clock (projectDir disk n) 5 0 He).
  - intros sessionId. rewrite (empty_getSessionMessages (projectDir disk n) sessionId He).
    unfold getSessionMessages. now destruct (startsWith sessionId "temp-").
  - intros cache cfg. symmetry. now apply empty_extractProjectDirectory.
Qed.

End Cleanup.

Section CleaningListing.
Import Projects.

Lemma addProject_ext (s1 s2 : string -> SessionsResult) (p : Project) (st : Listing) :
  (forall n, s1 n = s2 n) -> addProject s1 p st = addProject s2 p st.
Proof.
  intros H. unfold addProject.
  destruct (obj_get (fullPath p) (duplicateDetection st)); [|now rewrite H].
  destruct (List.nth_error (store st) n); [|reflexivity].
  now rewrite !H.
Qed.

Lemma addConfigured_ext (e1 e2 : string -> string) (s1 s2 : string -> SessionsResult)
    (g : string -> string -> string) (cfg : list (string * ProjectConfig))
    (existing : list string) (st : Listing) (kc : string * ProjectConfig) :
  (forall n, e1 n = e2 n) -> (forall n, s1 n = s2 n) ->
  addConfigured e1 s1 g cfg existing st kc = addConfigured e2 s2 g cfg existing st kc.
Proof.
  intros He Hs. unfold addConfigured, configuredPath. rewrite He.
  destruct (_ && _); [|reflexivity]. now apply addProject_ext.
Qed.

Lemma fold_left_ext (A B : Type) (f g : A -> B -> A) (l : list B) :
  (forall a b, f a b = g a b) ->
  forall a, List.fold_left f l a = List.fold_left g l a.
Proof.
  intros H. induction l as [|b l IH]; intros a; simpl; [reflexivity|].
  now rewrite H, IH.
Qed.

Lemma getProjectsCleaning_list (clock : string -> string -> nat -> Z)
    (packageName : string -> option string) (config : list (string * ProjectConfig))
    (disk : Disk) :
  fst (getProjectsCleaning clock packageName config disk)
    = getProjectsOnDisk clock packageName config disk.
Proof.
  unfold getProjectsCleaning, getProjectsOnDisk, getProjects. cbn [fst]. f_equal. f_equal.
  apply fold_left_ext. intros st kc. apply addConfigured_ext.
  - intros n. unfold extractedOn.
    destruct (cleanup_dir config disk n) as [-> | [-> He]]; [reflexivity|].
    now rewrite (empty_extractProjectDirectory [] config (projectDir disk n) n He).
  - intros n. unfold sessionsOn.
    destruct (cleanup_dir config disk n) as [-> | [-> He]]; [reflexivity|].
    now rewrite (empty_getSessions_default (clock n) (projectDir disk n) 5 0 He).
Qed.

(** X7. The list that [getProjects] returns is the one it would return
    if it removed no directory: the empty directories that it removes
    between its first and its second loop have no session and settle no
    path.  The disk it leaves is the one that
    [cleanupEmptyProjectDirectories] leaves. *)
Theorem X7_getProjects_list_unaffected_by_its_cleanup
    (clock : string -> string -> nat -> Z) (packageName : string -> option string)
    (config : list (string * ProjectConfig)) (disk : Disk) :
  fst (getProjectsCleaning clock packageName config disk)
    = getProjectsOnDisk clock packageName config disk
  /\ snd (getProjectsCleaning clock packageName config disk)
     = cleanupEmptyProjectDirectories config disk.
Proof.
  split; [apply getProjectsCleaning_list|].
  unfold getProjectsCleaning. reflexivity.
Qed.

End CleaningListing.

Section ListedProjects.
Import Projects.

Variable extracted : string -> string.
Variable sessionsOf : string -> SessionsResult.
Variable generatedName : string -> string -> string.
Variable config : list (string * ProjectConfig).


Lemma listed_push_old (st : Listing) (x q : Project) (dd : list (string * nat)) :
  In q (listed st) ->
  In q (listed (mkListing (store st ++ [x]) (projects st ++ [length (store st)]) dd)).
Proof.
  intros H. apply listed_In in H as (r & Hr & H). apply listed_In.
  exists r. split; [apply in_app_iff; now left|].
  unfold at_ref in *. cbn [store]. rewrite List.nth_error_app1; [exact H|].
  apply List.nth_error_Some. congruence.
Qed.

Lemma listed_push_new (st : Listing) (x : Project) (dd : list (string * nat)) :
  In x (listed (mkListing (store st ++ [x]) (projects st ++ [length (store st)]) dd)).
Proof.
  apply listed_In. exists (length (store st)). split; [apply in_app_iff; right; now left|].
  unfold at_ref. cbn [store]. rewrite List.nth_error_app2 by lia.
  now rewrite Nat.sub_diag.
Qed.

Lemma addMissing_listed (st : Listing) (kc : string * ProjectConfig) :
  (forall q, In q (listed st) -> In q (listed (addMissing generatedName config st kc)))
  /\ (cfg_manuallyAdded (snd kc) = true ->
      exists p, In p (listed (addMissing generatedName config st kc)) /\ name p = fst kc).
Proof.
  unfold addMissing. destruct (cfg_manuallyAdded (snd kc)) eqn:M; cbn [andb].
  - destruct (List.existsb _ (listed st)) eqn:E; cbn [negb].
    + split; [auto|]. intros _. apply existsb_exists in E as (p & Hp & Hn).
      apply String.eqb_eq in Hn. now exists p.
    + split; [intros q; apply listed_push_old|]. intros _.
      eexists. split; [apply listed_push_new | reflexivity].
  - split; [auto | discriminate].
Qed.

Lemma addMissing_fold_listed (l : list (string * ProjectConfig)) :
  forall st,
    (forall q, In q (listed st) ->
               In q (listed (List.fold_left (addMissing generatedName config) l st)))
    /\ (forall kc, In kc l -> cfg_manuallyAdded (snd kc) = true ->
          exists p, In p (listed (List.fold_left (addMissing generatedName config) l st))
                    /\ name p = fst kc).
Proof.
  induction l as [|kc l IH]; intros st; cbn [List.fold_left].
  - split; [auto | intros kc []].
  - destruct (IH (addMissing generatedName config st kc)) as [Hold Hnew].
    destruct (addMissing_listed st kc) as [Hold1 Hnew1]. split.
    + intros q Hq. apply Hold. now apply Hold1.
    + intros kc' [<- | Hin] M; [|now apply Hnew].
      destruct (Hnew1 M) as (p & Hp & Hn). exists p. split; [now apply Hold | exact Hn].
Qed.

Lemma manual_listed (entries : list (string * bool)) (kc : string * ProjectConfig) :
  In kc config -> cfg_manuallyAdded (snd kc) = true ->
  exists p, In p (getProjects extracted sessionsOf generatedName config entries)
            /\ name p = fst kc.
Proof.
  intros Hin M. unfold getProjects. now apply addMissing_fold_listed.
Qed.

(** A property of projects that does not look at their sessions holds of
    every project of the store when it holds of the projects that the
    loops build. *)
Section Stable.
Variable Q : Project -> Prop.
Hypothesis Q_sessions : forall l n p, Q p -> Q (with_sessions l n p).



End Stable.

End ListedProjects.

Section ManualProjects.
Import Projects.

Variable clock : string -> string -> nat -> Z.
Variable packageName : string -> option string.




End ManualProjects.

Section RenameProject.
Import Projects.

Lemma obj_get_readAll (n : string) (config : list (string * ConfigObject)) :
  obj_get n (readAll config) = option_map readConfig (obj_get n config).
Proof.
  unfold readAll. induction config as [|[k c] config IH]; simpl; [reflexivity|].
  now destruct (String.eqb n k).
Qed.

Lemma readAll_keys (config : list (string * ConfigObject)) :
  List.map fst (readAll config) = List.map fst config.
Proof. unfold readAll. rewrite List.map_map. reflexivity. Qed.

Lemma obj_get_delete_other (V : Type) (n m : string) (o : list (string * V)) :
  m <> n -> obj_get m (obj_delete n o) = obj_get m o.
Proof.
  intros Hne. unfold obj_delete. induction o as [|[k v] o IH]; simpl; [reflexivity|].
  destruct (String.eqb n k) eqn:E; simpl.
  - apply String.eqb_eq in E. subst k. rewrite IH.
    destruct (String.eqb m n) eqn:E'; [|reflexivity].
    apply String.eqb_eq in E'. contradiction.
  - now rewrite IH.
Qed.

Lemma blank_name (d : string) :
  negb (truthy d) || String.eqb (trim d) "" = false <-> trim d <> "".
Proof.
  split.
  - intros H. apply orb_false_iff in H as [_ H]. now apply String.eqb_neq.
  - intros H. apply orb_false_iff. split; [|now apply String.eqb_neq].
    destruct d; [now contradiction H | reflexivity].
Qed.

Lemma renameProject_other (config : list (string * ConfigObject)) (n m : string)
    (d : option string) :
  m <> n -> obj_get m (renameProject config n d) = obj_get m config.
Proof.
  intros Hne. unfold renameProject.
  assert (String.eqb m n = false) as E by now apply String.eqb_neq.
  destruct (match d with Some s => _ | None => true end).
  - destruct (obj_get n config) as [c|]; [|reflexivity].
    destruct (noKeys _); [now apply obj_get_delete_other|].
    now rewrite obj_get_set, E.
  - now rewrite obj_get_set, E.
Qed.



Lemma obj_delete_fresh (V : Type) (n : string) (v : V) (o : list (string * V)) :
  obj_get n o = None -> obj_delete n (obj_set n v o) = o.
Proof.
  intros H. rewrite obj_set_fresh by exact H. unfold obj_delete.
  rewrite List.filter_app. simpl. rewrite String.eqb_refl. simpl. rewrite app_nil_r.
  apply filter_id. intros [k w] Hin. simpl. apply negb_true_iff. apply String.eqb_neq.
  intros <-. apply (proj1 (obj_get_None n o) H). apply in_map_iff. now exists (n, w).
Qed.

(** X10. [renameProject] with no name, or with a blank one, takes the
    custom name of the project away and keeps the rest of its entry; an
    entry that held nothing else goes altogether, and the other projects
    keep theirs.  In particular it undoes a renaming of a project that
    had no entry: the configuration is again as it was. *)
Theorem X10_renameProject_blank_clears_the_name
    (config : list (string * ConfigObject)) (n : string) (d : option string) :
  match d with Some s => trim s = "" | None => True end ->
  let config' := renameProject config n d in
  customName (readAll config') n = None
  /\ (forall m, m <> n -> obj_get m config' = obj_get m config)
  /\ obj_get n config' =
       match obj_get n config with
       | Some c => if noKeys (withDisplayName None c) then None
                   else Some (withDisplayName None c)
       | None => None
       end
  /\ manuallyAdded (readAll config') n = manuallyAdded (readAll config) n
  /\ originalPathOf (readAll config') n = originalPathOf (readAll config) n
  /\ (obj_get n config = None ->
      forall s, trim s <> "" -> renameProject (renameProject config n (Some s)) n d = config).
Proof.
  intros Hd config'.
  assert (match d with
          | Some s => negb (truthy s) || String.eqb (trim s) ""
          | None => true
          end = true) as Hb.
  { destruct d as [s|]; [|reflexivity]. rewrite Hd. apply orb_true_r. }
  assert (obj_get n config' =
            match obj_get n config with
            | Some c => if noKeys (withDisplayName None c) then None
                        else Some (withDisplayName None c)
            | None => None
            end) as Hget.
  { subst config'. unfold renameProject. rewrite Hb.
    destruct (obj_get n config) as [c|] eqn:E; [|exact E].
    destruct (noKeys (withDisplayName None c)); [apply obj_get_delete|].
    now rewrite obj_get_set, String.eqb_refl. }
  repeat apply conj.
  - unfold customName. rewrite obj_get_readAll, Hget.
    destruct (obj_get n config) as [c|]; [|reflexivity].
    now destruct (noKeys (withDisplayName None c)).
  - intros m Hm. now apply renameProject_other.
  - exact Hget.
  - unfold manuallyAdded. rewrite !obj_get_readAll, Hget.
    destruct (obj_get n config) as [c|]; [|reflexivity].
    destruct (noKeys (withDisplayName None c)) eqn:K; [|reflexivity].
    unfold noKeys in K. simpl in *. now destruct (co_manuallyAdded c).
  - unfold originalPathOf. rewrite !obj_get_readAll, Hget.
    destruct (obj_get n config) as [c|]; [|reflexivity].
    destruct (noKeys (withDisplayName None c)) eqn:K; [|reflexivity].
    unfold noKeys in K. simpl in *.
    destruct (co_manuallyAdded c); [discriminate|]. now destruct (co_originalPath c).
  - intros Hn s Hs. unfold renameProject at 2. rewrite (proj2 (blank_name s) Hs), Hn.
    unfold renameProject. rewrite Hb. rewrite obj_get_set, String.eqb_refl.
    cbn [withDisplayName co_manuallyAdded co_originalPath co_otherKeys noKeys co_displayName].
    now apply obj_delete_fresh.
Qed.

Lemma X10_witness :
  renameProject (renameProject [] "-work-demo" (Some "Demo")) "-work-demo" (Some "   ") = [].
Proof.
  refine (proj2 (proj2 (proj2 (proj2 (proj2
            (X10_renameProject_blank_clears_the_name [] "-work-demo" (Some "   ") _)))))
            eq_refl "Demo" _).
  - reflexivity.
  - discriminate.
Defined.

End RenameProject.

Section ConfiguredProjects.
Import Projects.

Variable clock : string -> string -> nat -> Z.
Variable packageName : string -> option string.


Lemma readAll_NoDup (config : list (string * ConfigObject)) :
  List.NoDup (List.map fst config) -> List.NoDup (List.map fst (readAll config)).
Proof. now rewrite readAll_keys. Qed.

Lemma cleanup_fold_keys (config : list (string * ProjectConfig))
    (l : list (string * option (list File))) :
  forall (d : Disk) k,
    In k (List.map fst (List.fold_left (cleanupNext config) l d)) -> In k (List.map fst d).
Proof.
  induction l as [|e l IH]; intros d k H; [exact H|].
  cbn [List.fold_left] in H. apply IH in H.
  unfold cleanupNext in H. destruct (snd e); [|exact H].
  destruct (projectDir d (fst e)); [|exact H].
  destruct (_ && _); [|exact H]. destruct (shouldKeep config (fst e)); [exact H|].
  unfold rm in H. apply in_map_iff in H as (x & Hx & Hin).
  apply filter_In in Hin as [Hin _]. apply in_map_iff. now exists x.
Qed.

Lemma cleanup_absent (config : list (string * ProjectConfig)) (disk : Disk) (n : string) :
  obj_get n disk = None -> obj_get n (cleanupEmptyProjectDirectories config disk) = None.
Proof.
  intros H. apply obj_get_None. intros Hin. apply (proj1 (obj_get_None n disk) H).
  unfold cleanupEmptyProjectDirectories in Hin. now apply cleanup_fold_keys in Hin.
Qed.

Lemma obj_get_app (V : Type) (n : string) (a b : list (string * V)) :
  obj_get n (a ++ b) = match obj_get n a with Some v => Some v | None => obj_get n b end.
Proof.
  induction a as [|[k v] a IH]; simpl; [reflexivity|].
  now destruct (String.eqb n k).
Qed.

Lemma mkdir_get (pos : nat) (n m : string) (disk : Disk) :
  obj_get n disk = None ->
  obj_get m (mkdir pos n disk) = if String.eqb m n then Some (Some []) else obj_get m disk.
Proof.
  intros H. unfold mkdir. rewrite H.
  pose proof (List.firstn_skipn pos disk) as Hsplit.
  assert (obj_get m disk
          = match obj_get m (List.firstn pos disk) with
            | Some v => Some v
            | None => obj_get m (List.skipn pos disk)
            end) as Hm by (now rewrite <- obj_get_app, Hsplit).
  rewrite obj_get_app. simpl. destruct (String.eqb m n) eqn:E.
  - apply String.eqb_eq in E. subst m. rewrite H in Hm.
    now destruct (obj_get n (List.firstn pos disk)).
  - now rewrite Hm.
Qed.

Lemma addToConfig_ok (pos : nat) (config : list (string * ConfigObject)) (disk : Disk)
    (n P : string) (dn : option string) (p : Project)
    (config' : list (string * ConfigObject)) (disk' : Disk) :
  addToConfig packageName pos config disk n P dn = (inr p, config', disk') ->
  obj_get n config = None
  /\ name p = n /\ fullPath p = P /\ path p = P /\ isManuallyAdded p = true
  /\ projectSessions p = []
  /\ disk' = mkdir pos n disk
  /\ exists shown, config' = config ++ [(n, mkConfigObject shown (Some true) (Some P) [])].
Proof.
  unfold addToConfig. destruct (obj_get n config) as [c|] eqn:E.
  - destruct (bool_decide _); discriminate.
  - intros [= <- <- <-]. repeat apply conj; try reflexivity.
    eexists. now apply obj_set_fresh.
Qed.

Lemma addProjectManually_ok (pathExists : string -> bool) (pos : nat)
    (config : list (string * ConfigObject)) (disk : Disk) (P : string) (dn : option string)
    (p : Project) (config' : list (string * ConfigObject)) (disk' : Disk) :
  addProjectManually clock packageName pathExists pos config disk P dn = (inr p, config', disk') ->
  pathExists P = true
  /\ obj_get (encodeProjectName P) disk = None
  /\ obj_get (encodeProjectName P) config = None
  /\ name p = encodeProjectName P /\ fullPath p = P /\ path p = P
  /\ isManuallyAdded p = true /\ projectSessions p = []
  /\ disk' = mkdir pos (encodeProjectName P)
                   (cleanupEmptyProjectDirectories (readAll config) disk)
  /\ exists shown,
       config' = config ++ [(encodeProjectName P,
                             mkConfigObject shown (Some true) (Some P) [])].
Proof.
  unfold addProjectManually. destruct (pathExists P); [|discriminate]. cbn [negb].
  destruct (obj_get (encodeProjectName P) disk) eqn:D; [discriminate|].
  cbv zeta.
  assert (snd (getProjectsCleaning clock packageName (readAll config) disk)
          = cleanupEmptyProjectDirectories (readAll config) disk) as Hs by reflexivity.
  rewrite Hs.
  destruct (js_find _ _) as [dup|].
  - destruct (isManuallyAdded dup); [discriminate|]. intros H.
    apply addToConfig_ok in H as (H1 & H2 & H3 & H4 & H5 & H6 & H7 & H8). now repeat split.
  - intros H.
    apply addToConfig_ok in H as (H1 & H2 & H3 & H4 & H5 & H6 & H7 & H8). now repeat split.
Qed.


(** X13. A path cannot be added twice, and no path can be added whose
    encoded name is that of a project added before: the call throws
    "Project already exists" and leaves the configuration and the disk as
    they are. *)
Theorem X13_project_cannot_be_added_twice (pathExists pathExists' : string -> bool)
    (pos pos' : nat) (config : list (string * ConfigObject)) (disk : Disk)
    (P P' : string) (dn dn' : option string)
    (p : Project) (config' : list (string * ConfigObject)) (disk' : Disk) :
  addProjectManually clock packageName pathExists pos config disk P dn = (inr p, config', disk') ->
  encodeProjectName P' = encodeProjectName P -> pathExists' P' = true ->
  addProjectManually clock packageName pathExists' pos' config' disk' P' dn'
    = (inl ProjectAlreadyExists, config', disk').
Proof.
  intros H He Hp.
  apply addProjectManually_ok in H as (_ & Hdisk & _ & _ & _ & _ & _ & _ & -> & _).
  unfold addProjectManually. rewrite Hp, He. cbn [negb].
  rewrite mkdir_get by now apply cleanup_absent. now rewrite String.eqb_refl.
Qed.

Lemma setDir_get (n m : string) (x : option (list File)) (disk : Disk) :
  m <> n -> obj_get m (setDir n x disk) = obj_get m disk.
Proof.
  intros Hne. unfold setDir. induction disk as [|[k v] disk IH]; simpl; [reflexivity|].
  destruct (String.eqb k n) eqn:E; simpl.
  - apply String.eqb_eq in E. subst k.
    assert (String.eqb m n = false) as -> by now apply String.eqb_neq. exact IH.
  - now rewrite IH.
Qed.

(** X14. [deleteProject] removes the directory of the project and then
    throws, for the undeclared [config], before the configuration is
    read or written; the other directories are as they were.  A manually
    added project is therefore still in the list of [getProjects]
    afterwards. *)
Theorem X14_deleteProject_throws_and_keeps_the_configuration
    (config : list (string * ProjectConfig)) (disk : Disk) (n : string) (c : ProjectConfig) :
  In (n, c) config -> cfg_manuallyAdded c = true ->
  let r := deleteProject disk n in
  fst r = inl (ReferenceError "config")
  /\ obj_get n (snd r) = None
  /\ (forall m, m <> n -> obj_get m (snd r) = obj_get m disk)
  /\ exists p, In p (fst (getProjectsCleaning clock packageName config (snd r))) /\ name p = n.
Proof.
  intros Hin M r. subst r. unfold deleteProject. cbn [fst snd].
  repeat apply conj.
  - reflexivity.
  - now rewrite rm_get, String.eqb_refl.
  - intros m Hne. rewrite rm_get.
    assert (String.eqb m n = false) as -> by now apply String.eqb_neq.
    destruct (projectDir disk n); [now apply setDir_get | reflexivity].
  - rewrite getProjectsCleaning_list. unfold getProjectsOnDisk.
    apply (manual_listed _ _ _ _ _ (n, c)); assumption.
Qed.

End ConfiguredProjects.

Section ConfiguredProjectsExamples.
Import Projects.

Lemma X5_witness :
  cleanupEmptyProjectDirectories keptConfig smallDisk
  = [("-work-demo", Some demoDir); ("-work-kept", Some []); ("README", None)].
Proof.
  refine (proj1 (X5_cleanup_removes_only_empty_auto_directories keptConfig smallDisk _)).
  repeat constructor; simpl; intros H; repeat destruct H as [H|H]; discriminate || exact H.
Defined.




Lemma X13_witness :
  addProjectManually noClock noPackage onlyDemoPath 3 demoAppConfig demoAppDisk
                     "/work/demo app" (Some "Again")
  = (inl ProjectAlreadyExists, demoAppConfig, demoAppDisk).
Proof.
  apply (X13_project_cannot_be_added_twice noClock noPackage onlyDemoPath onlyDemoPath 0 3
           [] smallDisk "/work/demo app" "/work/demo app" None (Some "Again") demoApp).
  - vm_compute. reflexivity.
  - reflexivity.
  - reflexivity.
Defined.

Lemma X14_witness :
  fst (deleteProject smallDisk "-work-kept") = inl (ReferenceError "config")
  /\ obj_get "-work-kept" (snd (deleteProject smallDisk "-work-kept")) = None
  /\ exists p, In p (fst (getProjectsCleaning noClock noPackage keptConfig
                            (snd (deleteProject smallDisk "-work-kept"))))
               /\ name p = "-work-kept".
Proof.
  destruct (X14_deleteProject_throws_and_keeps_the_configuration
              noClock noPackage keptConfig smallDisk "-work-kept"
              (mkProjectConfig None true (Some "/work/kept")))
    as (H1 & H2 & _ & H4); [now left | reflexivity |].
  repeat split; assumption.
Defined.

End ConfiguredProjectsExamples.

Section Truncation.
Import Projects.

Variable sessionId : string.

Lemma sessionIndices_ge (l : list Line) :
  forall i j, In j (sessionIndices sessionId i l) -> (i <= j)%nat.
Proof.
  induction l as [|ln l IH]; intros i j H; simpl in H; [destruct H|].
  destruct (line_of_session sessionId ln).
  - destruct H as [<- | H]; [lia|]. apply IH in H. lia.
  - apply IH in H. lia.
Qed.

Lemma existsb_index_below (i : nat) (rm : list nat) :
  (forall j, In j rm -> (i < j)%nat) -> List.existsb (Nat.eqb i) rm = false.
Proof.
  intros H. induction rm as [|j rm IH]; simpl; [reflexivity|].
  rewrite IH by (intros k Hk; apply H; now right).
  specialize (H j (or_introl eq_refl)).
  assert (Nat.eqb i j = false) as -> by (apply Nat.eqb_neq; lia). reflexivity.
Qed.

Lemma withoutIndices_passed (l : list Line) :
  forall (j i : nat) rm, (j < i)%nat ->
    withoutIndices (j :: rm) i l = withoutIndices rm i l.
Proof.
  induction l as [|ln l IH]; intros j i rm Hlt; simpl; [reflexivity|].
  assert (Nat.eqb i j = false) as -> by (apply Nat.eqb_neq; lia). simpl.
  rewrite (IH j (S i) rm) by lia. reflexivity.
Qed.

Lemma skipn_In (A : Type) (k : nat) (l : list A) (x : A) :
  In x (List.skipn k l) -> In x l.
Proof.
  intros H. rewrite <- (List.firstn_skipn k l). apply in_app_iff. now right.
Qed.

Lemma withoutIndices_keepFirst (l : list Line) :
  forall i k,
    withoutIndices (List.skipn k (sessionIndices sessionId i l)) i l = keepFirst sessionId k l.
Proof.
  induction l as [|ln l IH]; intros i k; simpl.
  - reflexivity.
  - destruct (line_of_session sessionId ln) eqn:E.
    + destruct k as [|k]; cbn [List.skipn withoutIndices].
      * cbn [List.existsb]. rewrite Nat.eqb_refl. cbn [orb].
        rewrite withoutIndices_passed by lia. apply (IH (S i) O).
      * rewrite existsb_index_below.
        -- f_equal. apply IH.
        -- intros j Hj. apply skipn_In in Hj. apply sessionIndices_ge in Hj. lia.
    + rewrite existsb_index_below.
      * f_equal. apply IH.
      * intros j Hj. apply skipn_In in Hj. apply sessionIndices_ge in Hj. lia.
Qed.

Lemma sessionIndices_length (l : list Line) :
  forall i,
    length (sessionIndices sessionId i l)
    = length (List.flat_map
                (fun ln => match json ln with
                           | Some e => if bool_decide (e_sessionId e = Some sessionId)
                                       then [e] else []
                           | None => []
                           end) l).
Proof.
  induction l as [|ln l IH]; intros i; simpl; [reflexivity|].
  unfold line_of_session. destruct (json ln) as [e|]; [|apply IH].
  destruct (bool_decide (e_sessionId e = Some sessionId)); simpl; [f_equal|]; apply IH.
Qed.

Lemma js_slice_from (A : Type) (k : Z) (l : list A) :
  (0 <= k <= Z.of_nat (length l))%Z ->
  js_slice k (Z.of_nat (length l)) l = List.skipn (Z.to_nat k) l.
Proof.
  intros H. unfold js_slice, slice_index.
  assert (Z.ltb k 0 = false) as -> by (apply Z.ltb_ge; lia).
  assert (Z.ltb (Z.of_nat (length l)) 0 = false) as -> by (apply Z.ltb_ge; lia).
  rewrite Z.min_id. rewrite (Z.min_l k) by lia.
  apply List.firstn_all2. rewrite List.length_skipn. lia.
Qed.

Lemma truncateFile_spec (target : Z) (f : File) :
  (0 <= target)%Z ->
  truncateFile sessionId target f =
    if Z.ltb target (sessionCount sessionId f)
    then Some (keepFirst sessionId (Z.to_nat target) (nonblank (lines f)),
               (sessionCount sessionId f - target)%Z)
    else None.
Proof.
  intros Ht. unfold truncateFile, sessionCount, session_entries.
  rewrite <- (sessionIndices_length (nonblank (lines f)) 0).
  set (idx := sessionIndices sessionId 0 (nonblank (lines f))).
  destruct (Z.ltb target (Z.of_nat (length idx))) eqn:E.
  - apply Z.ltb_lt in E.
    assert ((0 <? length idx)%nat = true) as -> by (apply Nat.ltb_lt; lia). cbn [andb].
    rewrite js_slice_from by lia. subst idx. rewrite withoutIndices_keepFirst.
    f_equal. f_equal. rewrite List.length_skipn. lia.
  - now rewrite andb_false_r.
Qed.

#[local] Arguments String.append !s1 s2 : simpl nomatch.

Lemma tmp_not_jsonl (n : string) : endsWith (n ++ ".tmp") ".jsonl" = false.
Proof.
  induction n as [|c n IH]; [reflexivity|].
  cbn [String.append endsWith]. rewrite IH, orb_false_r.
  apply String.eqb_neq. intros H. injection H as _ H.
  do 5 (destruct n as [|? n]; cbn [String.append] in H; [discriminate H | injection H as _ H]).
  destruct n; discriminate H.
Qed.

Lemma endsWith_refl (s : string) : endsWith s s = true.
Proof. destruct s; cbn [endsWith]; now rewrite String.eqb_refl. Qed.

Lemma endsWith_app (a b : string) : endsWith (a ++ b) b = true.
Proof.
  induction a as [|c a IH]; [apply endsWith_refl|].
  cbn [String.append endsWith]. rewrite IH. apply orb_true_r.
Qed.

Lemma keepFirst_In (k : nat) (l : list Line) (x : Line) :
  In x (keepFirst sessionId k l) -> In x l.
Proof.
  revert k. induction l as [|ln l IH]; intros k H; simpl in H; [destruct H|].
  destruct (line_of_session sessionId ln).
  - destruct k; [right; now apply (IH O)|].
    destruct H as [<- | H]; [now left | right; now apply (IH k)].
  - destruct H as [<- | H]; [now left | right; now apply (IH k)].
Qed.

Lemma nonblank_written (l : list Line) :
  (forall x, In x l -> is_blank (raw x) = false) -> nonblank (written_lines l) = l.
Proof.
  intros H. unfold nonblank, written_lines. rewrite List.filter_app. simpl.
  rewrite app_nil_r. apply filter_id. intros x Hx. now rewrite (H x Hx).
Qed.

Lemma nonblank_In (l : list Line) (x : Line) :
  In x (nonblank l) -> is_blank (raw x) = false.
Proof.
  unfold nonblank. intros H. apply filter_In in H as [_ H]. now apply negb_true_iff in H.
Qed.

Lemma session_entries_kept (T : string) (n : string) (t : Z) (k : nat) (f : File) :
  session_entries T (mkFile n t (written_lines (keepFirst sessionId k (nonblank (lines f)))))
  = List.flat_map
      (fun ln => match json ln with
                 | Some e => if bool_decide (e_sessionId e = Some T) then [e] else []
                 | None => []
                 end)
      (keepFirst sessionId k (nonblank (lines f))).
Proof.
  unfold session_entries. cbn [lines]. rewrite nonblank_written; [reflexivity|].
  intros x Hx. apply keepFirst_In in Hx. now apply nonblank_In in Hx.
Qed.

Lemma keepFirst_same (l : list Line) :
  forall k,
    List.flat_map
      (fun ln => match json ln with
                 | Some e => if bool_decide (e_sessionId e = Some sessionId) then [e] else []
                 | None => []
                 end)
      (keepFirst sessionId k l)
    = List.firstn k
        (List.flat_map
           (fun ln => match json ln with
                      | Some e => if bool_decide (e_sessionId e = Some sessionId)
                                  then [e] else []
                      | None => []
                      end) l).
Proof.
  induction l as [|ln l IH]; intros k; simpl; [now rewrite List.firstn_nil|].
  unfold line_of_session. destruct (json ln) as [e|] eqn:E.
  - destruct (bool_decide (e_sessionId e = Some sessionId)) eqn:B.
    + destruct k as [|k]; [rewrite (IH O); reflexivity|].
      simpl. rewrite E, B. simpl. f_equal. apply IH.
    + simpl. rewrite E, B. simpl. apply IH.
  - simpl. rewrite E. simpl. apply IH.
Qed.

Lemma keepFirst_other (T : string) (l : list Line) :
  T <> sessionId ->
  forall k,
    List.flat_map
      (fun ln => match json ln with
                 | Some e => if bool_decide (e_sessionId e = Some T) then [e] else []
                 | None => []
                 end)
      (keepFirst sessionId k l)
    = List.flat_map
        (fun ln => match json ln with
                   | Some e => if bool_decide (e_sessionId e = Some T) then [e] else []
                   | None => []
                   end) l.
Proof.
  intros Hne. induction l as [|ln l IH]; intros k; simpl; [reflexivity|].
  unfold line_of_session. destruct (json ln) as [e|] eqn:E.
  - destruct (bool_decide (e_sessionId e = Some sessionId)) eqn:B.
    + apply bool_decide_eq_true in B.
      assert (bool_decide (e_sessionId e = Some T) = false) as B'
        by (apply bool_decide_eq_false; congruence).
      rewrite B'. simpl. destruct k as [|k]; [apply IH|].
      simpl. rewrite E, B'. simpl. apply IH.
    + simpl. rewrite E. f_equal. apply IH.
  - simpl. rewrite E. simpl. apply IH.
Qed.

Lemma truncatedFile_name (clock : string -> Z) (target : Z) (f : File) :
  fileName (truncatedFile clock sessionId target f) = fileName f.
Proof. unfold truncatedFile. now destruct (Z.ltb target _). Qed.

Lemma truncatedFile_same (clock : string -> Z) (target : Z) (f : File) :
  (0 <= target)%Z ->
  session_entries sessionId (truncatedFile clock sessionId target f)
  = List.firstn (Z.to_nat target) (session_entries sessionId f).
Proof.
  intros Ht. unfold truncatedFile. destruct (Z.ltb target _) eqn:E.
  - rewrite session_entries_kept. apply keepFirst_same.
  - apply Z.ltb_ge in E. unfold sessionCount in E.
    symmetry. apply List.firstn_all2. lia.
Qed.

Lemma truncatedFile_other (clock : string -> Z) (target : Z) (f : File) (T : string) :
  T <> sessionId ->
  session_entries T (truncatedFile clock sessionId target f) = session_entries T f.
Proof.
  intros Hne. unfold truncatedFile. destruct (Z.ltb target _); [|reflexivity].
  rewrite session_entries_kept. now apply keepFirst_other.
Qed.

Lemma NoDup_app_disjoint (A : Type) (a b : list A) :
  List.NoDup (a ++ b) -> forall x, In x a -> In x b -> False.
Proof.
  induction a as [|y a IH]; simpl; intros H x Ha Hb; [destruct Ha|].
  apply NoDup_cons_iff in H as [Hy H]. destruct Ha as [-> | Ha].
  - apply Hy. apply in_app_iff. now right.
  - now apply (IH H x).
Qed.

Lemma js_find_jsonl (n : string) (l : list File) :
  endsWith n ".jsonl" = true ->
  js_find (fun g => String.eqb (fileName g) n) l
  = js_find (fun g => String.eqb (fileName g) n) (jsonlFiles l).
Proof.
  intros Hn. unfold js_find, jsonlFiles. induction l as [|g l IH]; simpl; [reflexivity|].
  destruct (String.eqb (fileName g) n) eqn:E.
  - pose proof (proj1 (String.eqb_eq _ _) E) as E'. rewrite E', Hn. simpl. now rewrite E.
  - destruct (endsWith (fileName g) ".jsonl"); simpl; [rewrite E|]; exact IH.
Qed.

Lemma js_find_named (h : File -> File) (js : list File) (f : File) :
  (forall g, fileName (h g) = fileName g) ->
  List.NoDup (List.map fileName js) -> In f js ->
  js_find (fun g => String.eqb (fileName g) (fileName f)) (List.map h js) = Some (h f).
Proof.
  intros Hh Hnd Hin. unfold js_find. induction js as [|g js IH]; [destruct Hin|].
  simpl in *. apply NoDup_cons_iff in Hnd as [Hg Hnd]. rewrite Hh.
  destruct Hin as [-> | Hin].
  - now rewrite String.eqb_refl.
  - assert (String.eqb (fileName g) (fileName f) = false) as ->; [|now apply IH].
    apply String.eqb_neq. intros Heq. apply Hg. rewrite Heq. now apply in_map.
Qed.

Lemma jsonlFiles_map (h : File -> File) (l : list File) :
  (forall g, fileName (h g) = fileName g) ->
  jsonlFiles (List.map h l) = List.map h (jsonlFiles l).
Proof.
  intros Hh. unfold jsonlFiles. induction l as [|g l IH]; simpl; [reflexivity|].
  rewrite Hh. destruct (endsWith (fileName g) ".jsonl"); simpl; now rewrite IH.
Qed.

Lemma jsonlFiles_replaceFile (now : Z) (n : string) (content : list Line) (l : list File) :
  jsonlFiles (replaceFile now n content l)
  = List.map (fun g => if String.eqb (fileName g) n then mkFile n now content else g)
             (jsonlFiles l).
Proof.
  unfold replaceFile, writeFile. rewrite jsonlFiles_map.
  - f_equal. unfold jsonlFiles. rewrite filter_filter. apply List.filter_ext. intros g.
    destruct (String.eqb (fileName g) (n ++ ".tmp")) eqn:E; [|reflexivity].
    apply String.eqb_eq in E. rewrite E. simpl. symmetry. apply tmp_not_jsonl.
  - intros g. destruct (String.eqb (fileName g) n) eqn:E; [|reflexivity].
    apply String.eqb_eq in E. now rewrite E.
Qed.

Lemma replaceFile_keeps (now : Z) (n : string) (content : list Line) (l : list File)
    (g : File) :
  endsWith n ".jsonl" = true ->
  endsWith (fileName g) ".jsonl" = false -> endsWith (fileName g) ".tmp" = false ->
  In g l -> In g (replaceFile now n content l).
Proof.
  intros Hn Hg Ht Hin. unfold replaceFile, writeFile. apply in_map_iff. exists g. split.
  - assert (String.eqb (fileName g) n = false) as ->; [|reflexivity].
    apply String.eqb_neq. intros Heq. rewrite Heq in Hg. congruence.
  - apply filter_In. split; [exact Hin|]. apply negb_true_iff. apply String.eqb_neq.
    intros Heq. rewrite Heq, endsWith_app in Ht. discriminate.
Qed.

Lemma file_unique (l : list File) (g f : File) :
  List.NoDup (List.map fileName l) -> In g l -> In f l -> fileName g = fileName f -> g = f.
Proof.
  induction l as [|x l IH]; intros Hnd Hg Hf N; [destruct Hg|].
  simpl in Hnd. apply NoDup_cons_iff in Hnd as [Hx Hl].
  destruct Hg as [-> | Hg], Hf as [-> | Hf]; auto.
  - exfalso. apply Hx. rewrite N. now apply in_map.
  - exfalso. apply Hx. rewrite <- N. now apply in_map.
Qed.

Section Fold.
Variable clock : string -> Z.
Variable target : Z.
Hypothesis target_nonneg : (0 <= target)%Z.
Variable js : list File.
Hypothesis js_logs : forall f, In f js -> endsWith (fileName f) ".jsonl" = true.
Hypothesis js_NoDup : List.NoDup (List.map fileName js).

Lemma truncate_fold (post : list File) :
  forall (pre : list File) (st : TruncateState),
    js = pre ++ post ->
    jsonlFiles (t_files st)
      = List.map (fun g => if List.existsb (String.eqb (fileName g)) (List.map fileName pre)
                           then truncatedFile clock sessionId target g else g) js ->
    let st' := List.fold_left (truncateNext clock sessionId target)
                              (List.map fileName post) st in
    jsonlFiles (t_files st') = List.map (truncatedFile clock sessionId target) js
    /\ totalTruncated st'
       = (totalTruncated st + sumZ (List.map (removedCount sessionId target) post))%Z
    /\ t_filesModified st'
       = (t_filesModified st
          + Z.of_nat (length (List.filter
                                (fun f => Z.ltb target (sessionCount sessionId f)) post)))%Z
    /\ (forall g, endsWith (fileName g) ".jsonl" = false ->
                  endsWith (fileName g) ".tmp" = false ->
                  In g (t_files st) -> In g (t_files st')).
Proof.
  induction post as [|f post IH]; intros pre st Hjs Hst; cbn [List.map List.fold_left].
  - cbn zeta. rewrite app_nil_r in Hjs. subst pre. repeat apply conj.
    + rewrite Hst. apply List.map_ext_in. intros g Hg.
      assert (List.existsb (String.eqb (fileName g)) (List.map fileName js) = true) as ->;
        [|reflexivity].
      apply existsb_exists. exists (fileName g). split; [now apply in_map|].
      apply String.eqb_refl.
    + simpl. lia.
    + simpl. lia.
    + auto.
  - assert (In f js) as Hf by (rewrite Hjs; apply in_app_iff; right; now left).
    assert (~ In (fileName f) (List.map fileName pre)) as Hfresh.
    { intros Hin. pose proof js_NoDup as Hn. rewrite Hjs, List.map_app in Hn.
      apply (NoDup_app_disjoint _ _ _ Hn (fileName f) Hin). now left. }
    assert (js_find (fun g => String.eqb (fileName g) (fileName f)) (t_files st) = Some f)
      as Hfind.
    { rewrite js_find_jsonl by now apply js_logs. rewrite Hst.
      rewrite js_find_named;
        [| intros g; destruct (List.existsb _ _); [apply truncatedFile_name | reflexivity]
         | exact js_NoDup | exact Hf].
      assert (List.existsb (String.eqb (fileName f)) (List.map fileName pre) = false) as ->;
        [|reflexivity].
      destruct (List.existsb _ _) eqn:E; [|reflexivity].
      apply existsb_exists in E as (k & Hk & Heq). apply String.eqb_eq in Heq. subst k.
      contradiction. }
    set (st1 := truncateNext clock sessionId target st (fileName f)).
    assert (jsonlFiles (t_files st1)
            = List.map (fun g => if List.existsb (String.eqb (fileName g))
                                                 (List.map fileName (pre ++ [f]))
                                 then truncatedFile clock sessionId target g else g) js
            /\ totalTruncated st1 = (totalTruncated st + removedCount sessionId target f)%Z
            /\ t_filesModified st1
               = (t_filesModified st
                  + if Z.ltb target (sessionCount sessionId f) then 1 else 0)%Z
            /\ (forall g, endsWith (fileName g) ".jsonl" = false ->
                          endsWith (fileName g) ".tmp" = false ->
                          In g (t_files st) -> In g (t_files st1))) as (H1 & H2 & H3 & H4).
    { subst st1. unfold truncateNext. rewrite Hfind.
      rewrite truncateFile_spec by exact target_nonneg.
      unfold removedCount. destruct (Z.ltb target (sessionCount sessionId f)) eqn:E.
      - apply Z.ltb_lt in E. cbn [t_files totalTruncated t_filesModified].
        repeat apply conj; [| lia | lia |].
        + rewrite jsonlFiles_replaceFile, Hst, List.map_map.
          apply List.map_ext_in. intros g Hg. rewrite List.map_app, List.existsb_app.
          cbn [List.map List.existsb]. rewrite orb_false_r.
          assert (fileName (if List.existsb (String.eqb (fileName g)) (List.map fileName pre)
                            then truncatedFile clock sessionId target g else g) = fileName g)
            as -> by (destruct (List.existsb _ _); [apply truncatedFile_name | reflexivity]).
          destruct (String.eqb (fileName g) (fileName f)) eqn:N.
          * rewrite orb_true_r. apply String.eqb_eq in N.
            rewrite (file_unique js g f js_NoDup Hg Hf N).
            unfold truncatedFile.
            assert (Z.ltb target (sessionCount sessionId f) = true) as ->
              by now apply Z.ltb_lt.
            reflexivity.
          * now rewrite orb_false_r.
        + intros g Hg Ht Hin. apply replaceFile_keeps; auto.
      - apply Z.ltb_ge in E. repeat apply conj; [| lia | lia | auto].
        rewrite Hst. apply List.map_ext_in. intros g Hg.
        rewrite List.map_app, List.existsb_app. cbn [List.map List.existsb].
        rewrite orb_false_r.
        destruct (String.eqb (fileName g) (fileName f)) eqn:N; [|now rewrite orb_false_r].
        rewrite orb_true_r. apply String.eqb_eq in N.
        rewrite (file_unique js g f js_NoDup Hg Hf N).
        assert (List.existsb (String.eqb (fileName f)) (List.map fileName pre) = false) as ->.
        { destruct (List.existsb _ _) eqn:X; [|reflexivity].
          apply existsb_exists in X as (k & Hk & Heq). apply String.eqb_eq in Heq. subst k.
          contradiction. }
        unfold truncatedFile.
        assert (Z.ltb target (sessionCount sessionId f) = false) as ->
          by now apply Z.ltb_ge.
        reflexivity. }
    destruct (IH (pre ++ [f]) st1) as (G1 & G2 & G3 & G4).
    + rewrite Hjs, <- List.app_assoc. reflexivity.
    + exact H1.
    + fold st1. repeat apply conj.
      * exact G1.
      * rewrite G2, H2. cbn [List.map sumZ List.fold_right]. fold (sumZ
          (List.map (removedCount sessionId target) post)). lia.
      * rewrite G3, H3. cbn [List.filter].
        destruct (Z.ltb target (sessionCount sessionId f)); cbn [length]; lia.
      * intros g Hg Ht Hin. apply G4; auto.
Qed.
End Fold.

Lemma jsonlFiles_logs (files : list File) (f : File) :
  In f (jsonlFiles files) -> endsWith (fileName f) ".jsonl" = true.
Proof. unfold jsonlFiles. intros H. now apply filter_In in H as [_ H]. Qed.

Lemma truncate_directory (clock : string -> Z) (files : list File) (target : Z) :
  List.NoDup (List.map fileName (jsonlFiles files)) -> (0 <= target)%Z ->
  exists r files',
    truncateSessionMessages clock (Some files) sessionId target = (Some r, Some files')
    /\ jsonlFiles files' = List.map (truncatedFile clock sessionId target) (jsonlFiles files)
    /\ truncated r = sumZ (List.map (removedCount sessionId target) (jsonlFiles files))
    /\ filesModified r
       = Z.of_nat (length (List.filter (fun f => Z.ltb target (sessionCount sessionId f))
                                       (jsonlFiles files)))
    /\ (forall g, In g files -> endsWith (fileName g) ".jsonl" = false ->
                  endsWith (fileName g) ".tmp" = false -> In g files').
Proof.
  intros Hnd Ht. unfold truncateSessionMessages.
  destruct (jsonlFiles files) as [|f0 js0] eqn:E.
  - exists (mkTruncateResult 0 0 None), files. rewrite E. repeat split; auto.
  - rewrite <- E in *.
    destruct (truncate_fold clock target Ht (jsonlFiles files) (jsonlFiles_logs files) Hnd
                (jsonlFiles files) [] (mkTruncateState files 0 0) eq_refl)
      as (H1 & H2 & H3 & H4).
    { cbn [t_files List.map List.existsb]. symmetry. apply List.map_id. }
    eexists. eexists. split; [reflexivity|]. cbn [truncated filesModified].
    repeat apply conj.
    + exact H1.
    + rewrite H2. cbn [totalTruncated]. lia.
    + rewrite H3. cbn [t_filesModified]. lia.
    + intros g Hg Hl Htmp. now apply H4.
Qed.

(** X3. In a directory whose log files bear distinct names,
    [truncateSessionMessages] with a target that is not negative works
    on each log file by itself: a file with no more entries of the session
    than the target stays as it is; of a file with more, the first
    [target] entries of the session stay and its later ones go, and so do
    its blank lines.  The entries of every other session stay, in every
    file, so that [getSessionMessages] answers for them as before.  The
    result counts the entries and the files.  Files that are neither logs
    nor named like a temporary file stay. *)
Theorem X3_truncation_keeps_the_first_messages_of_each_file
    (clock : string -> Z) (files : list File) (target : Z) :
  List.NoDup (List.map fileName (jsonlFiles files)) -> (0 <= target)%Z ->
  exists r files',
    truncateSessionMessages clock (Some files) sessionId target = (Some r, Some files')
    /\ List.map fileName (jsonlFiles files') = List.map fileName (jsonlFiles files)
    /\ Forall2 (fun f' f =>
                  session_entries sessionId f'
                    = List.firstn (Z.to_nat target) (session_entries sessionId f)
                  /\ (forall T, T <> sessionId -> session_entries T f' = session_entries T f)
                  /\ ((sessionCount sessionId f <= target)%Z -> f' = f))
               (jsonlFiles files') (jsonlFiles files)
    /\ truncated r = sumZ (List.map (removedCount sessionId target) (jsonlFiles files))
    /\ filesModified r
       = Z.of_nat (length (List.filter (fun f => Z.ltb target (sessionCount sessionId f))
                                       (jsonlFiles files)))
    /\ (forall T, T <> sessionId ->
                  getSessionMessages (Some files') T = getSessionMessages (Some files) T)
    /\ (forall g, In g files -> endsWith (fileName g) ".jsonl" = false ->
                  endsWith (fileName g) ".tmp" = false -> In g files').
Proof.
  intros Hnd Ht.
  destruct (truncate_directory clock files target Hnd Ht)
    as (r & files' & Hr & Hlogs & Hsum & Hcount & Hframe).
  exists r, files'. repeat apply conj; try assumption.
  - rewrite Hlogs, List.map_map. apply List.map_ext. intros f. apply truncatedFile_name.
  - rewrite Hlogs. generalize (jsonlFiles files). intros l.
    induction l as [|f l IH]; simpl; constructor; [|exact IH].
    repeat apply conj.
    + now apply truncatedFile_same.
    + intros T HT. now apply truncatedFile_other.
    + intros Hle. unfold truncatedFile.
      assert (Z.ltb target (sessionCount sessionId f) = false) as -> by (apply Z.ltb_ge; lia).
      reflexivity.
  - intros T HT. unfold getSessionMessages.
    destruct (startsWith T "temp-"); [reflexivity|]. rewrite Hlogs.
    destruct (jsonlFiles files) as [|f l]; [reflexivity|].
    assert (forall js, List.flat_map (session_entries T)
                         (List.map (truncatedFile clock sessionId target) js)
                       = List.flat_map (session_entries T) js) as Hflat.
    { induction js as [|g js IH]; simpl; [reflexivity|].
      now rewrite IH, truncatedFile_other. }
    cbn [List.map]. now rewrite <- (Hflat (f :: l)).
Qed.

Lemma truncate_idle (clock : string -> Z) (target : Z) (names : list string) :
  forall st,
    (forall n f, In n names ->
                 js_find (fun g => String.eqb (fileName g) n) (t_files st) = Some f ->
                 truncateFile sessionId target f = None) ->
    List.fold_left (truncateNext clock sessionId target) names st = st.
Proof.
  induction names as [|n names IH]; intros st H; cbn [List.fold_left]; [reflexivity|].
  assert (truncateNext clock sessionId target st n = st) as ->.
  { unfold truncateNext.
    destruct (js_find _ (t_files st)) as [f|] eqn:E; [|reflexivity].
    now rewrite (H n f (or_introl eq_refl) E). }
  apply IH. intros m f Hm. apply H. now right.
Qed.

(** X4. A second truncation of the session to the same target finds
    nothing to remove: it reports no entry and no file, and the
    directory stays as the first truncation left it. *)
Theorem X4_second_truncation_changes_nothing
    (clock clock' : string -> Z) (files : list File) (target : Z) :
  List.NoDup (List.map fileName (jsonlFiles files)) -> (0 <= target)%Z ->
  exists r files' r',
    truncateSessionMessages clock (Some files) sessionId target = (Some r, Some files')
    /\ truncateSessionMessages clock' (Some files') sessionId target = (Some r', Some files')
    /\ truncated r' = 0%Z /\ filesModified r' = 0%Z.
Proof.
  intros Hnd Ht.
  destruct (truncate_directory clock files target Hnd Ht)
    as (r & files' & Hr & Hlogs & _).
  assert (List.fold_left (truncateNext clock' sessionId target)
                         (List.map fileName (jsonlFiles files'))
                         (mkTruncateState files' 0 0)
          = mkTruncateState files' 0 0) as Hidle.
  { apply truncate_idle. cbn [t_files]. intros n f Hn Hfind.
    unfold js_find in Hfind. apply List.find_some in Hfind as [Hin Hname].
    apply String.eqb_eq in Hname.
    assert (In f (jsonlFiles files')) as Hlog.
    { unfold jsonlFiles. apply filter_In. split; [exact Hin|].
      apply in_map_iff in Hn as (g & Hg & Hgin). rewrite Hname, <- Hg.
      now apply (jsonlFiles_logs files'). }
    rewrite Hlogs in Hlog. apply in_map_iff in Hlog as (g & <- & _).
    rewrite truncateFile_spec by exact Ht.
    assert (Z.ltb target (sessionCount sessionId (truncatedFile clock sessionId target g))
            = false) as ->; [|reflexivity].
    apply Z.ltb_ge. unfold sessionCount. rewrite truncatedFile_same by exact Ht.
    rewrite List.length_firstn. lia. }
  exists r, files'.
  unfold truncateSessionMessages at 2.
  destruct (jsonlFiles files') as [|f0 js0] eqn:E.
  - exists (mkTruncateResult 0 0 None). now repeat split.
  - rewrite Hidle. eexists. repeat split. exact Hr.
Qed.

End Truncation.

Section TruncationExamples.
Import Projects.

Lemma X3_witness :
  exists r files',
    truncateSessionMessages (fun _ => 999%Z) (Some demoDir) "s1" 0 = (Some r, Some files')
    /\ truncated r = 2%Z /\ filesModified r = 2%Z
    /\ getSessionMessages (Some files') "s2" = getSessionMessages (Some demoDir) "s2"
    /\ getSessionMessages (Some files') "s1" = [].
Proof.
  destruct (X3_truncation_keeps_the_first_messages_of_each_file
              "s1" (fun _ => 999%Z) demoDir 0)
    as (r & files' & Hr & _ & _ & Hsum & Hcount & Hother & _).
  - repeat constructor; simpl; intros H; repeat destruct H as [H|H]; discriminate || exact H.
  - lia.
  - exists r, files'. repeat apply conj.
    + exact Hr.
    + exact Hsum.
    + exact Hcount.
    + apply Hother. discriminate.
    + vm_compute in Hr. injection Hr as _ <-. reflexivity.
Defined.

Lemma X4_witness :
  exists r files' r',
    truncateSessionMessages (fun _ => 999%Z) (Some demoDir) "s1" 0 = (Some r, Some files')
    /\ truncateSessionMessages (fun _ => 1000%Z) (Some files') "s1" 0 = (Some r', Some files')
    /\ truncated r' = 0%Z /\ filesModified r' = 0%Z.
Proof.
  apply (X4_second_truncation_changes_nothing "s1" (fun _ => 999%Z) (fun _ => 1000%Z) demoDir 0).
  - repeat constructor; simpl; intros H; repeat destruct H as [H|H]; discriminate || exact H.
  - lia.
Defined.

End TruncationExamples.

Section SessionCounts.
Import Projects.

Lemma entryCount_nonneg (sid : string) (l : list Line) : (0 <= entryCount sid l)%Z.
Proof. unfold entryCount, sessionCount. lia. Qed.

Lemma entryCount_snoc (sid : string) (seen : list Line) (ln : Line) :
  entryCount sid (seen ++ [ln])
  = (entryCount sid seen
     + if is_blank (raw ln) then 0
       else match json ln with
            | Some e => if bool_decide (e_sessionId e = Some sid) then 1 else 0
            | None => 0
            end)%Z.
Proof.
  unfold entryCount, sessionCount, session_entries, nonblank. cbn [lines].
  rewrite List.filter_app, List.flat_map_app, List.length_app. cbn [List.filter].
  destruct (is_blank (raw ln)); cbn [negb List.flat_map length]; [lia|].
  destruct (json ln) as [e|]; [|cbn [length app]; lia].
  destruct (bool_decide (e_sessionId e = Some sid)); cbn [length app]; lia.
Qed.

Lemma counted_other (o : list (string * Session)) (seen : list Line) (ln : Line) :
  (forall sid, entryCount sid (seen ++ [ln]) = entryCount sid seen) ->
  counted o seen -> counted o (seen ++ [ln]).
Proof.
  intros H Hc sid. specialize (Hc sid). rewrite H. exact Hc.
Qed.

Lemma parse_line_counted (now : Z) (ln : Line) (o : list (string * Session))
    (seen : list Line) :
  counted o seen -> counted (parse_line now ln o) (seen ++ [ln]).
Proof.
  intros Hc. unfold parse_line.
  destruct (is_blank (raw ln)) eqn:B.
  { apply counted_other; [|exact Hc]. intros sid. rewrite entryCount_snoc, B. lia. }
  destruct (json ln) as [e|] eqn:J.
  2:{ apply counted_other; [|exact Hc]. intros sid. rewrite entryCount_snoc, B, J. lia. }
  destruct (e_sessionId e) as [sid0|] eqn:S0.
  2:{ apply counted_other; [|exact Hc]. intros sid. rewrite entryCount_snoc, B, J, S0.
      rewrite bool_decide_eq_false_2 by discriminate. lia. }
  destruct (truthy sid0) eqn:T.
  2:{ intros sid. pose proof (Hc sid) as H. rewrite entryCount_snoc, B, J, S0.
      destruct (bool_decide (Some sid0 = Some sid)) eqn:D.
      - apply bool_decide_eq_true in D. injection D as <-.
        destruct (obj_get sid0 o); [destruct H as (_ & H & _); congruence|].
        intros H'. congruence.
      - rewrite Z.add_0_r. exact H. }
  intros sid. rewrite entryCount_snoc, B, J, S0. unfold parse_entry.
  set (o1 := match obj_get sid0 o with Some _ => o | None => _ end).
  assert (forall k, k <> sid0 -> obj_get k o1 = obj_get k o) as Hother.
  { intros k Hk. subst o1. destruct (obj_get sid0 o); [reflexivity|].
    rewrite obj_get_set. now rewrite (proj2 (String.eqb_neq k sid0) Hk). }
  assert (exists ses1, obj_get sid0 o1 = Some ses1
                       /\ messageCount ses1 = entryCount sid0 seen) as (ses1 & H1 & Hcount).
  { pose proof (Hc sid0) as H. subst o1. destruct (obj_get sid0 o) as [ses|] eqn:E.
    - exists ses. rewrite E. split; [reflexivity | apply H].
    - eexists. rewrite obj_get_set, String.eqb_refl. split; [reflexivity|].
      cbn [messageCount]. symmetry. now apply H. }
  rewrite H1, obj_get_set.
  destruct (String.eqb sid sid0) eqn:E.
  - apply String.eqb_eq in E. subst sid. rewrite bool_decide_eq_true_2 by reflexivity.
    cbn [messageCount]. pose proof (entryCount_nonneg sid0 seen). repeat split; try lia.
    exact T.
  - apply String.eqb_neq in E. rewrite Hother by exact E.
    rewrite bool_decide_eq_false_2 by congruence. rewrite Z.add_0_r. apply Hc.
Qed.

Lemma parse_lines_counted (clock : nat -> Z) (l : list Line) :
  forall i o seen, counted o seen -> counted (parse_lines clock i l o) (seen ++ l).
Proof.
  induction l as [|ln l IH]; intros i o seen H; simpl.
  - now rewrite app_nil_r.
  - replace (seen ++ ln :: l) with ((seen ++ [ln]) ++ l) by now rewrite <- List.app_assoc.
    apply IH. now apply parse_line_counted.
Qed.

Lemma parsed_counted (clock : nat -> Z) (f : File) (s : Session) :
  In s (parseJsonlSessions clock f) ->
  messageCount s = sessionCount (id s) f /\ (1 <= messageCount s)%Z
  /\ truthy (id s) = true.
Proof.
  unfold parseJsonlSessions. intros H. apply js_sort_In in H.
  apply in_map_iff in H as ([k s'] & Hs & Hin). simpl in Hs. subst s'.
  destruct (parse_lines_inv clock (lines f) 0 []) as [Hnd Hk].
  { split; [constructor | intros ? ? []]. }
  pose proof (Hk k s Hin) as Hid.
  pose proof (obj_get_In _ k s _ Hnd Hin) as Hget.
  pose proof (parse_lines_counted clock (lines f) 0 [] []) as Hc.
  specialize (Hc (fun sid _ => eq_refl) k). simpl in Hc. rewrite Hget in Hc.
  destruct Hc as (H1 & H2 & H3). rewrite Hid. repeat split; assumption.
Qed.

(** X16. The [messageCount] of a session that [parseJsonlSessions] reads
    from a file is the number of entries of the file that bear its
    identity, on lines that are not blank; it is at least 1, and the
    identity is not empty. *)
Theorem X16_messageCount_counts_the_entries_of_the_file
    (clock : nat -> Z) (f : File) (s : Session) :
  In s (parseJsonlSessions clock f) ->
  messageCount s = Z.of_nat (length (session_entries (id s) f))
  /\ (1 <= messageCount s)%Z
  /\ truthy (id s) = true.
Proof.
  intros H. destruct (parsed_counted clock f s H) as (H1 & H2 & H3).
  repeat split; assumption.
Qed.

Lemma getSessions_page (clock : string -> nat -> Z) (files : list File) (limit offset : Z) :
  jsonlFiles files <> [] ->
  let allS := scan_files clock limit offset (length (js_sort byMtime (jsonlFiles files)))
                         (js_sort byMtime (jsonlFiles files)) [] 0 in
  let sorted := js_sort byLastActivity (List.map snd allS) in
  getSessions clock (Some files) limit offset
  = mkSessionsResult (js_slice offset (offset + limit) sorted)
                     (Z.ltb (offset + limit) (Z.of_nat (length sorted)))
                     (Z.of_nat (length sorted)).
Proof.
  intros H. unfold getSessions. destruct (jsonlFiles files); [contradiction | reflexivity].
Qed.

Lemma page_first_record (clock : string -> nat -> Z) (dir : option (list File))
    (limit offset : Z) (s : Session) :
  In s (sessions (getSessions clock dir limit offset)) ->
  exists files f, dir = Some files /\ In f (jsonlFiles files)
                  /\ In s (parseJsonlSessions (clock (fileName f)) f).
Proof.
  destruct dir as [files|]; [|intros []].
  destruct (jsonlFiles files) as [|f0 js0] eqn:E.
  { unfold getSessions. rewrite E. intros []. }
  rewrite getSessions_page by (rewrite E; discriminate). cbn [sessions].
  set (ordered := js_sort byMtime (jsonlFiles files)).
  destruct (scan_files_spec clock limit offset (length ordered) ordered [] [] 0)
    as (_ & _ & Hfirst).
  { repeat split; [constructor | intros k x [] | intros k x [] | intros g x []]. }
  simpl in Hfirst. intros Hin.
  destruct (js_slice_middle offset (offset + limit)
              (js_sort byLastActivity
                 (List.map snd (scan_files clock limit offset (length ordered) ordered [] 0))))
    as (pre & post & Hmid).
  assert (In s (js_sort byLastActivity
                  (List.map snd (scan_files clock limit offset (length ordered) ordered [] 0))))
    as Hs.
  { rewrite Hmid. apply in_app_iff. right. apply in_app_iff. now left. }
  apply js_sort_In in Hs. apply in_map_iff in Hs as ([k s'] & <- & Hs).
  destruct (Hfirst k s' Hs) as (before & f & after & Hord & Hpar & _).
  exists files, f. repeat split; [|exact Hpar].
  assert (In f ordered) as Hf by (rewrite Hord; apply in_app_iff; right; now left).
  subst ordered. now apply js_sort_In in Hf.
Qed.

Lemma flat_map_member_length (A B : Type) (g : A -> list B) (l : list A) (x : A) :
  In x l -> (length (g x) <= length (List.flat_map g l))%nat.
Proof.
  induction l as [|y l IH]; intros H; [destruct H|].
  simpl. rewrite List.length_app. destruct H as [-> | H]; [lia|].
  specialize (IH H). lia.
Qed.

(** X17. A session that [getSessions] lists, when its identity is no
    placeholder, has messages: its [messageCount] is at least 1, and
    [getSessionMessages] returns at least that many messages for its
    identity. *)
Theorem X17_listed_session_has_its_messages
    (clock : string -> nat -> Z) (dir : option (list File)) (limit offset : Z) (s : Session) :
  In s (sessions (getSessions clock dir limit offset)) ->
  startsWith (id s) "temp-" = false ->
  (1 <= messageCount s <= Z.of_nat (length (getSessionMessages dir (id s))))%Z.
Proof.
  intros Hin Ht.
  destruct (page_first_record clock dir limit offset s Hin) as (files & f & -> & Hf & Hs).
  destruct (parsed_counted _ f s Hs) as (Hc & H1 & _). split; [exact H1|].
  rewrite Hc. unfold sessionCount. apply Nat2Z.inj_le.
  unfold getSessionMessages. rewrite Ht.
  destruct (jsonlFiles files) as [|f0 js0] eqn:E; [destruct Hf|]. rewrite <- E in *.
  rewrite (Permutation_length (js_sort_perm byTimestamp _)).
  now apply flat_map_member_length.
Qed.

Lemma js_slice_length (A : Type) (start stop : Z) (l : list A) :
  Z.of_nat (length (js_slice start stop l))
  = Z.max 0 (Z.min (slice_index (Z.of_nat (length l)) stop
                    - slice_index (Z.of_nat (length l)) start)
                   (Z.of_nat (length l) - slice_index (Z.of_nat (length l)) start)).
Proof.
  unfold js_slice. rewrite List.length_firstn, List.length_skipn.
  unfold slice_index. destruct (Z.ltb_spec start 0), (Z.ltb_spec stop 0); lia.
Qed.

(** X18. A page of [getSessions] with a limit that is not negative holds
    no more sessions than the limit and no more than the total.  From an
    offset that is not negative, the page holds the sessions that are
    left, all of them when [hasMore] is false and [limit] of them when it
    is true. *)
Theorem X18_page_holds_at_most_limit_sessions
    (clock : string -> nat -> Z) (dir : option (list File)) (limit offset : Z) :
  (0 <= limit)%Z ->
  let r := getSessions clock dir limit offset in
  let n := Z.of_nat (length (sessions r)) in
  (n <= limit)%Z /\ (n <= total r)%Z
  /\ ((0 <= offset)%Z -> hasMore r = false -> n = Z.max 0 (total r - offset))
  /\ ((0 <= offset)%Z -> hasMore r = true -> n = limit).
Proof.
  intros Hl r n. subst r n.
  destruct dir as [files|]; [|simpl; repeat split; try lia; discriminate].
  destruct (jsonlFiles files) as [|f0 js0] eqn:E.
  { unfold getSessions. rewrite E. simpl. repeat split; try lia; discriminate. }
  rewrite getSessions_page by (rewrite E; discriminate).
  cbn [sessions total hasMore]. rewrite js_slice_length.
  set (len := Z.of_nat (length _)). unfold slice_index.
  repeat split.
  - destruct (Z.ltb_spec offset 0), (Z.ltb_spec (offset + limit) 0); lia.
  - destruct (Z.ltb_spec offset 0), (Z.ltb_spec (offset + limit) 0); lia.
  - intros Ho Hm. apply Z.ltb_ge in Hm.
    destruct (Z.ltb_spec offset 0), (Z.ltb_spec (offset + limit) 0); lia.
  - intros Ho Hm. apply Z.ltb_lt in Hm.
    destruct (Z.ltb_spec offset 0), (Z.ltb_spec (offset + limit) 0); lia.
Qed.

End SessionCounts.

Section SessionCountsExamples.
Import Projects.

Lemma X16_witness :
  messageCount parsedFirst = Z.of_nat (length (session_entries (id parsedFirst) logA))
  /\ (1 <= messageCount parsedFirst)%Z
  /\ truthy (id parsedFirst) = true.
Proof.
  apply (X16_messageCount_counts_the_entries_of_the_file (noClock "" "") logA parsedFirst).
  vm_compute. now left.
Defined.

Lemma X17_witness :
  (1 <= messageCount listedFirst
     <= Z.of_nat (length (getSessionMessages (Some demoDir) (id listedFirst))))%Z.
Proof.
  apply (X17_listed_session_has_its_messages (noClock "") (Some demoDir) 5 0 listedFirst).
  - vm_compute. now left.
  - reflexivity.
Defined.

Lemma X18_witness :
  (Z.of_nat (length (sessions (getSessions (noClock "") (Some demoDir) 1 0))) <= 1)%Z
  /\ hasMore (getSessions (noClock "") (Some demoDir) 1 0) = true.
Proof.
  split; [|reflexivity].
  refine (proj1 (X18_page_holds_at_most_limit_sessions (noClock "") (Some demoDir) 1 0 _)).
  lia.
Defined.

End SessionCountsExamples.

Section DirectoryCache.
Import Projects.

(** X15. [extractProjectDirectory] answers from its cache: a path found
    there is returned whatever the configuration and the logs say, and
    every call leaves its answer there, at the name of the project and at
    no other.  So a second call for the project returns the first answer
    again, even when configuration and logs have changed, until
    [clearProjectDirectoryCache] empties the cache. *)
Theorem X15_extractProjectDirectory_answers_from_its_cache
    (cache : list (string * string)) (config : list (string * ProjectConfig))
    (dir : option (list File)) (n : string) :
  let r := extractProjectDirectory cache config dir n in
  (forall p, obj_get n cache = Some p -> r = (p, cache))
  /\ obj_get n (snd r) = Some (fst r)
  /\ (forall m, m <> n -> obj_get m (snd r) = obj_get m cache)
  /\ (forall config' dir', extractProjectDirectory (snd r) config' dir' n = r)
  /\ obj_get n (clearProjectDirectoryCache (snd r)) = None.
Proof.
  intros r.
  assert (obj_get n (snd r) = Some (fst r)) as Hget.
  { subst r. unfold extractProjectDirectory.
    destruct (obj_get n cache) as [p|] eqn:E; [exact E|].
    destruct (originalPathOf config n); cbn [fst snd];
      now rewrite obj_get_set, String.eqb_refl. }
  repeat apply conj.
  - intros p Hp. subst r. unfold extractProjectDirectory. now rewrite Hp.
  - exact Hget.
  - intros m Hm. subst r. unfold extractProjectDirectory.
    destruct (obj_get n cache) as [p|] eqn:E; [reflexivity|].
    assert (String.eqb m n = false) as Hne by now apply String.eqb_neq.
    destruct (originalPathOf config n); cbn [fst snd]; now rewrite obj_get_set, Hne.
  - intros config' dir'. unfold extractProjectDirectory at 1. rewrite Hget.
    now destruct r.
  - reflexivity.
Qed.

End DirectoryCache.

Section DeleteSessionFrame.
Import Projects.









End DeleteSessionFrame.

Section EncodedNames.
Import Projects.
#[local] Open Scope string_scope.
#[local] Arguments String.append !s1 s2 : simpl nomatch.

Lemma encode_absolute (rest : string) :
  encodeProjectName (String "/" rest) = String "-" (hyphenated rest).
Proof.
  unfold encodeProjectName.
  rewrite (startsWith_app "/" rest : startsWith (String "/" rest) "/" = true).
  now rewrite substring_tail.
Qed.

Lemma clean_no_slash (s : string) :
  clean s = true -> forall a b, s <> a ++ String "/" b.
Proof.
  induction s as [|c s IH]; intros H a b Heq.
  - destruct a; discriminate.
  - simpl in H. apply andb_true_iff in H as [H1 H2]. apply andb_true_iff in H1 as [_ H1].
    destruct a as [|c' a]; simpl in Heq; injection Heq as -> Heq.
    + discriminate.
    + now apply (IH H2 a b).
Qed.

(** X20. The name that [addProjectManually] makes of a path starts with
    a hyphen and holds neither a slash nor white space, so that it names
    one directory.  It does not tell a slash of the path from a hyphen:
    two paths that differ in this only get the same name. *)
Theorem X20_encoded_name_is_one_path_component (absolutePath a b : string) :
  startsWith (encodeProjectName absolutePath) "-" = true
  /\ clean (encodeProjectName absolutePath) = true
  /\ (forall x y, encodeProjectName absolutePath <> x ++ String "/" y)
  /\ encodeProjectName (String "/" (a ++ String "/" b))
     = encodeProjectName (String "/" (a ++ String "-" b)).
Proof.
  assert (clean (encodeProjectName absolutePath) = true) as Hc.
  { unfold encodeProjectName. simpl. apply replace_space_runs_result_clean. }
  repeat apply conj.
  - unfold encodeProjectName. apply startsWith_app.
  - exact Hc.
  - now apply clean_no_slash.
  - rewrite !encode_absolute. unfold hyphenated. now rewrite !replace_char_app.
Qed.

End EncodedNames.

(** * Further properties of the client *)

Section SidebarState.
Import App.

(** X21. [handleSessionDelete] takes the session out of every project
    and out of the registry of placeholders, and clears the selection
    when the session was selected; the other sessions stay in their
    order.  The total of every project goes down by one, not below 0,
    whether the project held the session or not; the selected project
    and the protection set stay as they are. *)
Theorem X21_handleSessionDelete_removes_the_session (sessionId : string) (s : AppState) :
  let s' := handleSessionDelete sessionId s in
  Forall2 (fun p' p =>
             name p' = name p
             /\ sessions p' = List.filter (fun x => negb (String.eqb (id x) sessionId))
                                          (sessions p)
             /\ Forall (fun x => id x <> sessionId) (sessions p')
             /\ meta_total p' = Z.max 0 (meta_total p - 1))
          (projects s') (projects s)
  /\ obj_get sessionId (placeholderSessions s') = None
  /\ (forall k, k <> sessionId ->
                obj_get k (placeholderSessions s') = obj_get k (placeholderSessions s))
  /\ selectedSession s'
     = match selectedSession s with
       | Some x => if String.eqb (id x) sessionId then None else Some x
       | None => None
       end
  /\ selectedProject s' = selectedProject s
  /\ activeSessions s' = activeSessions s.
Proof.
  intros s'. subst s'. unfold handleSessionDelete.
  cbn [projects placeholderSessions selectedSession selectedProject activeSessions].
  repeat apply conj; try reflexivity.
  - induction (projects s) as [|p l IH]; simpl; constructor; [|exact IH].
    cbn [name sessions with_sessions_meta]. repeat apply conj; try reflexivity.
    + apply List.Forall_forall. intros x Hx. apply filter_In in Hx as [_ Hx].
      apply negb_true_iff in Hx. now apply String.eqb_neq.
    + unfold meta_total at 1, meta_with_total, with_sessions_meta. cbn [sessionMeta total].
      unfold num_or. destruct (Z.eqb_spec (Z.max 0 (meta_total p - 1)) 0); lia.
  - destruct (obj_get sessionId (placeholderSessions s)) eqn:E; [apply obj_get_delete | exact E].
  - intros k Hk. destruct (obj_get sessionId (placeholderSessions s)); [|reflexivity].
    now apply obj_get_delete_other.
Qed.

Lemma someDiffers_false (data prev : list Project) :
  someDiffers data prev = false -> length data = length prev ->
  Forall2 (fun p q =>
             name p = name q /\ displayName p = displayName q /\ fullPath p = fullPath q
             /\ sessionMeta p = sessionMeta q /\ sessions p = sessions q)
          prev data.
Proof.
  revert prev. induction data as [|d data IH]; intros [|p prev] H Hlen;
    try discriminate; [constructor|].
  simpl in H. apply orb_false_iff in H as [Hd H]. constructor.
  - unfold projectDiffers in Hd. repeat (apply orb_false_iff in Hd as [Hd ?]).
    repeat match goal with
           | X : negb (String.eqb _ _) = false |- _ =>
               apply negb_false_iff in X; apply String.eqb_eq in X
           | X : negb (bool_decide _) = false |- _ =>
               apply negb_false_iff in X; apply bool_decide_eq_true in X
           end.
    repeat split; congruence.
  - apply IH; [exact H | now injection Hlen].
Qed.

Lemma Forall2_same (A : Type) (R : A -> A -> Prop) (l : list A) :
  (forall x, R x x) -> Forall2 R l l.
Proof. intros H. induction l; constructor; auto. Qed.

(** X22. After [fetchProjects] the projects of the state are those that
    the server sent, with their placeholders, in name, display name,
    path, sessions and session numbers, also when the state is kept
    because nothing of this has changed; the selection and the
    protection set are not touched. *)
Theorem X22_fetchProjects_shows_what_the_server_sent
    (now : Z) (data : list Project) (s : AppState) :
  let s' := fetchProjects now data s in
  Forall2 (fun p q =>
             name p = name q /\ displayName p = displayName q /\ fullPath p = fullPath q
             /\ sessionMeta p = sessionMeta q /\ sessions p = sessions q)
          (projects s') (fst (addPlaceholderSessions now (placeholderSessions s) data))
  /\ placeholderSessions s' = snd (addPlaceholderSessions now (placeholderSessions s) data)
  /\ selectedProject s' = selectedProject s
  /\ selectedSession s' = selectedSession s
  /\ activeSessions s' = activeSessions s.
Proof.
  intros s'. subst s'. unfold fetchProjects.
  destruct (addPlaceholderSessions now (placeholderSessions s) data) as [fresh stored'].
  cbn [fst snd]. repeat apply conj; try reflexivity.
  cbn [projects set_projects].
  destruct (projects s) as [|p prev] eqn:E.
  - apply Forall2_same. now intros x.
  - destruct (someDiffers fresh (p :: prev)) eqn:D; cbn [orb].
    + apply Forall2_same. now intros x.
    + destruct (Nat.eqb (length fresh) (length (p :: prev))) eqn:L; cbn [negb].
      * apply someDiffers_false; [exact D | now apply Nat.eqb_eq].
      * apply Forall2_same. now intros x.
Qed.

Lemma js_find_some (A : Type) (p : A -> bool) (l : list A) (x : A) :
  js_find p l = Some x -> In x l /\ p x = true.
Proof. unfold js_find. apply List.find_some. Qed.

(** X23. After [handleSidebarRefresh], with a project of some name
    selected before, the selection fits the list: the selected project,
    if there still is one, is the project of that name in the new list,
    and the selected session, if there still is one, is the session of
    the former identity among its sessions.  When the list holds no
    project of that name, nothing is selected. *)
Theorem X23_handleSidebarRefresh_keeps_the_selection_in_the_list
    (now : Z) (freshProjects : list Project) (s : AppState) (sp : Project) :
  selectedProject s = Some sp -> truthy (name sp) = true ->
  let s' := handleSidebarRefresh now freshProjects s in
  projects s' = fst (addPlaceholderSessions now (placeholderSessions s) freshProjects)
  /\ match selectedProject s' with
     | Some p =>
         In p (projects s') /\ name p = name sp
         /\ match selectedSession s' with
            | Some x => In x (sessions p)
                        /\ exists ss, selectedSession s = Some ss /\ id x = id ss
            | None => True
            end
     | None =>
         selectedSession s' = None
         /\ forall p, In p (projects s') -> name p <> name sp
     end.
Proof.
  intros Hsp Ht s'. subst s'. unfold handleSidebarRefresh.
  destruct (addPlaceholderSessions now (placeholderSessions s) freshProjects)
    as [fresh stored'].
  rewrite Hsp, Ht. cbn [fst].
  destruct (js_find (fun p => String.eqb (name p) (name sp)) fresh) as [rp|] eqn:F.
  - apply js_find_some in F as [Hin Hn]. apply String.eqb_eq in Hn.
    destruct (selectedSession s) as [ss|] eqn:S.
    + destruct (js_find (fun x => String.eqb (id x) (id ss)) (sessions rp)) as [rs|] eqn:G.
      * apply js_find_some in G as [Hrs Hid]. apply String.eqb_eq in Hid.
        cbn. repeat split; try assumption. now exists ss.
      * cbn. repeat split; assumption.
    + cbn. rewrite S. repeat split; assumption.
  - cbn. repeat split. intros p Hp Hn.
    unfold js_find in F. apply (List.find_none _ _ F) in Hp.
    apply String.eqb_neq in Hp. contradiction.
Qed.

Lemma findSession_some (i : string) (projs : list Project) (p : Project) (x : Session) :
  findSession i projs = Some (p, x) ->
  In p projs /\ In x (sessions p) /\ id x = i
  /\ exists before after,
       projs = before ++ p :: after
       /\ Forall (fun q => Forall (fun y => id y <> i) (sessions q)) before.
Proof.
  induction projs as [|q projs IH]; simpl; [discriminate|].
  destruct (js_find (fun y => String.eqb (id y) i) (sessions q)) as [y|] eqn:F.
  - intros [= <- <-]. apply js_find_some in F as [Hin Hid]. apply String.eqb_eq in Hid.
    repeat split; [now left | exact Hin | exact Hid |].
    exists [], projs. split; [reflexivity | constructor].
  - intros H. destruct (IH H) as (H1 & H2 & H3 & before & after & -> & Hb).
    repeat split; [now right | exact H2 | exact H3 |].
    exists (q :: before), after. split; [reflexivity|]. constructor; [|exact Hb].
    apply List.Forall_forall. intros z Hz Hid. unfold js_find in F.
    apply (List.find_none _ _ F) in Hz. apply String.eqb_neq in Hz. contradiction.
Qed.

Lemma findSession_none (i : string) (projs : list Project) :
  findSession i projs = None ->
  Forall (fun q => Forall (fun y => id y <> i) (sessions q)) projs.
Proof.
  induction projs as [|q projs IH]; simpl; [constructor|].
  destruct (js_find (fun y => String.eqb (id y) i) (sessions q)) as [y|] eqn:F;
    [discriminate|].
  intros H. constructor; [|now apply IH].
  apply List.Forall_forall. intros z Hz Hid. unfold js_find in F.
  apply (List.find_none _ _ F) in Hz. apply String.eqb_neq in Hz. contradiction.
Qed.

(** X24. The effect that follows the session of the URL selects the
    first project of the list that holds a session of that identity,
    together with that session; when no project holds one, it leaves the
    state as it is. *)
Theorem X24_session_of_the_URL_is_selected_with_its_project (i : string) (s : AppState) :
  truthy i = true ->
  let s' := onSessionRoute (Some i) s in
  projects s' = projects s /\ activeSessions s' = activeSessions s
  /\ ((exists p x before after,
         selectedProject s' = Some p /\ selectedSession s' = Some x
         /\ projects s = before ++ p :: after /\ In x (sessions p) /\ id x = i
         /\ Forall (fun q => Forall (fun y => id y <> i) (sessions q)) before)
      \/ (s' = s /\ Forall (fun q => Forall (fun y => id y <> i) (sessions q)) (projects s))).
Proof.
  intros Ht s'. subst s'. unfold onSessionRoute. rewrite Ht.
  destruct (projects s) as [|q projs] eqn:E.
  - repeat split; try assumption. right. split; [reflexivity | constructor].
  - rewrite <- E. destruct (findSession i (projects s)) as [[p x]|] eqn:F.
    + apply findSession_some in F as (H1 & H2 & H3 & before & after & Hsplit & Hb).
      cbn. rewrite E. repeat split. left. exists p, x, before, after.
      rewrite <- E. repeat split; assumption.
    + apply findSession_none in F. repeat split; try (now rewrite E).
      right. split; [reflexivity | exact F].
Qed.

Lemma onProjectsUpdated_processed (now : Z) (m : string) (u : list Project) (s : AppState) :
  m ∉ processedMessageIds s ->
  processedMessageIds (onProjectsUpdated now m u s) = processedMessageIds s ∪ {[ m ]}.
Proof.
  intros H. unfold onProjectsUpdated. rewrite bool_decide_eq_false_2 by exact H.
  destruct (_ && _); [reflexivity|].
  destruct (addPlaceholderSessions now (placeholderSessions s) u) as [w stored'].
  destruct (selectedProject s) as [sp|]; [|reflexivity].
  destruct (js_find _ w) as [up|]; [|reflexivity].
  destruct (bool_decide (up = sp)); [reflexivity|].
  destruct (selectedSession s) as [ss|]; [|reflexivity].
  destruct (js_find _ (sessions up)); reflexivity.
Qed.

(** X25. A message of the WebSocket is processed once: after
    [onProjectsUpdated] its identifier is among the processed ones, with
    those that were there, and the same identifier coming again, with
    whatever projects, changes nothing. *)
Theorem X25_snapshot_message_is_processed_once
    (now now' : Z) (m : string) (u u' : list Project) (s : AppState) :
  let s1 := onProjectsUpdated now m u s in
  m ∈ processedMessageIds s1
  /\ (forall k, k ∈ processedMessageIds s -> k ∈ processedMessageIds s1)
  /\ onProjectsUpdated now' m u' s1 = s1.
Proof.
  intros s1.
  assert (m ∈ processedMessageIds s1
          /\ forall k, k ∈ processedMessageIds s -> k ∈ processedMessageIds s1) as [H1 H2].
  { subst s1. destruct (decide (m ∈ processedMessageIds s)) as [Hin | Hout].
    - unfold onProjectsUpdated. rewrite bool_decide_eq_true_2 by exact Hin. now split.
    - rewrite onProjectsUpdated_processed by exact Hout. split.
      + apply elem_of_union. right. now apply elem_of_singleton.
      + intros k Hk. apply elem_of_union. now left. }
  repeat split; try assumption.
  unfold onProjectsUpdated at 1. now rewrite bool_decide_eq_true_2 by exact H1.
Qed.

Lemma filter_length_same (A : Type) (p : A -> bool) (l : list A) :
  length (List.filter p l) = length l -> List.filter p l = l.
Proof.
  induction l as [|x l IH]; simpl; [reflexivity|].
  pose proof (List.filter_length_le p l) as Hle.
  destruct (p x); simpl; intros H; [f_equal; apply IH; lia | lia].
Qed.

Lemma addPlaceholderSessions_snd (now : Z) (stored : list (string * PlaceholderData))
    (projs : list Project) :
  snd (addPlaceholderSessions now stored projs) = validPlaceholders now projs stored.
Proof.
  unfold addPlaceholderSessions. cbn [snd].
  destruct (Nat.eqb _ _) eqn:E; [|reflexivity].
  apply Nat.eqb_eq in E. symmetry. now apply filter_length_same.
Qed.

Lemma placeholder_valid_spec (now : Z) (projs : list Project) (d : PlaceholderData) :
  placeholder_valid now projs d
  = Z.ltb (now - createdAt d) maxAge
    && js_some (fun p => String.eqb (name p) (projectName d)) projs
    && negb (pendingConversion d).
Proof.
  unfold placeholder_valid. cbv zeta.
  destruct (Z.ltb (now - createdAt d) maxAge), (js_some _ projs), (pendingConversion d);
    reflexivity.
Qed.

Lemma with_placeholders_front (valid : list (string * PlaceholderData)) (l : list Project) :
  Forall2 (fun p' p =>
             name p' = name p
             /\ exists ph,
                  sessions p' = ph ++ sessions p
                  /\ Forall (fun x => isPlaceholder x = true) ph
                  /\ List.map id ph
                     = List.map fst
                         (List.filter (fun kv => String.eqb (projectName (snd kv)) (name p))
                                      valid)
                  /\ meta_total p' = (meta_total p + Z.of_nat (length ph))%Z)
          (List.map (with_placeholders valid) l) l.
Proof.
  induction l as [|p l IH]; simpl; constructor; [|apply IH].
  split; [apply with_placeholders_name|].
  unfold with_placeholders.
  assert (Forall (fun x => isPlaceholder x = true) (projectPlaceholders valid p)
          /\ List.map id (projectPlaceholders valid p)
             = List.map fst (List.filter
                               (fun kv => String.eqb (projectName (snd kv)) (name p)) valid))
    as [Hall Hids].
  { unfold projectPlaceholders. split.
    - apply List.Forall_forall. intros x Hx. now apply in_map_iff in Hx as (kv & <- & _).
    - rewrite List.map_map. reflexivity. }
  destruct (projectPlaceholders valid p) as [|x ph] eqn:E.
  - exists []. repeat split; [constructor | exact Hids | simpl; lia].
  - exists (x :: ph). repeat split; [exact Hall | exact Hids |].
    unfold meta_total at 1, meta_with_total, with_sessions_meta. cbn [sessionMeta total].
    unfold num_or. destruct (Z.eqb_spec (meta_total p + Z.of_nat (length (x :: ph))) 0); lia.
Qed.

(** X26. [addPlaceholderSessions] leaves in the registry the records that
    are less than a day old, belong to a project of the list and are not
    pending conversion, in their order, whatever their
    [pendingConversionTime]; it puts the sessions of the records of each
    project in front of the sessions that the project came with, flagged
    as placeholders and under the identities of their records, and adds
    their number to the total of the project. *)
Theorem X26_addPlaceholderSessions_restores_the_valid_placeholders
    (now : Z) (stored : list (string * PlaceholderData)) (projs : list Project) :
  let r := addPlaceholderSessions now stored projs in
  snd r = List.filter
            (fun kv => Z.ltb (now - createdAt (snd kv)) maxAge
                       && js_some (fun p => String.eqb (name p) (projectName (snd kv))) projs
                       && negb (pendingConversion (snd kv)))
            stored
  /\ Forall2 (fun p' p =>
                name p' = name p
                /\ exists ph,
                     sessions p' = ph ++ sessions p
                     /\ Forall (fun x => isPlaceholder x = true) ph
                     /\ List.map id ph
                        = List.map fst
                            (List.filter (fun kv => String.eqb (projectName (snd kv)) (name p))
                                         (snd r))
                     /\ meta_total p' = (meta_total p + Z.of_nat (length ph))%Z)
             (fst r) projs.
Proof.
  intros r. subst r. rewrite addPlaceholderSessions_snd, addPlaceholderSessions_fst. split.
  - unfold validPlaceholders. apply List.filter_ext. intros kv. apply placeholder_valid_spec.
  - apply with_placeholders_front.
Qed.

Lemma markSessionAsActive_registry (i : string) (s : AppState) :
  placeholderSessions (markSessionAsActive i s) = placeholderSessions s.
Proof. unfold markSessionAsActive. now destruct (truthy i). Qed.

Lemma temp_truthy (P : string) : startsWith P "temp-" = true -> truthy P = true.
Proof. destruct P; [discriminate | reflexivity]. Qed.

Lemma handleSubmit_pending (a P : string) (nowMs : Z) (s : AppState) :
  List.NoDup (List.map fst (placeholderSessions s)) -> startsWith P "temp-" = true ->
  forall d, In (P, d) (placeholderSessions (handleSubmit a (Some P) nowMs s)) ->
            pendingConversion d = true.
Proof.
  intros Hnd Ht d. unfold handleSubmit. rewrite Ht, (temp_truthy P Ht). cbn [andb].
  rewrite markSessionAsActive_registry.
  destruct (obj_get P (placeholderSessions s)) as [d0|] eqn:E.
  - cbn [placeholderSessions set_placeholderSessions]. intros Hin.
    pose proof (obj_set_NoDup P (mark_pending nowMs d0) _ Hnd) as Hnd'.
    pose proof (obj_get_In _ P d _ Hnd' Hin) as Hget.
    rewrite obj_get_set, String.eqb_refl in Hget. now injection Hget as <-.
  - rewrite markSessionAsActive_registry. intros Hin. exfalso.
    apply (proj1 (obj_get_None P _) E). apply in_map_iff. now exists (P, d).
Qed.

(** X27. A placeholder that has been sent is not restored: after
    [handleSubmit] for a placeholder identity, in a registry of distinct
    identities, [addPlaceholderSessions] drops the record of the
    placeholder from the registry and puts no session of that identity in
    front of the sessions of any project. *)
Theorem X27_sent_placeholder_is_not_restored
    (now nowMs : Z) (a P : string) (s : AppState) (projs : list Project) :
  List.NoDup (List.map fst (placeholderSessions s)) -> startsWith P "temp-" = true ->
  let s1 := handleSubmit a (Some P) nowMs s in
  let r := addPlaceholderSessions now (placeholderSessions s1) projs in
  obj_get P (snd r) = None
  /\ Forall2 (fun p' p => exists ph, sessions p' = ph ++ sessions p /\ ~ In P (List.map id ph))
             (fst r) projs.
Proof.
  intros Hnd Ht s1 r.
  assert (~ In P (List.map fst (snd r))) as Hout.
  { subst r. rewrite addPlaceholderSessions_snd. unfold validPlaceholders.
    intros Hin. apply in_map_iff in Hin as ([k d] & Hk & Hin). simpl in Hk. subst k.
    apply filter_In in Hin as [Hin Hv]. cbn [snd] in Hv.
    rewrite placeholder_valid_spec in Hv.
    rewrite (handleSubmit_pending a P nowMs s Hnd Ht d Hin) in Hv.
    now rewrite andb_false_r in Hv. }
  split; [now apply obj_get_None|].
  subst r. rewrite addPlaceholderSessions_snd in Hout. rewrite addPlaceholderSessions_fst.
  eapply Forall2_impl; [apply with_placeholders_front|].
  intros p' p (_ & ph & H1 & _ & H3 & _). exists ph. split; [exact H1|].
  rewrite H3. intros Hin. apply Hout.
  apply in_map_iff in Hin as (kv & Hk & Hin). apply filter_In in Hin as [Hin _].
  apply in_map_iff. now exists kv.
Qed.

Lemma elements_In (X : gset string) (i : string) : In i (elements X) <-> i ∈ X.
Proof. rewrite <- list_elem_of_In. apply elem_of_elements. Qed.

(** X28. A conversation started without a session is protected under a
    [new-session-] marker from [handleSubmit] on, whatever is selected;
    [replaceTemporarySession] puts the real identity in the place of the
    marker, and [markSessionAsInactive] at the end of the conversation
    takes it out again.  When the protection set held no marker and not
    the real identity before, it is afterwards as it was. *)
Theorem X28_protection_of_a_new_conversation_ends_with_it
    (marker R : string) (nowMs : Z) (s : AppState) :
  startsWith marker "new-session-" = true ->
  truthy R = true -> startsWith R "new-session-" = false ->
  (forall i, i ∈ activeSessions s -> startsWith i "new-session-" = false) ->
  R ∉ activeSessions s ->
  let s1 := handleSubmit marker None nowMs s in
  let s2 := replaceTemporarySession R s1 in
  let s3 := markSessionAsInactive R s2 in
  hasActiveSession (selectedSession s1) (activeSessions s1) = true
  /\ (R ∈ activeSessions s2) /\ (marker ∉ activeSessions s2)
  /\ activeSessions s3 = activeSessions s
  /\ projects s3 = projects s /\ selectedSession s3 = selectedSession s.
Proof.
  intros Hm HR HRn Hclean Hout s1 s2 s3.
  assert (truthy marker = true) as Htm by (destruct marker; [discriminate | reflexivity]).
  assert (activeSessions s1 = activeSessions s ∪ {[ marker ]}) as H1.
  { subst s1. unfold handleSubmit, markSessionAsActive. now rewrite Htm. }
  assert (activeSessions s2
          = filter (fun i => startsWith i "new-session-" = false) (activeSessions s1)
            ∪ {[ R ]}) as H2.
  { subst s2. unfold replaceTemporarySession. now rewrite HR. }
  assert (activeSessions s3 = activeSessions s2 ∖ {[ R ]}) as H3.
  { subst s3. unfold markSessionAsInactive. now rewrite HR. }
  repeat apply conj.
  - unfold hasActiveSession. apply orb_true_iff. right. unfold js_some.
    apply existsb_exists. exists marker. split; [|exact Hm].
    apply elements_In. rewrite H1. apply elem_of_union. right. now apply elem_of_singleton.
  - rewrite H2. apply elem_of_union. right. now apply elem_of_singleton.
  - rewrite H2. intros Hin. apply elem_of_union in Hin as [Hin | Hin].
    + apply elem_of_filter in Hin as [Hin _]. congruence.
    + apply elem_of_singleton in Hin. subst R. congruence.
  - rewrite H3, H2, H1. apply set_eq. intros i. split.
    + intros Hin. apply elem_of_difference in Hin as [Hin Hne].
      apply elem_of_union in Hin as [Hin | Hin]; [|contradiction].
      apply elem_of_filter in Hin as [Hf Hin].
      apply elem_of_union in Hin as [Hin | Hin]; [exact Hin|].
      apply elem_of_singleton in Hin. subst i. congruence.
    + intros Hin. apply elem_of_difference. split.
      * apply elem_of_union. left. apply elem_of_filter. split; [now apply Hclean|].
        apply elem_of_union. now left.
      * intros Heq. apply elem_of_singleton in Heq. subst i. contradiction.
  - subst s3 s2 s1. unfold markSessionAsInactive, replaceTemporarySession, handleSubmit,
      markSessionAsActive. now rewrite HR, Htm.
  - subst s3 s2 s1. unfold markSessionAsInactive, replaceTemporarySession, handleSubmit,
      markSessionAsActive. now rewrite HR, Htm.
Qed.

Lemma Forall2_map_same (A : Type) (R : A -> A -> Prop) (f : A -> A) (l : list A) :
  (forall x, R (f x) x) -> Forall2 R (List.map f l) l.
Proof. intros H. induction l; simpl; constructor; auto. Qed.

Lemma sameButFor_refl (a : ActivityData) (l : list Session) : sameButFor a l l.
Proof. apply Forall2_same. intros x. split; [reflexivity | intros _; reflexivity]. Qed.

Lemma activityInSessions_frame (i : string) (a : ActivityData) (l : list Session) :
  a_sessionId a = Some i -> sameButFor a (activityInSessions i a l) l.
Proof.
  intros Hi. apply Forall2_map_same. intros x.
  destruct (String.eqb (id x) i) eqn:E.
  - split; [reflexivity|]. intros Hne. exfalso. apply Hne.
    apply String.eqb_eq in E. now rewrite Hi, E.
  - split; [reflexivity | intros _; reflexivity].
Qed.

(** X29. [updateSessionActivity] touches the sessions of one identity in
    the projects of one name: the list keeps its projects and their names
    in order, a project that is not named like the selected one is as it
    was, and in the others (and in the selected project) the sessions keep
    their identities and order, every session of another identity as it
    was.  The selected session and the protection set are not touched. *)
Theorem X29_updateSessionActivity_touches_one_session (a : ActivityData) (s : AppState) :
  let s' := updateSessionActivity a s in
  Forall2 (fun p' p =>
             name p' = name p
             /\ (~ (exists sp, selectedProject s = Some sp /\ name sp = name p) -> p' = p)
             /\ sameButFor a (sessions p') (sessions p))
          (projects s') (projects s)
  /\ match selectedProject s', selectedProject s with
     | Some sp', Some sp => name sp' = name sp /\ sameButFor a (sessions sp') (sessions sp)
     | None, None => True
     | _, _ => False
     end
  /\ selectedSession s' = selectedSession s /\ activeSessions s' = activeSessions s.
Proof.
  intros s'. subst s'. unfold updateSessionActivity.
  assert (Forall2 (fun p' p =>
             name p' = name p
             /\ (~ (exists sp, selectedProject s = Some sp /\ name sp = name p) -> p' = p)
             /\ sameButFor a (sessions p') (sessions p)) (projects s) (projects s)) as Hsame.
  { apply Forall2_same. intros p. repeat split. apply sameButFor_refl. }
  destruct (a_sessionId a) as [i|] eqn:Ei.
  2:{ split; [exact Hsame|]. destruct (selectedProject s); repeat split.
      apply sameButFor_refl. }
  destruct (selectedProject s) as [sp|] eqn:Es.
  2:{ split; [exact Hsame|]. rewrite Es. repeat split. }
  destruct (truthy i) eqn:Ht.
  2:{ split; [exact Hsame|]. rewrite Es. repeat split. apply sameButFor_refl. }
  clear Hsame. cbn. repeat apply conj; try reflexivity.
  - apply Forall2_map_same. intros p.
    destruct (String.eqb (name p) (name sp)) eqn:E.
    + cbn. repeat apply conj; [reflexivity | | now apply activityInSessions_frame].
      intros Hno. exfalso. apply Hno. exists sp. split; [reflexivity|].
      symmetry. now apply String.eqb_eq.
    + repeat split. apply sameButFor_refl.
  - now apply activityInSessions_frame.
Qed.

End SidebarState.

Section SidebarStateExamples.
Import App.

Lemma X23_witness :
  projects (handleSidebarRefresh 1700000000001 [demo] tempState)
  = fst (addPlaceholderSessions 1700000000001 (placeholderSessions tempState) [demo]).
Proof.
  apply (X23_handleSidebarRefresh_keeps_the_selection_in_the_list
           1700000000001 [demo] tempState (demoWith [tempSession])); reflexivity.
Defined.

Lemma X24_witness :
  exists x, selectedSession (onSessionRoute (Some "abc-real") (protectedState None ∅)) = Some x
            /\ id x = "abc-real".
Proof.
  destruct (X24_session_of_the_URL_is_selected_with_its_project
              "abc-real" (protectedState None ∅) eq_refl) as (_ & _ & [H | [_ H]]).
  - destruct H as (p & x & before & after & _ & Hx & _ & _ & Hid & _).
    exists x. split; [exact Hx | exact Hid].
  - exfalso. apply List.Forall_inv in H. apply List.Forall_inv in H. now apply H.
Defined.

Lemma X27_witness :
  obj_get (id tempSession)
          (snd (addPlaceholderSessions 1700000000002
                  (placeholderSessions
                     (handleSubmit (id tempSession) (Some (id tempSession)) 1700000000001
                                   tempState))
                  [demo])) = None.
Proof.
  apply (X27_sent_placeholder_is_not_restored
           1700000000002 1700000000001 (id tempSession) (id tempSession) tempState [demo]).
  - repeat constructor. simpl. tauto.
  - reflexivity.
Defined.

Lemma X28_witness :
  activeSessions
    (markSessionAsInactive "abc-real"
       (replaceTemporarySession "abc-real" (handleSubmit newMarker None 1700000000001 state0)))
  = activeSessions state0.
Proof.
  apply (X28_protection_of_a_new_conversation_ends_with_it
           newMarker "abc-real" 1700000000001 state0).
  - reflexivity.
  - reflexivity.
  - reflexivity.
  - intros i Hi. simpl in Hi. set_solver.
  - simpl. set_solver.
Defined.

End SidebarStateExamples.
